(** * Game Boy link-cable trade engine (pkmn_trader, views/trade.c)

    A shallow embedding of the byte handlers, the bit shifter, the
    clock-edge handler and the display callback of [trade.c], and the
    properties of the session state machine proved over it.

    Bytes and the [int] counter are integers of [Z]; a block of memory
    (a [TradeBlock]) is the list of its bytes.  A C operation without a
    defined result (an access outside the block, an [int] increment past
    [INT_MAX]) makes the handler return [None]. *)

From stdpp Require Import base numbers option list.
From Stdlib Require String.
Import String.StringSyntax.
Delimit Scope string_scope with string.

Local Open Scope Z_scope.

(** ** Protocol constants (the [#define]s of trade.c) *)

Definition PKMN_BLANK : Z := 0x00.

Definition ITEM_1_HIGHLIGHTED : Z := 0xD0.
Definition ITEM_2_HIGHLIGHTED : Z := 0xD1.
Definition ITEM_3_HIGHLIGHTED : Z := 0xD2.
Definition ITEM_1_SELECTED : Z := 0xD4.
Definition ITEM_2_SELECTED : Z := 0xD5.
Definition ITEM_3_SELECTED : Z := 0xD6.

Definition SERIAL_PREAMBLE_BYTE : Z := 0xFD.

Definition SERIAL_PREAMBLE_LENGTH : Z := 6.
Definition SERIAL_RN_PREAMBLE_LENGTH : Z := 7.
Definition SERIAL_TRADE_PREAMBLE_LENGTH : Z := 9.
Definition SERIAL_RNS_LENGTH : Z := 10.
Definition SERIAL_PATCH_LIST_PART_TERMINATOR : Z := 0xFF.
Definition SERIAL_NO_DATA_BYTE : Z := 0xFE.

Definition PKMN_MASTER : Z := 0x01.
Definition PKMN_SLAVE : Z := 0x02.
Definition PKMN_CONNECTED : Z := 0x60.
Definition PKMN_TRADE_ACCEPT : Z := 0x62.
Definition PKMN_TRADE_REJECT : Z := 0x61.
Definition PKMN_TABLE_LEAVE : Z := 0x6f.
Definition PKMN_SEL_NUM_MASK : Z := 0x60.
Definition PKMN_SEL_NUM_ONE : Z := 0x60.

Definition PKMN_TRADE_CENTRE : Z := ITEM_1_SELECTED.
Definition PKMN_COLOSSEUM : Z := ITEM_2_SELECTED.
Definition PKMN_BREAK_LINK : Z := ITEM_3_SELECTED.

Definition INT_MAX : Z := 2147483647.
Definition UINT32_MOD : Z := 4294967296.

(** ** Enumerations *)

Inductive trade_centre_state_t : Set :=
  | TRADE_RESET
  | TRADE_INIT
  | TRADE_RANDOM
  | TRADE_DATA
  | TRADE_PATCH_HEADER
  | TRADE_PATCH_DATA
  | TRADE_SELECT
  | TRADE_PENDING
  | TRADE_CONFIRMATION
  | TRADE_DONE.

Inductive render_gameboy_state_t : Set :=
  | GAMEBOY_CONN_FALSE
  | GAMEBOY_CONN_TRUE
  | GAMEBOY_READY
  | GAMEBOY_WAITING
  | GAMEBOY_TRADE_PENDING
  | GAMEBOY_TRADING.

(** The enumerators' integer values, in declaration order. *)
Definition phase_rank (p : trade_centre_state_t) : Z :=
  match p with
  | TRADE_RESET => 0 | TRADE_INIT => 1 | TRADE_RANDOM => 2 | TRADE_DATA => 3
  | TRADE_PATCH_HEADER => 4 | TRADE_PATCH_DATA => 5 | TRADE_SELECT => 6
  | TRADE_PENDING => 7 | TRADE_CONFIRMATION => 8 | TRADE_DONE => 9
  end.

Definition status_rank (g : render_gameboy_state_t) : Z :=
  match g with
  | GAMEBOY_CONN_FALSE => 0 | GAMEBOY_CONN_TRUE => 1 | GAMEBOY_READY => 2
  | GAMEBOY_WAITING => 3 | GAMEBOY_TRADE_PENDING => 4 | GAMEBOY_TRADING => 5
  end.

(** ** The [TradeBlock] layout

    [TradeBlock], [struct pokemon_structure] and [struct name] are declared
    in pokemon_app.h, which is not part of the sources at hand; the handlers
    only need the size of the block and the offsets and element sizes of the
    four arrays they touch, which are taken as a parameter. *)

Record layout : Set := {
  sizeof_TradeBlock : Z;
  off_party_members : Z;          (* uint8_t party_members[] *)
  off_party : Z;                  (* struct pokemon_structure party[6] *)
  off_nickname : Z;               (* struct name nickname[6] *)
  off_ot_name : Z;                (* struct name ot_name[6] *)
  sizeof_pokemon_structure : Z;
  sizeof_name : Z
}.

Definition party_size (L : layout) : Z := 6 * sizeof_pokemon_structure L.

(** Two byte ranges [a, a+la) and [b, b+lb) do not meet. *)
Definition apart (a la b lb : Z) : Prop := a + la <= b \/ b + lb <= a.

(** What C guarantees of any such struct: the four arrays have six
    elements of positive size, lie inside the block and do not overlap. *)
Record layout_ok (L : layout) : Prop := {
  lo_pm_pos : 0 <= off_party_members L;
  lo_pm_end : off_party_members L + 6 <= sizeof_TradeBlock L;
  lo_ps_pos : 0 < sizeof_pokemon_structure L;
  lo_nm_pos : 0 < sizeof_name L;
  lo_party_pos : 0 <= off_party L;
  lo_party_end : off_party L + party_size L <= sizeof_TradeBlock L;
  lo_nick_pos : 0 <= off_nickname L;
  lo_nick_end : off_nickname L + 6 * sizeof_name L <= sizeof_TradeBlock L;
  lo_ot_pos : 0 <= off_ot_name L;
  lo_ot_end : off_ot_name L + 6 * sizeof_name L <= sizeof_TradeBlock L;
  lo_pm_party : apart (off_party_members L) 6 (off_party L) (party_size L);
  lo_pm_nick : apart (off_party_members L) 6 (off_nickname L) (6 * sizeof_name L);
  lo_pm_ot : apart (off_party_members L) 6 (off_ot_name L) (6 * sizeof_name L);
  lo_party_nick : apart (off_party L) (party_size L) (off_nickname L) (6 * sizeof_name L);
  lo_party_ot : apart (off_party L) (party_size L) (off_ot_name L) (6 * sizeof_name L);
  lo_nick_ot : apart (off_nickname L) (6 * sizeof_name L) (off_ot_name L) (6 * sizeof_name L);
  lo_int : sizeof_TradeBlock L < INT_MAX
}.

(** An instance to evaluate the handlers on: the 415-byte block the
    comments of trade.c arrive at, the player name followed by the party
    structure of Generation I (an 11-byte name, the party count, seven
    species bytes, six 44-byte creature records, that is the 0x108 bytes
    the patch list ranges over, and twice six 11-byte names). *)
Definition gen1_layout : layout := {|
  sizeof_TradeBlock := 415;
  off_party_members := 12;
  off_party := 19;
  off_ot_name := 283;
  off_nickname := 349;
  sizeof_pokemon_structure := 44;
  sizeof_name := 11
|}.

(** ** Memory *)

Definition blen (m : list Z) : Z := Z.of_nat (length m).

(** [m[i]] *)
Definition load (m : list Z) (i : Z) : option Z :=
  if (0 <=? i) && (i <? blen m) then m !! Z.to_nat i else None.

(** [m[i] = v] *)
Definition store (m : list Z) (i v : Z) : option (list Z) :=
  if (0 <=? i) && (i <? blen m) then Some (<[Z.to_nat i := v]> m) else None.

(** The [n] bytes of [m] from offset [i]. *)
Definition slice (m : list Z) (i n : Z) : list Z :=
  take (Z.to_nat n) (drop (Z.to_nat i) m).

(** [memcpy(dst + d, src + s, n)], the two blocks being distinct objects. *)
Definition memcpy (dst : list Z) (d : Z) (src : list Z) (s n : Z) : option (list Z) :=
  if (0 <=? d) && (0 <=? s) && (0 <=? n) && (d + n <=? blen dst) && (s + n <=? blen src)
  then Some (take (Z.to_nat d) dst ++ slice src s n ++ drop (Z.to_nat (d + n)) dst)
  else None.

(** [counter++] on an [int]. *)
Definition incr_int (c : Z) : option Z :=
  if c <? INT_MAX then Some (c + 1) else None.

(** ** The state

    One record holds what the handlers read and write: the fields of
    [struct trade_ctx], the fields of [struct trade_model] (the view model),
    the function-local statics of [getTradeCentreResponse] and of
    [input_clk_gameboy], and the number of patch-list rebuilds queued with
    [furi_timer_pending_callback]. *)

Record machine (PL : Type) : Type := Machine {
  (* struct trade_ctx *)
  trade_centre_state : trade_centre_state_t;
  in_data : Z;
  out_data : Z;
  shift : Z;
  trade_block : list Z;
  input_block : list Z;
  patch_list : PL;
  (* struct trade_model *)
  gameboy_status : render_gameboy_state_t;
  ledon : bool;
  curr_pokemon : Z;
  (* statics of getTradeCentreResponse *)
  patch_pt_2 : bool;
  counter : Z;
  in_pokemon_num : Z;
  (* static of input_clk_gameboy *)
  time : Z;
  (* queued pokemon_plist_recreate_callback calls *)
  plist_pending : nat
}.

Arguments Machine {PL}.
Arguments trade_centre_state {PL}.
Arguments in_data {PL}.
Arguments out_data {PL}.
Arguments shift {PL}.
Arguments trade_block {PL}.
Arguments input_block {PL}.
Arguments patch_list {PL}.
Arguments gameboy_status {PL}.
Arguments ledon {PL}.
Arguments curr_pokemon {PL}.
Arguments patch_pt_2 {PL}.
Arguments counter {PL}.
Arguments in_pokemon_num {PL}.
Arguments time {PL}.
Arguments plist_pending {PL}.

Section Setters.
Context {PL : Type}.
Implicit Type t : machine PL.

Definition set_state (v : trade_centre_state_t) t : machine PL :=
  Machine v (in_data t) (out_data t) (shift t) (trade_block t) (input_block t)
    (patch_list t) (gameboy_status t) (ledon t) (curr_pokemon t) (patch_pt_2 t)
    (counter t) (in_pokemon_num t) (time t) (plist_pending t).

Definition set_in_data (v : Z) t : machine PL :=
  Machine (trade_centre_state t) v (out_data t) (shift t) (trade_block t) (input_block t)
    (patch_list t) (gameboy_status t) (ledon t) (curr_pokemon t) (patch_pt_2 t)
    (counter t) (in_pokemon_num t) (time t) (plist_pending t).

Definition set_out_data (v : Z) t : machine PL :=
  Machine (trade_centre_state t) (in_data t) v (shift t) (trade_block t) (input_block t)
    (patch_list t) (gameboy_status t) (ledon t) (curr_pokemon t) (patch_pt_2 t)
    (counter t) (in_pokemon_num t) (time t) (plist_pending t).

Definition set_shift (v : Z) t : machine PL :=
  Machine (trade_centre_state t) (in_data t) (out_data t) v (trade_block t) (input_block t)
    (patch_list t) (gameboy_status t) (ledon t) (curr_pokemon t) (patch_pt_2 t)
    (counter t) (in_pokemon_num t) (time t) (plist_pending t).

Definition set_trade_block (v : list Z) t : machine PL :=
  Machine (trade_centre_state t) (in_data t) (out_data t) (shift t) v (input_block t)
    (patch_list t) (gameboy_status t) (ledon t) (curr_pokemon t) (patch_pt_2 t)
    (counter t) (in_pokemon_num t) (time t) (plist_pending t).

Definition set_input_block (v : list Z) t : machine PL :=
  Machine (trade_centre_state t) (in_data t) (out_data t) (shift t) (trade_block t) v
    (patch_list t) (gameboy_status t) (ledon t) (curr_pokemon t) (patch_pt_2 t)
    (counter t) (in_pokemon_num t) (time t) (plist_pending t).

Definition set_patch_list (v : PL) t : machine PL :=
  Machine (trade_centre_state t) (in_data t) (out_data t) (shift t) (trade_block t)
    (input_block t) v (gameboy_status t) (ledon t) (curr_pokemon t) (patch_pt_2 t)
    (counter t) (in_pokemon_num t) (time t) (plist_pending t).

Definition set_status (v : render_gameboy_state_t) t : machine PL :=
  Machine (trade_centre_state t) (in_data t) (out_data t) (shift t) (trade_block t)
    (input_block t) (patch_list t) v (ledon t) (curr_pokemon t) (patch_pt_2 t)
    (counter t) (in_pokemon_num t) (time t) (plist_pending t).

Definition set_ledon (v : bool) t : machine PL :=
  Machine (trade_centre_state t) (in_data t) (out_data t) (shift t) (trade_block t)
    (input_block t) (patch_list t) (gameboy_status t) v (curr_pokemon t) (patch_pt_2 t)
    (counter t) (in_pokemon_num t) (time t) (plist_pending t).

Definition set_curr_pokemon (v : Z) t : machine PL :=
  Machine (trade_centre_state t) (in_data t) (out_data t) (shift t) (trade_block t)
    (input_block t) (patch_list t) (gameboy_status t) (ledon t) v (patch_pt_2 t)
    (counter t) (in_pokemon_num t) (time t) (plist_pending t).

Definition set_patch_pt_2 (v : bool) t : machine PL :=
  Machine (trade_centre_state t) (in_data t) (out_data t) (shift t) (trade_block t)
    (input_block t) (patch_list t) (gameboy_status t) (ledon t) (curr_pokemon t) v
    (counter t) (in_pokemon_num t) (time t) (plist_pending t).

Definition set_counter (v : Z) t : machine PL :=
  Machine (trade_centre_state t) (in_data t) (out_data t) (shift t) (trade_block t)
    (input_block t) (patch_list t) (gameboy_status t) (ledon t) (curr_pokemon t)
    (patch_pt_2 t) v (in_pokemon_num t) (time t) (plist_pending t).

Definition set_in_pokemon_num (v : Z) t : machine PL :=
  Machine (trade_centre_state t) (in_data t) (out_data t) (shift t) (trade_block t)
    (input_block t) (patch_list t) (gameboy_status t) (ledon t) (curr_pokemon t)
    (patch_pt_2 t) (counter t) v (time t) (plist_pending t).

Definition set_time (v : Z) t : machine PL :=
  Machine (trade_centre_state t) (in_data t) (out_data t) (shift t) (trade_block t)
    (input_block t) (patch_list t) (gameboy_status t) (ledon t) (curr_pokemon t)
    (patch_pt_2 t) (counter t) (in_pokemon_num t) v (plist_pending t).

Definition set_plist_pending (v : nat) t : machine PL :=
  Machine (trade_centre_state t) (in_data t) (out_data t) (shift t) (trade_block t)
    (input_block t) (patch_list t) (gameboy_status t) (ledon t) (curr_pokemon t)
    (patch_pt_2 t) (counter t) (in_pokemon_num t) (time t) v.
End Setters.

(** ** The handlers *)

Section Handlers.
Context {PL : Type}.
(** Collaborators declared in trade_patch_list.h and pokemon_app.h:
    the patch list codec and the species-to-table-index map. *)
Variable plist_index_get : PL -> Z -> Z.
Variable plist_create : list Z -> PL.
Variable pokemon_table_get_num_from_index : Z -> Z.
Variable L : layout.

Implicit Type trade : machine PL.

(** [pokemon_plist_recreate_callback]: one queued rebuild runs. *)
Definition pokemon_plist_recreate_callback trade : machine PL :=
  set_plist_pending (Nat.pred (plist_pending trade))
    (set_patch_list (plist_create (trade_block trade)) trade).

(** [getConnectResponse] *)
Definition getConnectResponse trade : machine PL * Z :=
  let i := in_data trade in
  if i =? PKMN_CONNECTED then (set_status GAMEBOY_CONN_TRUE trade, PKMN_CONNECTED)
  else if i =? PKMN_MASTER then (trade, PKMN_SLAVE)
  else if i =? PKMN_BLANK then (trade, PKMN_BLANK)
  else (set_status GAMEBOY_CONN_FALSE trade, PKMN_BREAK_LINK).

(** [getMenuResponse] *)
Definition getMenuResponse trade : machine PL * Z :=
  let response := PKMN_BLANK in
  let i := in_data trade in
  if i =? PKMN_CONNECTED then (trade, PKMN_CONNECTED)
  else if i =? PKMN_TRADE_CENTRE then (set_status GAMEBOY_READY trade, response)
  else if (i =? PKMN_COLOSSEUM) || (i =? PKMN_BREAK_LINK) || (i =? PKMN_MASTER)
  then (set_status GAMEBOY_CONN_FALSE trade, PKMN_BREAK_LINK)
  else (trade, i).

(** [case TRADE_PATCH_DATA] of [getTradeCentreResponse], also entered by
    falling through from [case TRADE_PATCH_HEADER]. *)
Definition case_TRADE_PATCH_DATA trade (send : Z) : option (machine PL * Z) :=
  let i := in_data trade in
  c ← incr_int (counter trade);
  let trade := set_counter c trade in
  let send := if 7 <? c then plist_index_get (patch_list trade) (c - 8) `mod` 256 else send in
  trade ←
    (if i =? PKMN_BLANK then Some trade
     else if i =? SERIAL_PATCH_LIST_PART_TERMINATOR then Some (set_patch_pt_2 true trade)
     else if negb (patch_pt_2 trade) then
       (* input_party_flat[in - 1] = SERIAL_NO_DATA_BYTE *)
       ib ← store (input_block trade) (off_party L + (i - 1)) SERIAL_NO_DATA_BYTE;
       Some (set_input_block ib trade)
     else
       (* input_party_flat[0xFB + in] = SERIAL_NO_DATA_BYTE *)
       ib ← store (input_block trade) (off_party L + (0xFB + i)) SERIAL_NO_DATA_BYTE;
       Some (set_input_block ib trade));
  let trade := if c =? 196 then set_state TRADE_SELECT trade else trade in
  Some (trade, send).

(** [case TRADE_PENDING], also entered by falling through from
    [case TRADE_SELECT]. *)
Definition case_TRADE_PENDING trade (send : Z) : machine PL * Z :=
  let i := in_data trade in
  if i =? PKMN_TABLE_LEAVE then
    (set_status GAMEBOY_READY (set_state TRADE_RESET trade), PKMN_TABLE_LEAVE)
  else if Z.land i PKMN_SEL_NUM_MASK =? PKMN_SEL_NUM_MASK then
    (set_status GAMEBOY_TRADE_PENDING (set_in_pokemon_num i trade), PKMN_SEL_NUM_ONE)
  else if i =? PKMN_BLANK then
    if negb (in_pokemon_num trade =? 0) then
      (set_in_pokemon_num (Z.land (in_pokemon_num trade) 0x0F)
         (set_state TRADE_CONFIRMATION trade), 0)
    else (trade, send)
  else (trade, send).

(** [case TRADE_DONE] on a blank byte: the copy of the traded-in slot. *)
Definition trade_done_copy trade : option (machine PL) :=
  let trade := set_status GAMEBOY_TRADING (set_state TRADE_RESET trade) in
  let n := in_pokemon_num trade in
  let ib := input_block trade in
  (* trade_block->party_members[0] = input_block->party_members[n] *)
  sp ← load ib (off_party_members L + n);
  tb ← store (trade_block trade) (off_party_members L) sp;
  tb ← memcpy tb (off_party L)
         ib (off_party L + n * sizeof_pokemon_structure L) (sizeof_pokemon_structure L);
  tb ← memcpy tb (off_nickname L)
         ib (off_nickname L + n * sizeof_name L) (sizeof_name L);
  tb ← memcpy tb (off_ot_name L)
         ib (off_ot_name L + n * sizeof_name L) (sizeof_name L);
  let trade := set_trade_block tb trade in
  sp0 ← load tb (off_party_members L);
  let trade := set_curr_pokemon (pokemon_table_get_num_from_index sp0 `mod` 256) trade in
  Some (set_plist_pending (S (plist_pending trade)) trade).

(** [getTradeCentreResponse] *)
Definition getTradeCentreResponse trade : option (machine PL * Z) :=
  let i := in_data trade in
  let send := i in
  match trade_centre_state trade with
  | TRADE_RESET =>
      Some (set_state TRADE_INIT (set_patch_pt_2 false (set_counter 0 trade)), send)
  | TRADE_INIT =>
      r ← (if i =? SERIAL_PREAMBLE_BYTE then
             c ← incr_int (counter trade);
             Some (set_status GAMEBOY_WAITING (set_counter c trade), send)
           else if Z.land i PKMN_SEL_NUM_MASK =? PKMN_SEL_NUM_MASK then
             Some (trade, PKMN_TABLE_LEAVE)
           else Some (trade, send));
      let '(trade, send) := r in
      if counter trade =? SERIAL_RNS_LENGTH then
        Some (set_counter 0 (set_state TRADE_RANDOM trade), send)
      else Some (trade, send)
  | TRADE_RANDOM =>
      c ← incr_int (counter trade);
      if c =? SERIAL_RNS_LENGTH + SERIAL_TRADE_PREAMBLE_LENGTH then
        Some (set_counter 0 (set_state TRADE_DATA trade), send)
      else Some (set_counter c trade, send)
  | TRADE_DATA =>
      (* input_block_flat[counter] = in; send = trade_block_flat[counter] *)
      ib ← store (input_block trade) (counter trade) i;
      send ← load (trade_block trade) (counter trade);
      c ← incr_int (counter trade);
      let trade := set_input_block ib trade in
      (* the store succeeded, so 0 < c and its conversion to size_t is c *)
      if c =? sizeof_TradeBlock L then
        Some (set_counter 0 (set_state TRADE_PATCH_HEADER trade), send)
      else Some (set_counter c trade, send)
  | TRADE_PATCH_HEADER =>
      c ← (if i =? SERIAL_PREAMBLE_BYTE then incr_int (counter trade)
           else Some (counter trade));
      if c =? 6 then
        case_TRADE_PATCH_DATA (set_state TRADE_PATCH_DATA (set_counter 0 trade)) send
      else Some (set_counter c trade, send)
  | TRADE_PATCH_DATA => case_TRADE_PATCH_DATA trade send
  | TRADE_SELECT =>
      let trade := set_in_pokemon_num 0 trade in
      if i =? PKMN_BLANK then
        Some (case_TRADE_PENDING (set_state TRADE_PENDING trade) send)
      else Some (trade, send)
  | TRADE_PENDING => Some (case_TRADE_PENDING trade send)
  | TRADE_CONFIRMATION =>
      if i =? PKMN_TRADE_REJECT then
        Some (set_status GAMEBOY_WAITING (set_state TRADE_SELECT trade), send)
      else if i =? PKMN_TRADE_ACCEPT then
        Some (set_state TRADE_DONE trade, send)
      else Some (trade, send)
  | TRADE_DONE =>
      if i =? PKMN_BLANK then
        trade ← trade_done_copy trade; Some (trade, send)
      else Some (trade, send)
  end.

(** The [switch(status)] of [transferBit]: the handler the completed
    byte goes to. *)
Definition byte_response trade : option (machine PL * Z) :=
  match gameboy_status trade with
  | GAMEBOY_CONN_FALSE => Some (getConnectResponse trade)
  | GAMEBOY_CONN_TRUE => Some (getMenuResponse trade)
  | _ => getTradeCentreResponse trade
  end.

(** [transferBit]; [si] is the level read on the serial-in pin. *)
Definition transferBit trade (si : bool) : option (machine PL) :=
  let trade := set_in_data (Z.shiftl (in_data trade) 1 `mod` 256) trade in
  let trade := set_in_data (Z.lor (in_data trade) (Z.b2z si)) trade in
  let trade := set_shift ((shift trade + 1) `mod` 256) trade in
  if 7 <? shift trade then
    let trade := set_shift 0 trade in
    r ← byte_response trade;
    let '(trade, out) := r in
    Some (set_in_data 0 (set_out_data out trade))
  else Some trade.

(** [input_clk_gameboy]; [clk] and [si] are the levels read on the clock
    and serial-in pins, [cyccnt] the value of [DWT->CYCCNT] and [ipus] the
    value of [furi_hal_cortex_instructions_per_microsecond()].  The result
    carries the level written to the serial-out pin, if any. *)
Definition input_clk_gameboy trade (clk si : bool) (cyccnt ipus : Z)
  : option (machine PL * option bool) :=
  let time_ticks := (ipus * 500) `mod` UINT32_MOD in
  if clk then
    let trade :=
      if time_ticks <? (cyccnt - time trade) `mod` UINT32_MOD
      then set_shift 0 (set_in_data 0 trade)
      else trade in
    trade ← transferBit trade si;
    Some (set_time cyccnt trade, None)
  else
    let so := negb (Z.land (out_data trade) 0x80 =? 0) in
    Some (set_out_data (Z.shiftl (out_data trade) 1 `mod` 256) trade, Some so).

(** [trade_draw_timer_callback] *)
Definition trade_draw_timer_callback trade : machine PL :=
  set_ledon (negb (ledon trade)) trade.

(** [trade_enter_callback], as far as the state above goes. *)
Definition trade_enter_callback trade : option (machine PL) :=
  let trade :=
    if status_rank GAMEBOY_READY <? status_rank (gameboy_status trade)
    then set_status GAMEBOY_READY trade else trade in
  let trade := set_state TRADE_RESET trade in
  sp ← load (trade_block trade) (off_party_members L);
  let trade := set_curr_pokemon (pokemon_table_get_num_from_index sp `mod` 256) trade in
  let trade := set_ledon false trade in
  let trade := set_shift 0 (set_out_data 0 (set_in_data 0 trade)) in
  Some (set_patch_list (plist_create (trade_block trade)) trade).

(** ** Byte streams *)

(** One byte handed to [getTradeCentreResponse]. *)
Definition tc_feed trade (b : Z) : option (machine PL * Z) :=
  getTradeCentreResponse (set_in_data b trade).

(** A run of bytes; the responses are collected in order. *)
Fixpoint tc_run trade (bs : list Z) : option (machine PL * list Z) :=
  match bs with
  | [] => Some (trade, [])
  | b :: bs =>
      r ← tc_feed trade b;
      r' ← tc_run r.1 bs;
      Some (r'.1, r.2 :: r'.2)
  end.

(** A run of rising clock edges, none after an idle gap: one bit each. *)
Fixpoint rising_edges trade (bits : list bool) : option (machine PL) :=
  match bits with
  | [] => Some trade
  | si :: bits =>
      trade ← transferBit trade si;
      rising_edges trade bits
  end.

End Handlers.

(** ** Vocabulary of the properties *)

Definition is_byte (b : Z) : Prop := 0 <= b < 256.

#[global] Instance is_byte_dec b : Decision (is_byte b).
Proof. unfold is_byte. apply _. Defined.

(** The six creature records of a block, as [input_party_flat] sees them. *)
Definition party_region (L : layout) (m : list Z) : list Z :=
  slice m (off_party L) (party_size L).

(** The four parts of slot [k] of a block. *)
Definition slot_species (L : layout) (m : list Z) (k : Z) : option Z :=
  load m (off_party_members L + k).
Definition slot_record (L : layout) (m : list Z) (k : Z) : list Z :=
  slice m (off_party L + k * sizeof_pokemon_structure L) (sizeof_pokemon_structure L).
Definition slot_nickname (L : layout) (m : list Z) (k : Z) : list Z :=
  slice m (off_nickname L + k * sizeof_name L) (sizeof_name L).
Definition slot_ot_name (L : layout) (m : list Z) (k : Z) : list Z :=
  slice m (off_ot_name L + k * sizeof_name L) (sizeof_name L).

(** Offset [i] of a block lies in one of the four parts of slot 0. *)
Definition in_slot0 (L : layout) (i : Z) : Prop :=
  i = off_party_members L
  \/ off_party L <= i < off_party L + sizeof_pokemon_structure L
  \/ off_nickname L <= i < off_nickname L + sizeof_name L
  \/ off_ot_name L <= i < off_ot_name L + sizeof_name L.

(** The local block [tb'] after the copy of slot [k] of the scratch block
    [ib] into slot 0 of [tb], byte by byte: a byte of slot 0 comes from the
    same place of slot [k], any other byte is the one of [tb]. *)
Definition copied_block (L : layout) (tb ib : list Z) (k : Z) (tb' : list Z) : Prop :=
  blen tb' = blen tb
  /\ forall i : Z, 0 <= i ->
       load tb' i =
         if decide (i = off_party_members L) then load ib (i + k)
         else if decide (off_party L <= i < off_party L + sizeof_pokemon_structure L)
         then load ib (i + k * sizeof_pokemon_structure L)
         else if decide (off_nickname L <= i < off_nickname L + sizeof_name L)
         then load ib (i + k * sizeof_name L)
         else if decide (off_ot_name L <= i < off_ot_name L + sizeof_name L)
         then load ib (i + k * sizeof_name L)
         else load tb i.

(** [after] is [before] with the byte at position [p] overwritten with the
    no-data filler, and with no other byte changed. *)
Definition patched_at (before after : list Z) (p : Z) : Prop :=
  0 <= p < blen before
  /\ after !! Z.to_nat p = Some SERIAL_NO_DATA_BYTE
  /\ forall j : nat, j <> Z.to_nat p -> after !! j = before !! j.

(** The phase moves forward through the enumeration or goes back to its
    first value. *)
Definition forward_or_reset (p p' : trade_centre_state_t) : Prop :=
  phase_rank p <= phase_rank p' \/ p' = TRADE_RESET.

(** The shape of the transitions the handler makes: stay, go to the next
    phase, go back to [TRADE_RESET] from pending or from done, or go from
    confirmation back to selection. *)
Definition phase_shape (p p' : trade_centre_state_t) : Prop :=
  p' = p
  \/ phase_rank p' = phase_rank p + 1
  \/ (p' = TRADE_RESET /\ (p = TRADE_PENDING \/ p = TRADE_DONE))
  \/ (p = TRADE_CONFIRMATION /\ p' = TRADE_SELECT).

(** The transitions the handler makes on the byte [b]: stay, go to the
    next phase, leave the table (from pending, on the leave-table byte),
    finish (from done, on a blank), both back to [TRADE_RESET], or be
    rejected (from confirmation back to selection, on the reject byte). *)
Definition phase_transition (p : trade_centre_state_t) (b : Z)
    (p' : trade_centre_state_t) : Prop :=
  p' = p
  \/ phase_rank p' = phase_rank p + 1
  \/ (p = TRADE_PENDING /\ b = PKMN_TABLE_LEAVE /\ p' = TRADE_RESET)
  \/ (p = TRADE_DONE /\ b = PKMN_BLANK /\ p' = TRADE_RESET)
  \/ (p = TRADE_CONFIRMATION /\ b = PKMN_TRADE_REJECT /\ p' = TRADE_SELECT).

Section Reachability.
Context {PL : Type}.
Variable plist_index_get : PL -> Z -> Z.
Variable pokemon_table_get_num_from_index : Z -> Z.
Variable L : layout.

(** The states of a session: it starts in [TRADE_RESET] (as
    [trade_enter_callback] leaves it) and goes on byte by byte. *)
Inductive reachable : machine PL -> Prop :=
  | reachable_enter trade :
      trade_centre_state trade = TRADE_RESET ->
      blen (trade_block trade) = sizeof_TradeBlock L ->
      blen (input_block trade) = sizeof_TradeBlock L ->
      reachable trade
  | reachable_feed trade b trade' out :
      reachable trade ->
      is_byte b ->
      tc_feed plist_index_get pokemon_table_get_num_from_index L trade b
        = Some (trade', out) ->
      reachable trade'.
End Reachability.

(** ** A concrete session

    An instance of the collaborators and a freshly entered machine over the
    Generation I layout, to evaluate the handlers on. *)

Definition ex_plist_index_get (pl : list Z) (i : Z) : Z := default 0 (pl !! Z.to_nat i).
Definition ex_table_get_num (species : Z) : Z := species.

(** A block whose byte at offset [i] is [(base + i) mod 256]. *)
Definition ex_block (base : Z) : list Z :=
  (fun i : nat => (base + Z.of_nat i) `mod` 256) <$> seq 0 415.

Definition ex_machine (p : trade_centre_state_t) (g : render_gameboy_state_t)
    (c : Z) (pt2 : bool) : machine (list Z) :=
  {| trade_centre_state := p; in_data := 0; out_data := 0; shift := 0;
     trade_block := ex_block 0; input_block := ex_block 100;
     patch_list := replicate 200 0;
     gameboy_status := g; ledon := false; curr_pokemon := 0;
     patch_pt_2 := pt2; counter := c; in_pokemon_num := 0;
     time := 0; plist_pending := 0 |}.

Definition ex_feed := tc_feed ex_plist_index_get ex_table_get_num gen1_layout.
Definition ex_run := tc_run ex_plist_index_get ex_table_get_num gen1_layout.

(** The machine three bits into a byte, with a byte half sent. *)
Definition ex_midbyte : machine (list Z) :=
  set_time 1000 (set_shift 3 (set_in_data 5 (set_out_data 0x80
    (ex_machine TRADE_INIT GAMEBOY_WAITING 0 false)))).

(** The bytes of a well-behaved peer from the trade table up to its
    selection of slot 0: a blank, ten preamble bytes, nineteen seed and
    preamble bytes, the 415 bytes of its block, six preamble bytes, an empty
    patch list, a blank, the selection and a blank. *)
Definition ex_session : list Z :=
  [0] ++ replicate 10 SERIAL_PREAMBLE_BYTE ++ replicate 19 0
      ++ ex_block 7 ++ replicate 6 SERIAL_PREAMBLE_BYTE ++ replicate 195 0
      ++ [0; 0x60; 0].

(** The byte whose bits, most significant first, are [bits]. *)
Definition byte_of_bits (bits : list bool) : Z :=
  foldl (fun acc (b : bool) => 2 * acc + Z.b2z b) 0 bits.

(** The number of preamble bytes in a run of bytes. *)
Definition preamble_count (bs : list Z) : Z :=
  Z.of_nat (count_occ Z.eq_dec bs SERIAL_PREAMBLE_BYTE).

(** What the counter holds after a step that changed the phase from [p]
    to [p'], [c] being its value before the step. *)
Definition counter_on_entry (p p' : trade_centre_state_t) (c c' : Z) : Prop :=
  match p' with
  | TRADE_INIT | TRADE_RANDOM | TRADE_DATA | TRADE_PATCH_HEADER => c' = 0
  | TRADE_PATCH_DATA => c' = 1
  | TRADE_SELECT => match p with TRADE_PATCH_DATA => c' = 196 | _ => c' = c end
  | TRADE_RESET | TRADE_PENDING | TRADE_CONFIRMATION | TRADE_DONE => c' = c
  end.

(** ** Completed bytes and clock periods

    The path of a byte through [transferBit] and [input_clk_gameboy], for
    the properties of whole exchanges. *)

Section Exchanges.
Context {PL : Type}.
Variable plist_index_get : PL -> Z -> Z.
Variable pokemon_table_get_num_from_index : Z -> Z.
Variable L : layout.

Implicit Type trade : machine PL.

(** What [transferBit] does with a completed byte [b]: the handler the
    status selects answers it, the answer becomes the output accumulator and
    the input accumulator is cleared. *)
Definition recv_byte trade (b : Z) : option (machine PL * Z) :=
  r ← byte_response plist_index_get pokemon_table_get_num_from_index L (set_in_data b trade);
  Some (set_in_data 0 (set_out_data r.2 r.1), r.2).

(** A run of completed bytes; the answers are collected in order. *)
Fixpoint recv_run trade (bs : list Z) : option (machine PL * list Z) :=
  match bs with
  | [] => Some (trade, [])
  | b :: bs =>
      r ← recv_byte trade b;
      r' ← recv_run r.1 bs;
      Some (r'.1, r.2 :: r'.2)
  end.

(** One clock period as [input_clk_gameboy] sees it: the falling edge, then
    the rising edge, on which the cycle counter reads [cyccnt] and the
    serial-in pin [si].  The level the falling edge put on the serial-out
    pin is returned. *)
Definition clock_bit trade (si : bool) (cyccnt ipus : Z)
  : option (machine PL * option bool) :=
  r ← input_clk_gameboy plist_index_get pokemon_table_get_num_from_index L
        trade false si cyccnt ipus;
  r' ← input_clk_gameboy plist_index_get pokemon_table_get_num_from_index L
         r.1 true si cyccnt ipus;
  Some (r'.1, r.2).

(** A run of clock periods, each given by its serial-in level and the
    cycle count at its rising edge. *)
Fixpoint clock_bits trade (edges : list (bool * Z)) (ipus : Z)
  : option (machine PL * list (option bool)) :=
  match edges with
  | [] => Some (trade, [])
  | e :: edges =>
      r ← clock_bit trade e.1 e.2 ipus;
      r' ← clock_bits r.1 edges ipus;
      Some (r'.1, r.2 :: r'.2)
  end.
End Exchanges.

(** Each rising edge at the cycle counts [ts] comes within [ticks] cycles
    of the one before, the first within [ticks] of [t0]; the differences are
    those of the 32-bit counter. *)
Fixpoint steady (ticks t0 : Z) (ts : list Z) : Prop :=
  match ts with
  | [] => True
  | t :: ts => (t - t0) `mod` UINT32_MOD <= ticks /\ steady ticks t ts
  end.

(** A rising edge that is not taken for a desync: within the threshold, or
    at a byte boundary, where the reset changes nothing. *)
Definition in_step {PL} (trade : machine PL) (cyccnt ipus : Z) : Prop :=
  (cyccnt - time trade) `mod` UINT32_MOD <= (ipus * 500) `mod` UINT32_MOD
  \/ (shift trade = 0 /\ in_data trade = 0).

(** The two states hold the same session: phase, statics, blocks, patch
    list and what the view shows besides the status. *)
Definition same_session {PL} (t t' : machine PL) : Prop :=
  trade_centre_state t' = trade_centre_state t
  /\ counter t' = counter t
  /\ patch_pt_2 t' = patch_pt_2 t
  /\ in_pokemon_num t' = in_pokemon_num t
  /\ trade_block t' = trade_block t
  /\ input_block t' = input_block t
  /\ patch_list t' = patch_list t
  /\ curr_pokemon t' = curr_pokemon t
  /\ plist_pending t' = plist_pending t.

(** The answer of [getConnectResponse] to a byte that is not the connected
    marker. *)
Definition connect_answer (b : Z) : Z :=
  if b =? PKMN_MASTER then PKMN_SLAVE
  else if b =? PKMN_BLANK then PKMN_BLANK
  else PKMN_BREAK_LINK.

(** The bytes the menu handler does not mirror. *)
Definition menu_special (b : Z) : Prop :=
  b = PKMN_TRADE_CENTRE \/ b = PKMN_COLOSSEUM \/ b = PKMN_BREAK_LINK \/ b = PKMN_MASTER.

(** What a session keeps true of the counter, the part-2 flag, the selected
    slot and the sizes of the two blocks, phase by phase. *)
Definition session_inv {PL} (L : layout) (trade : machine PL) : Prop :=
  blen (trade_block trade) = sizeof_TradeBlock L
  /\ blen (input_block trade) = sizeof_TradeBlock L
  /\ match trade_centre_state trade with
     | TRADE_RESET | TRADE_SELECT | TRADE_PENDING => True
     | TRADE_INIT => 0 <= counter trade < SERIAL_RNS_LENGTH /\ patch_pt_2 trade = false
     | TRADE_RANDOM =>
         0 <= counter trade < SERIAL_RNS_LENGTH + SERIAL_TRADE_PREAMBLE_LENGTH
         /\ patch_pt_2 trade = false
     | TRADE_DATA => 0 <= counter trade < sizeof_TradeBlock L /\ patch_pt_2 trade = false
     | TRADE_PATCH_HEADER => 0 <= counter trade < 6 /\ patch_pt_2 trade = false
     | TRADE_PATCH_DATA => 1 <= counter trade < 196
     | TRADE_CONFIRMATION | TRADE_DONE => 0 <= in_pokemon_num trade <= 15
     end.

(** The two things the handler leaves to the peer: a patch marker of the
    second part stays inside the party region, and the slot confirmed is one
    of the six. *)
Definition peer_in_bounds {PL} (trade : machine PL) (b : Z) : Prop :=
  match trade_centre_state trade with
  | TRADE_PATCH_DATA =>
      patch_pt_2 trade = true ->
      b = PKMN_BLANK \/ b = SERIAL_PATCH_LIST_PART_TERMINATOR \/ 0xFB + b < 0x108
  | TRADE_DONE => b = PKMN_BLANK -> in_pokemon_num trade <= 5
  | _ => True
  end.

(** One of the three arrays of six ends the block, as the nicknames do in
    the Generation I block. *)
Definition closes_block (L : layout) : Prop :=
  off_party L + party_size L = sizeof_TradeBlock L
  \/ off_nickname L + 6 * sizeof_name L = sizeof_TradeBlock L
  \/ off_ot_name L + 6 * sizeof_name L = sizeof_TradeBlock L.

(** A selection byte: bits 5 and 6 set, and not the leave-table byte. *)
Definition is_selection (b : Z) : Prop :=
  Z.land b PKMN_SEL_NUM_MASK = PKMN_SEL_NUM_MASK /\ b <> PKMN_TABLE_LEAVE.

(** The bytes a phase of the end of the session neither acts on nor
    counts. *)
Definition ignored_in (p : trade_centre_state_t) (b : Z) : Prop :=
  match p with
  | TRADE_PENDING =>
      b <> PKMN_TABLE_LEAVE /\ Z.land b PKMN_SEL_NUM_MASK <> PKMN_SEL_NUM_MASK
      /\ b <> PKMN_BLANK
  | TRADE_CONFIRMATION => b <> PKMN_TRADE_REJECT /\ b <> PKMN_TRADE_ACCEPT
  | TRADE_DONE => b <> PKMN_BLANK
  | _ => False
  end.

(** The answer of the init phase to a byte that is not a preamble byte. *)
Definition init_answer (b : Z) : Z :=
  if Z.land b PKMN_SEL_NUM_MASK =? PKMN_SEL_NUM_MASK then PKMN_TABLE_LEAVE else b.

(** The answer of the patch-data phase to the byte [b] that brings the
    counter to [c]: the byte itself for the first seven, then the patch
    list from its first index. *)
Definition patch_answer {PL} (plist_index_get : PL -> Z -> Z) (pl : PL) (c b : Z) : Z :=
  if 7 <? c then plist_index_get pl (c - 8) `mod` 256 else b.

(** A patch list the handler can take: bytes, and, once the part-2 flag is
    set, only markers that stay inside the party region. *)
Fixpoint patch_stream_ok (pt2 : bool) (bs : list Z) : Prop :=
  match bs with
  | [] => True
  | b :: bs =>
      is_byte b
      /\ (pt2 = true ->
          b = PKMN_BLANK \/ b = SERIAL_PATCH_LIST_PART_TERMINATOR \/ 0xFB + b < 0x108)
      /\ patch_stream_ok (pt2 || (b =? SERIAL_PATCH_LIST_PART_TERMINATOR)) bs
  end.

(** [t'] holds the blocks, the part-2 flag and the patch list of [t]. *)
Definition same_blocks {PL} (t t' : machine PL) : Prop :=
  trade_block t' = trade_block t
  /\ input_block t' = input_block t
  /\ patch_pt_2 t' = patch_pt_2 t
  /\ patch_list t' = patch_list t.

(** ** The display

    [trade_draw_callback] and the functions it calls only make calls to the
    canvas and to the notification lights; a frame is the list of those
    calls, in order.  The species table ([PokemonTable], pokemon_app.h) is
    not part of the sources at hand: the icon of an entry is a parameter,
    a function from the index to an icon, of which nothing is assumed. *)

Inductive Light : Set := LightRed | LightGreen | LightBlue.

Inductive Icon : Set :=
  | I_Connect_me_62x31
  | I_Connected_62x31
  | I_Background_128x11
  | I_game_boy
  | I_Space_65x18
  | I_Space_80x18
  | I_red_16x15
  | I_gb_step_1
  | I_gb_step_2
  | I_species (n : Z).   (* the icons the species table points to *)

Inductive draw_call : Set :=
  | canvas_clear
  | canvas_draw_frame (x y w h : Z)
  | canvas_draw_icon (x y : Z) (icon : Icon)
  | canvas_draw_str (x y : Z) (str : String.string)
  | furi_hal_light_set (light : Light) (value : Z).

(** [screen_gameboy_connect] *)
Definition screen_gameboy_connect : list draw_call :=
  [ canvas_draw_frame 0 0 128 64;
    canvas_draw_icon 1 21 I_Connect_me_62x31;
    canvas_draw_icon 0 53 I_Background_128x11;
    canvas_draw_icon 80 0 I_game_boy;
    canvas_draw_icon 8 2 I_Space_65x18;
    canvas_draw_str 18 13 "Connect GB"%string ].

(** [screen_gameboy_connected] *)
Definition screen_gameboy_connected : list draw_call :=
  [ canvas_draw_frame 0 0 128 64;
    canvas_draw_icon 1 21 I_Connected_62x31;
    canvas_draw_icon 0 53 I_Background_128x11;
    canvas_draw_icon 80 0 I_game_boy;
    canvas_draw_icon 8 2 I_Space_65x18;
    canvas_draw_str 18 13 "Connected!"%string ].

(** [trade_draw_frame] *)
Definition trade_draw_frame (str : String.string) : list draw_call :=
  [ canvas_draw_icon 0 53 I_Background_128x11;
    canvas_draw_frame 0 0 128 64;
    canvas_draw_icon 24 0 I_Space_80x18;
    canvas_draw_str 48 12 str;
    canvas_draw_icon 27 1 I_red_16x15 ].

(** [trade_draw_pkmn_avatar] *)
Definition trade_draw_pkmn_avatar (icon : Icon) : list draw_call :=
  [ canvas_draw_icon 38 11 icon;
    furi_hal_light_set LightBlue 0x00;
    furi_hal_light_set LightGreen 0x00 ].

(** [trade_draw_callback]; the view model is the part of the machine it
    reads, [pokemon_table_icon n] stands for [model->pokemon_table[n].icon].
    The [default] branch of its switch is not among the six enumerators. *)
Definition trade_draw_callback {PL} (pokemon_table_icon : Z -> Icon)
    (model : machine PL) : list draw_call :=
  let curr_pokemon := curr_pokemon model in
  canvas_clear ::
  match gameboy_status model with
  | GAMEBOY_CONN_FALSE =>
      [furi_hal_light_set LightGreen 0x00; furi_hal_light_set LightRed 0xff]
        ++ screen_gameboy_connect
  | GAMEBOY_CONN_TRUE =>
      [furi_hal_light_set LightGreen 0xff; furi_hal_light_set LightRed 0x00]
        ++ screen_gameboy_connected
  | GAMEBOY_READY =>
      trade_draw_pkmn_avatar (pokemon_table_icon curr_pokemon)
        ++ trade_draw_frame "READY"%string
  | GAMEBOY_WAITING =>
      trade_draw_pkmn_avatar (pokemon_table_icon curr_pokemon)
        ++ trade_draw_frame "WAITING"%string
  | GAMEBOY_TRADE_PENDING =>
      trade_draw_pkmn_avatar (pokemon_table_icon curr_pokemon)
        ++ trade_draw_frame "DEAL?"%string
  | GAMEBOY_TRADING =>
      furi_hal_light_set LightGreen 0x00 ::
      (if ledon model
       then [furi_hal_light_set LightBlue 0xff; canvas_draw_icon 0 0 I_gb_step_1]
       else [furi_hal_light_set LightBlue 0x00; canvas_draw_icon 0 0 I_gb_step_2])
        ++ trade_draw_frame "TRADING"%string
  end.

(** The lights: the last value each was set to. *)
Record lights : Set := Lights { red : Z; green : Z; blue : Z }.

Definition light_step (l : lights) (c : draw_call) : lights :=
  match c with
  | furi_hal_light_set LightRed v => Lights v (green l) (blue l)
  | furi_hal_light_set LightGreen v => Lights (red l) v (blue l)
  | furi_hal_light_set LightBlue v => Lights (red l) (green l) v
  | _ => l
  end.

Definition lights_after (l : lights) (calls : list draw_call) : lights :=
  foldl light_step l calls.

(** What the canvas shows: the calls to the canvas of a frame. *)
Definition canvas_calls (calls : list draw_call) : list draw_call :=
  List.filter
    (fun c => match c with furi_hal_light_set _ _ => false | _ => true end) calls.


(** A stand-in for the patch list codec on the concrete session: the
    entry at an offset tells whether the block holds the no-data byte
    there. *)
Definition ex_plist_create (block : list Z) : list Z :=
  (fun b => if b =? SERIAL_NO_DATA_BYTE then 1 else 0) <$> block.

(** A stand-in for the icons of the species table, in which two
    neighbouring entries share an icon. *)
Definition ex_pokemon_table_icon (n : Z) : Icon := I_species (n / 2).

(** The bytes of a peer up to the middle of its patch list: as in
    [ex_session] up to the six preamble bytes, then a blank, the terminator
    of the first part and a marker of the second part. *)
Definition ex_patch_part2 : list Z :=
  [0] ++ replicate 10 SERIAL_PREAMBLE_BYTE ++ replicate 19 0
      ++ ex_block 7 ++ replicate 6 SERIAL_PREAMBLE_BYTE
      ++ [0; SERIAL_PATCH_LIST_PART_TERMINATOR; 3].

(** The bytes of a peer up to its acceptance of the trade of slot 4. *)
Definition ex_accepted : list Z :=
  [0] ++ replicate 10 SERIAL_PREAMBLE_BYTE ++ replicate 19 0
      ++ ex_block 7 ++ replicate 6 SERIAL_PREAMBLE_BYTE ++ replicate 195 0
      ++ [0; 0x64; 0; PKMN_TRADE_ACCEPT].

(** ** Memory lemmas *)

Section Memory.
Implicit Types (m dst src r : list Z) (i n d s v : Z) (j : nat).

Lemma load_lookup m i : 0 <= i -> load m i = m !! Z.to_nat i.
Proof.
  intros Hi. unfold load, blen.
  destruct (Z.leb_spec 0 i); [|lia].
  destruct (Z.ltb_spec i (Z.of_nat (length m))); simpl; [done|].
  symmetry. apply lookup_ge_None_2. lia.
Qed.

Lemma load_in_range m i : 0 <= i < blen m -> is_Some (load m i).
Proof.
  intros Hi. rewrite load_lookup by lia.
  apply lookup_lt_is_Some_2. unfold blen in Hi. lia.
Qed.

Lemma store_in_range m i v :
  0 <= i < blen m -> store m i v = Some (<[Z.to_nat i := v]> m).
Proof.
  intros Hi. unfold store.
  destruct (Z.leb_spec 0 i); [|lia].
  destruct (Z.ltb_spec i (blen m)); [done|lia].
Qed.

Lemma store_inv m i v r :
  store m i v = Some r -> 0 <= i < blen m /\ r = <[Z.to_nat i := v]> m.
Proof.
  unfold store.
  destruct (Z.leb_spec 0 i), (Z.ltb_spec i (blen m)); simpl; intros [= <-]; auto.
Qed.

Lemma store_out_of_range m i v : ~ (0 <= i < blen m) -> store m i v = None.
Proof.
  intros Hi. unfold store.
  destruct (Z.leb_spec 0 i), (Z.ltb_spec i (blen m)); simpl; auto. lia.
Qed.

Lemma blen_insert m j v : blen (<[j := v]> m) = blen m.
Proof. unfold blen. by rewrite length_insert. Qed.

Lemma memcpy_in_range dst d src s n :
  0 <= d -> 0 <= s -> 0 <= n -> d + n <= blen dst -> s + n <= blen src ->
  memcpy dst d src s n =
    Some (take (Z.to_nat d) dst ++ slice src s n ++ drop (Z.to_nat (d + n)) dst).
Proof.
  intros. unfold memcpy.
  destruct (Z.leb_spec 0 d), (Z.leb_spec 0 s), (Z.leb_spec 0 n),
    (Z.leb_spec (d + n) (blen dst)), (Z.leb_spec (s + n) (blen src)); simpl; auto; lia.
Qed.

Lemma slice_lookup m i n j :
  slice m i n !! j =
    if decide (j < Z.to_nat n)%nat then m !! (Z.to_nat i + j)%nat else None.
Proof. unfold slice. rewrite lookup_take. case_decide; [|done]. apply lookup_drop. Qed.

Lemma slice_length m i n :
  0 <= i -> 0 <= n -> i + n <= blen m -> length (slice m i n) = Z.to_nat n.
Proof.
  unfold slice, blen. intros. rewrite length_take, length_drop. lia.
Qed.

(** The bytes of the destination after a copy. *)
Lemma memcpy_lookup dst d src s n r j :
  memcpy dst d src s n = Some r ->
  r !! j =
    if decide (Z.to_nat d <= j < Z.to_nat (d + n))%nat
    then src !! (Z.to_nat s + (j - Z.to_nat d))%nat
    else dst !! j.
Proof.
  unfold memcpy.
  destruct (Z.leb_spec 0 d), (Z.leb_spec 0 s), (Z.leb_spec 0 n),
    (Z.leb_spec (d + n) (blen dst)), (Z.leb_spec (s + n) (blen src));
    simpl; try discriminate.
  intros [= <-]. unfold blen in *.
  assert (Hl : length (slice src s n) = Z.to_nat n) by (apply slice_length; unfold blen; lia).
  destruct (decide (j < Z.to_nat d)%nat) as [Hlt|Hge].
  - rewrite lookup_app_l by (rewrite length_take; lia).
    rewrite lookup_take_lt by lia. case_decide; [lia|done].
  - rewrite lookup_app_r by (rewrite length_take; lia).
    rewrite length_take, Nat.min_l by lia.
    destruct (decide (j < Z.to_nat (d + n))%nat) as [Hlt'|Hge'].
    + rewrite lookup_app_l by lia.
      rewrite slice_lookup. repeat case_decide; try lia. done.
    + rewrite lookup_app_r by lia. rewrite Hl, lookup_drop.
      case_decide; [lia|]. f_equal. lia.
Qed.

Lemma memcpy_length dst d src s n r :
  memcpy dst d src s n = Some r -> blen r = blen dst.
Proof.
  unfold memcpy.
  destruct (Z.leb_spec 0 d), (Z.leb_spec 0 s), (Z.leb_spec 0 n),
    (Z.leb_spec (d + n) (blen dst)), (Z.leb_spec (s + n) (blen src));
    simpl; try discriminate.
  intros [= <-]. unfold blen in *.
  rewrite !length_app, length_take, length_drop, slice_length by (unfold blen; lia).
  lia.
Qed.

Lemma incr_int_Some c : c < INT_MAX -> incr_int c = Some (c + 1).
Proof. intros. unfold incr_int. destruct (Z.ltb_spec c INT_MAX); [done|lia]. Qed.

Lemma incr_int_inv c c' : incr_int c = Some c' -> c' = c + 1.
Proof. unfold incr_int. destruct (c <? INT_MAX); congruence. Qed.
End Memory.

(** ** Properties *)

Ltac case_tests :=
  repeat match goal with
    | |- context [Z.eqb ?a ?b] => destruct (Z.eqb_spec a b)
    | |- context [Z.ltb ?a ?b] => destruct (Z.ltb_spec a b)
    | H : context [Z.eqb ?a ?b] |- _ => destruct (Z.eqb_spec a b)
    | H : context [Z.ltb ?a ?b] |- _ => destruct (Z.ltb_spec a b)
    end.

Ltac consts :=
  unfold SERIAL_RNS_LENGTH, SERIAL_TRADE_PREAMBLE_LENGTH, SERIAL_PREAMBLE_BYTE,
    SERIAL_PATCH_LIST_PART_TERMINATOR, SERIAL_NO_DATA_BYTE, INT_MAX, PKMN_BLANK,
    PKMN_TABLE_LEAVE, PKMN_SEL_NUM_MASK, PKMN_SEL_NUM_ONE, PKMN_TRADE_ACCEPT,
    PKMN_TRADE_REJECT in *.

Ltac bind_head :=
  match goal with
  | H : (?m ≫= _) = _ |- _ =>
      let E := fresh "E" in
      destruct m eqn:E; simpl in H; [|discriminate H]
  | H : (let '(_, _) := ?p in _) = _ |- _ => destruct p
  | H : Some _ = Some _ |- _ => injection H as H; subst
  | H : (_, _) = (_, _) |- _ => injection H as ??; subst
  | H : incr_int _ = Some _ |- _ => apply incr_int_inv in H; subst
  end.

Ltac step_inv := repeat first [ progress case_tests | bind_head ].

Ltac phase_done Hp :=
  solve [ simpl; rewrite ?Hp; simpl;
          (split; [auto 6 | intros ?; try done; try lia]) ].

Section Properties.
Context {PL : Type}.
Variable plist_index_get : PL -> Z -> Z.
Variable plist_create : list Z -> PL.
Variable pokemon_table_get_num_from_index : Z -> Z.
Variable L : layout.

Implicit Type trade : machine PL.

Local Abbreviation getTradeCentreResponse :=
  (getTradeCentreResponse plist_index_get pokemon_table_get_num_from_index L).
Local Abbreviation byte_response :=
  (byte_response plist_index_get pokemon_table_get_num_from_index L).
Local Abbreviation transferBit :=
  (transferBit plist_index_get pokemon_table_get_num_from_index L).
Local Abbreviation input_clk_gameboy :=
  (input_clk_gameboy plist_index_get pokemon_table_get_num_from_index L).
Local Abbreviation tc_feed := (tc_feed plist_index_get pokemon_table_get_num_from_index L).
Local Abbreviation tc_run := (tc_run plist_index_get pokemon_table_get_num_from_index L).
Local Abbreviation reachable := (reachable plist_index_get pokemon_table_get_num_from_index L).
Local Abbreviation trade_done_copy :=
  (trade_done_copy pokemon_table_get_num_from_index L).
Local Abbreviation rising_edges :=
  (rising_edges plist_index_get pokemon_table_get_num_from_index L).
Local Abbreviation trade_enter_callback :=
  (trade_enter_callback plist_create pokemon_table_get_num_from_index L).

(** *** Menu mirroring *)

(** C3: in the menu-mirroring state the byte 0xD4 (trade centre selected)
    sets the status to ready, but the byte returned is the blank 0x00 the
    response was initialised with, not the 0xD4 received. *)
Theorem getMenuResponse_trade_centre trade :
  getMenuResponse (set_in_data PKMN_TRADE_CENTRE trade)
    = (set_status GAMEBOY_READY (set_in_data PKMN_TRADE_CENTRE trade), PKMN_BLANK)
  /\ PKMN_BLANK <> PKMN_TRADE_CENTRE.
Proof. split; [reflexivity|discriminate]. Qed.

(** The same through the dispatch of [transferBit]. *)
Lemma byte_response_trade_centre trade :
  gameboy_status trade = GAMEBOY_CONN_TRUE ->
  byte_response (set_in_data 0xD4 trade)
    = Some (set_status GAMEBOY_READY (set_in_data 0xD4 trade), 0x00).
Proof. intros H. unfold byte_response. simpl. rewrite H. reflexivity. Qed.

(** The other menu bytes are mirrored. *)
Lemma getMenuResponse_mirror trade :
  in_data trade <> PKMN_TRADE_CENTRE -> in_data trade <> PKMN_COLOSSEUM ->
  in_data trade <> PKMN_BREAK_LINK -> in_data trade <> PKMN_MASTER ->
  getMenuResponse trade = (trade, in_data trade).
Proof.
  intros. unfold getMenuResponse. case_tests; simpl; congruence.
Qed.

(** *** Frame of the two pre-trade handlers *)

Lemma getConnectResponse_frame trade :
  (getConnectResponse trade).1
    = set_status (gameboy_status (getConnectResponse trade).1) trade.
Proof. unfold getConnectResponse. destruct trade. simpl. by case_tests. Qed.

Lemma getMenuResponse_frame trade :
  (getMenuResponse trade).1
    = set_status (gameboy_status (getMenuResponse trade).1) trade.
Proof.
  unfold getMenuResponse. destruct trade. simpl.
  repeat match goal with |- context [Z.eqb ?a ?b] => destruct (Z.eqb a b) end; done.
Qed.

(** C10: while the status is not-connected or connected, the handler of a
    byte changes nothing but the status and returns a byte: the phase, the
    counter, the part-2 flag, the selected slot, both blocks and the patch
    list are as before. *)
Theorem pre_trade_frame trade :
  gameboy_status trade = GAMEBOY_CONN_FALSE \/ gameboy_status trade = GAMEBOY_CONN_TRUE ->
  exists trade' out,
    byte_response trade = Some (trade', out)
    /\ trade' = set_status (gameboy_status trade') trade
    /\ trade_centre_state trade' = trade_centre_state trade
    /\ counter trade' = counter trade
    /\ patch_pt_2 trade' = patch_pt_2 trade
    /\ in_pokemon_num trade' = in_pokemon_num trade
    /\ trade_block trade' = trade_block trade
    /\ input_block trade' = input_block trade
    /\ patch_list trade' = patch_list trade.
Proof.
  intros Hst. unfold byte_response.
  assert (Hfr : forall t' : machine PL, t' = set_status (gameboy_status t') trade ->
    trade_centre_state t' = trade_centre_state trade
    /\ counter t' = counter trade /\ patch_pt_2 t' = patch_pt_2 trade
    /\ in_pokemon_num t' = in_pokemon_num trade
    /\ trade_block t' = trade_block trade /\ input_block t' = input_block trade
    /\ patch_list t' = patch_list trade).
  { intros t' ->. by repeat split. }
  destruct Hst as [-> | ->].
  - exists (getConnectResponse trade).1, (getConnectResponse trade).2.
    split; [by destruct (getConnectResponse trade)|].
    split; [apply getConnectResponse_frame|apply Hfr, getConnectResponse_frame].
  - exists (getMenuResponse trade).1, (getMenuResponse trade).2.
    split; [by destruct (getMenuResponse trade)|].
    split; [apply getMenuResponse_frame|apply Hfr, getMenuResponse_frame].
Qed.

(** *** The desync guard *)

(** C9: a rising clock edge more than the threshold after the previous
    one clears the input accumulator and the bit counter before the bit is
    shifted in, whatever they held: afterwards the accumulator holds this
    bit alone and the counter is one.  The output accumulator, like the
    rest of the state, is left as it was. *)
Theorem input_clk_gameboy_idle trade si cyccnt ipus :
  (ipus * 500) `mod` UINT32_MOD < (cyccnt - time trade) `mod` UINT32_MOD ->
  input_clk_gameboy trade true si cyccnt ipus
    = Some (set_time cyccnt (set_shift 1 (set_in_data (Z.b2z si) trade)), None)
  /\ input_clk_gameboy trade true si cyccnt ipus
     = input_clk_gameboy (set_shift 0 (set_in_data 0 trade)) true si cyccnt ipus.
Proof.
  intros Hgap. unfold input_clk_gameboy. simpl.
  destruct (Z.ltb_spec ((ipus * 500) `mod` UINT32_MOD)
              ((cyccnt - time trade) `mod` UINT32_MOD)); [|lia].
  split; [|reflexivity].
  unfold transferBit. simpl. by destruct si.
Qed.

(** A falling edge looks at no clock: it presents the top bit of the
    output accumulator and shifts it. *)
Lemma input_clk_gameboy_falling trade si cyccnt ipus :
  input_clk_gameboy trade false si cyccnt ipus
    = Some (set_out_data (Z.shiftl (out_data trade) 1 `mod` 256) trade,
            Some (negb (Z.land (out_data trade) 0x80 =? 0))).
Proof. reflexivity. Qed.

(** *** The bit shifter *)

Lemma shift_in_bit x (b : bool) :
  0 <= x < 128 -> Z.lor (Z.shiftl x 1 `mod` 256) (Z.b2z b) = 2 * x + Z.b2z b.
Proof.
  intros Hx. rewrite Z.shiftl_mul_pow2 by lia. change (2 ^ 1) with 2.
  rewrite Z.mod_small by lia.
  destruct b; simpl; [|by rewrite Z.lor_0_r, Z.add_0_r, Z.mul_comm].
  rewrite <- Z.add_nocarry_lor; [lia|].
  change 1 with (Z.ones 1). rewrite Z.land_ones by lia.
  rewrite Z.pow_1_r. apply Z.mod_mul. lia.
Qed.

(** A rising edge in the middle of a byte shifts the bit in. *)
Lemma transferBit_shift_in trade si :
  0 <= shift trade < 7 -> 0 <= in_data trade < 128 ->
  transferBit trade si
    = Some (set_shift (shift trade + 1)
              (set_in_data (2 * in_data trade + Z.b2z si) trade)).
Proof.
  intros Hs Hi. unfold transferBit. simpl.
  rewrite shift_in_bit by done.
  rewrite (Z.mod_small (shift trade + 1)) by lia.
  destruct (Z.ltb_spec 7 (shift trade + 1)); [lia|].
  by destruct trade.
Qed.

(** The eighth rising edge completes the byte and hands it over. *)
Lemma transferBit_complete trade si :
  shift trade = 7 -> 0 <= in_data trade < 128 ->
  transferBit trade si
    = r ← byte_response
            (set_shift 0 (set_in_data (2 * in_data trade + Z.b2z si) trade));
      Some (set_in_data 0 (set_out_data r.2 r.1)).
Proof.
  intros Hs Hi. unfold transferBit. simpl.
  rewrite shift_in_bit by done. rewrite Hs. simpl.
  replace (set_shift 0 (set_shift 8 (set_in_data (2 * in_data trade + Z.b2z si)
             (set_in_data (Z.shiftl (in_data trade) 1 `mod` 256) trade))))
    with (set_shift 0 (set_in_data (2 * in_data trade + Z.b2z si) trade))
    by (by destruct trade).
  by destruct (byte_response _) as [[??]|].
Qed.

Lemma rising_edges_shift_in bits : forall trade,
  0 <= shift trade -> shift trade + Z.of_nat (length bits) <= 7 ->
  0 <= in_data trade < 2 ^ shift trade ->
  rising_edges trade bits
    = Some (set_shift (shift trade + Z.of_nat (length bits))
              (set_in_data (foldl (fun acc (b : bool) => 2 * acc + Z.b2z b)
                              (in_data trade) bits) trade)).
Proof.
  induction bits as [|b bits IH]; intros trade Hs Hl Hi; simpl in *.
  - rewrite Z.add_0_r. by destruct trade.
  - assert (2 ^ shift trade <= 2 ^ 6) by (apply Z.pow_le_mono_r; lia).
    rewrite transferBit_shift_in by lia. simpl.
    rewrite IH; simpl; [|lia|lia|].
    + destruct trade. unfold set_shift, set_in_data. simpl. do 2 f_equal. lia.
    + rewrite Z.pow_add_r by lia. change (2 ^ 1) with 2. destruct b; simpl; lia.
Qed.

(** X5: eight rising edges from a byte boundary hand the byte received,
    most significant bit first, to the handler the status selects; its
    response becomes the output accumulator, and the input accumulator and
    the bit counter are back at zero. *)
Lemma eight_rising_edges trade b7 b6 b5 b4 b3 b2 b1 b0 :
  shift trade = 0 -> in_data trade = 0 ->
  rising_edges trade [b7; b6; b5; b4; b3; b2; b1; b0]
    = r ← byte_response
            (set_in_data (byte_of_bits [b7; b6; b5; b4; b3; b2; b1; b0]) trade);
      Some (set_in_data 0 (set_out_data r.2 r.1)).
Proof.
  intros Hs Hi.
  change [b7; b6; b5; b4; b3; b2; b1; b0] with ([b7; b6; b5; b4; b3; b2; b1] ++ [b0]) at 1.
  assert (Happ : forall (bs1 bs2 : list bool) t t1,
    rising_edges t bs1 = Some t1 -> rising_edges t (bs1 ++ bs2) = rising_edges t1 bs2).
  { induction bs1 as [|x bs1 IH]; intros bs2 t t1 E; simpl in *; [by simplify_eq|].
    destruct (transferBit t x) as [t'|]; simpl in *; [|done]. by apply IH. }
  rewrite (Happ _ _ _ _ (rising_edges_shift_in [b7; b6; b5; b4; b3; b2; b1] trade
                           ltac:(lia) ltac:(simpl; lia) ltac:(rewrite Hs, Hi; simpl; lia))).
  simpl rising_edges.
  rewrite transferBit_complete; simpl; [|lia|].
  - rewrite Hs, Hi. unfold byte_of_bits. simpl foldl.
    replace (set_shift 0 _) with
      (set_in_data (2 * (2 * (2 * (2 * (2 * (2 * (2 * (2 * 0 + Z.b2z b7) + Z.b2z b6)
         + Z.b2z b5) + Z.b2z b4) + Z.b2z b3) + Z.b2z b2) + Z.b2z b1) + Z.b2z b0) trade)
      by (destruct trade; simpl in *; by subst).
    by destruct (byte_response _) as [[??]|].
  - rewrite Hi. destruct b7, b6, b5, b4, b3, b2, b1; simpl; lia.
Qed.

(** The display timer touches nothing but the blink flag. *)
Lemma trade_draw_timer_callback_frame trade :
  trade_draw_timer_callback trade = set_ledon (negb (ledon trade)) trade
  /\ trade_centre_state (trade_draw_timer_callback trade) = trade_centre_state trade
  /\ counter (trade_draw_timer_callback trade) = counter trade
  /\ trade_block (trade_draw_timer_callback trade) = trade_block trade
  /\ input_block (trade_draw_timer_callback trade) = input_block trade
  /\ gameboy_status (trade_draw_timer_callback trade) = gameboy_status trade.
Proof. by repeat split. Qed.

(** Entering the trade view leaves the machine at a byte boundary in the
    reset phase, from which a session starts. *)
Lemma trade_enter_callback_reset trade trade' :
  blen (trade_block trade) = sizeof_TradeBlock L ->
  blen (input_block trade) = sizeof_TradeBlock L ->
  trade_enter_callback trade = Some trade' ->
  trade_centre_state trade' = TRADE_RESET
  /\ in_data trade' = 0 /\ out_data trade' = 0 /\ shift trade' = 0
  /\ status_rank (gameboy_status trade') <= status_rank GAMEBOY_READY
  /\ reachable trade'.
Proof.
  unfold trade_enter_callback. intros Htb Hib H.
  destruct (load _ _) as [sp|]; simpl in H; [|done].
  injection H as <-. simpl.
  split; [done|]. split; [done|]. split; [done|]. split; [done|].
  split.
  - case_tests; simpl in *; lia.
  - apply reachable_enter; simpl; [done| |]; by case_tests.
Qed.

(** *** Transitions of the trade-centre phase *)

Lemma reachable_run trade bs trade' outs :
  reachable trade -> Forall is_byte bs ->
  tc_run trade bs = Some (trade', outs) -> reachable trade'.
Proof.
  intros Hr Hbs. revert trade outs Hr.
  induction Hbs as [|b bs Hb Hbs IH]; intros trade outs Hr Hrun; simpl in Hrun.
  - by simplify_eq.
  - destruct (tc_feed trade b) as [[t1 o1]|] eqn:E1; simplify_option_eq.
    destruct (tc_run t1 bs) as [[t2 o2]|] eqn:E2; simplify_option_eq.
    eapply IH; [|exact E2]. by eapply reachable_feed.
Qed.

Lemma case_TRADE_PATCH_DATA_phase trade send trade' out :
  case_TRADE_PATCH_DATA plist_index_get L trade send = Some (trade', out) ->
  counter trade' = counter trade + 1
  /\ (trade_centre_state trade' = trade_centre_state trade
      \/ trade_centre_state trade' = TRADE_SELECT /\ counter trade' = 196).
Proof.
  unfold case_TRADE_PATCH_DATA. intros H.
  destruct (incr_int (counter trade)) as [c|] eqn:Ec; simpl in H; [|done].
  apply incr_int_inv in Ec. subst c.
  match type of H with
  | (?m ≫= _) = _ => destruct m as [t1|] eqn:E1; simpl in H; [|done]
  end.
  assert (Ht1 : counter t1 = counter trade + 1
                /\ trade_centre_state t1 = trade_centre_state trade).
  { revert E1. case_tests; intros E1'; simplify_eq; auto.
    all: destruct (patch_pt_2 _); simpl in E1';
      match type of E1' with
      | (?m ≫= _) = _ => destruct m; simpl in E1'; simplify_eq; auto
      end. }
  destruct Ht1 as [Hc Hp].
  revert H. case_tests; intros Hr; simplify_eq; simpl; auto.
  all: split; [lia|right; split; [done|lia]].
Qed.

Lemma case_TRADE_PENDING_phase trade send :
  let r := case_TRADE_PENDING trade send in
  counter r.1 = counter trade
  /\ (trade_centre_state r.1 = trade_centre_state trade
      \/ trade_centre_state r.1 = TRADE_RESET
      \/ trade_centre_state r.1 = TRADE_CONFIRMATION).
Proof.
  unfold case_TRADE_PENDING. case_tests; simpl; auto.
Qed.

Lemma trade_done_copy_phase trade trade' :
  trade_done_copy trade = Some trade' ->
  counter trade' = counter trade /\ trade_centre_state trade' = TRADE_RESET.
Proof.
  unfold trade_done_copy. intros H.
  repeat match type of H with
  | (?m ≫= _) = _ => destruct m; simpl in H; [|done]
  end.
  by simplify_eq.
Qed.

(** The shape of a step, and the counter when the phase changes. *)
Lemma phase_transitions_shape trade b trade' out :
  tc_feed trade b = Some (trade', out) ->
  phase_shape (trade_centre_state trade) (trade_centre_state trade')
  /\ (trade_centre_state trade' <> trade_centre_state trade ->
      counter_on_entry (trade_centre_state trade) (trade_centre_state trade')
        (counter trade) (counter trade')).
Proof.
  unfold tc_feed, getTradeCentreResponse, phase_shape. simpl.
  destruct (trade_centre_state trade) eqn:Hp; intros H.
  - step_inv; phase_done Hp.
  - step_inv; phase_done Hp.
  - step_inv; phase_done Hp.
  - step_inv; phase_done Hp.
  - step_inv; try phase_done Hp.
    all: apply case_TRADE_PATCH_DATA_phase in H as [Hc [Hs|[Hs Hc']]]; simpl in *;
      [rewrite Hs; simpl; split; [auto|intros _; lia] | lia].
  - apply case_TRADE_PATCH_DATA_phase in H as [Hc [Hs|[Hs Hc']]]; simpl in *.
    + rewrite Hs, Hp. split; [auto|done].
    + rewrite Hs. simpl. split; [auto|done].
  - step_inv; try phase_done Hp.
    unfold case_TRADE_PENDING in H. simpl in H. step_inv. phase_done Hp.
  - step_inv.
    all: match goal with
    | H : case_TRADE_PENDING ?t ?s = _ |- _ =>
        destruct (case_TRADE_PENDING_phase t s) as [Hc [Hs|[Hs|Hs]]];
        rewrite H in Hc, Hs; simpl in *; rewrite Hs, Hc, ?Hp; simpl;
        (split; [auto 6|try done])
    end.
  - step_inv; phase_done Hp.
  - step_inv; try phase_done Hp.
    all: match goal with
      | E : trade_done_copy _ = Some _ |- _ =>
          apply trade_done_copy_phase in E as [Hc Hs]
      end; simpl in *; rewrite Hs, Hc; simpl; (split; [auto 6|done]).
Qed.

(** The bytes of the three steps that are not to the next phase: each is
    made on one byte, and on no other. *)
Lemma phase_transitions_bytes trade b trade' out :
  tc_feed trade b = Some (trade', out) ->
  (trade_centre_state trade = TRADE_PENDING ->
   (trade_centre_state trade' = TRADE_RESET <-> b = PKMN_TABLE_LEAVE))
  /\ (trade_centre_state trade = TRADE_DONE ->
      (trade_centre_state trade' = TRADE_RESET <-> b = PKMN_BLANK))
  /\ (trade_centre_state trade = TRADE_CONFIRMATION ->
      (trade_centre_state trade' = TRADE_SELECT <-> b = PKMN_TRADE_REJECT)).
Proof.
  unfold tc_feed, getTradeCentreResponse, case_TRADE_PENDING. simpl. intros H.
  split; [|split]; intros Hp; rewrite Hp in H; simpl in H.
  - step_inv; simpl; rewrite ?Hp; split; (done || (consts; lia)).
  - destruct (Z.eqb_spec b PKMN_BLANK) as [Hb|Hb].
    + destruct (trade_done_copy _) as [t|] eqn:E; simpl in H; [|done].
      simplify_eq. apply trade_done_copy_phase in E as [_ Hs]. by rewrite Hs.
    + simplify_eq. simpl. rewrite Hp. split; done.
  - step_inv; simpl; rewrite ?Hp; split; (done || (consts; lia)).
Qed.

(** C7: whatever the state and the byte, a step keeps the phase, moves it
    to the next phase of the list, takes it back to the first phase (from
    pending on the leave-table byte, from done on a blank), or, on the
    reject byte, takes it from confirmation back to selection; there is no
    other transition, and each of these three bytes does make its
    transition.  When the phase changes, the counter is zero on entry to
    init, random, data and patch header and one on entry to patch data; it
    is not reset on entry to the other phases. *)
Theorem phase_transitions trade b trade' out :
  tc_feed trade b = Some (trade', out) ->
  phase_transition (trade_centre_state trade) b (trade_centre_state trade')
  /\ (trade_centre_state trade' <> trade_centre_state trade ->
      counter_on_entry (trade_centre_state trade) (trade_centre_state trade')
        (counter trade) (counter trade'))
  /\ (trade_centre_state trade = TRADE_PENDING -> b = PKMN_TABLE_LEAVE ->
      trade_centre_state trade' = TRADE_RESET)
  /\ (trade_centre_state trade = TRADE_DONE -> b = PKMN_BLANK ->
      trade_centre_state trade' = TRADE_RESET)
  /\ (trade_centre_state trade = TRADE_CONFIRMATION -> b = PKMN_TRADE_REJECT ->
      trade_centre_state trade' = TRADE_SELECT).
Proof.
  intros H.
  destruct (phase_transitions_shape _ _ _ _ H) as [Hshape Hcnt].
  destruct (phase_transitions_bytes _ _ _ _ H) as (Hpend & Hdone & Hconf).
  split; [|split; [exact Hcnt|split; [|split]]].
  - unfold phase_transition.
    destruct Hshape as [Hs|[Hs|[[Hs [Hp|Hp]]|[Hp Hs]]]]; auto.
    + right. right. left. split; [done|]. split; [|done]. by apply Hpend.
    + right. right. right. left. split; [done|]. split; [|done]. by apply Hdone.
    + right. right. right. right. split; [done|]. split; [|done]. by apply Hconf.
  - intros Hp Hb. by apply Hpend.
  - intros Hp Hb. by apply Hdone.
  - intros Hp Hb. by apply Hconf.
Qed.
(** *** Leaving the table *)

(** C8: a leave-table byte in the pending phase, whatever the counter
    holds, is answered with the same byte, takes the phase back to the
    first one and the status to ready; the next byte, whatever it is,
    zeroes the counter and clears the part-2 flag on the way to init. *)
Theorem pending_leave_table trade :
  trade_centre_state trade = TRADE_PENDING ->
  exists trade',
    tc_feed trade PKMN_TABLE_LEAVE = Some (trade', PKMN_TABLE_LEAVE)
    /\ trade_centre_state trade' = TRADE_RESET
    /\ gameboy_status trade' = GAMEBOY_READY
    /\ forall b, exists trade'',
         tc_feed trade' b = Some (trade'', b)
         /\ trade_centre_state trade'' = TRADE_INIT
         /\ counter trade'' = 0
         /\ patch_pt_2 trade'' = false.
Proof.
  intros Hp. unfold tc_feed, getTradeCentreResponse. simpl. rewrite Hp.
  eexists. split; [reflexivity|]. simpl. repeat split.
  intros b. eexists. split; [reflexivity|]. done.
Qed.

(** The random-seed phase never looks at the byte: it counts it. *)
Lemma random_counts_any_byte trade b trade' out :
  trade_centre_state trade = TRADE_RANDOM ->
  tc_feed trade b = Some (trade', out) ->
  out = b
  /\ gameboy_status trade' = gameboy_status trade
  /\ (trade_centre_state trade' = TRADE_RANDOM \/ trade_centre_state trade' = TRADE_DATA).
Proof.
  unfold tc_feed, getTradeCentreResponse. simpl. intros Hp H. rewrite Hp in H.
  destruct (incr_int (counter trade)) eqn:E; simpl in H; [|done].
  case_tests; simplify_eq; simpl; auto.
Qed.
Lemma tc_run_app trade bs1 bs2 t1 o1 :
  tc_run trade bs1 = Some (t1, o1) ->
  tc_run trade (bs1 ++ bs2)
    = r ← tc_run t1 bs2; Some (r.1, o1 ++ r.2).
Proof.
  revert trade t1 o1.
  induction bs1 as [|b bs1 IH]; intros trade t1 o1 H; simpl in *.
  - simplify_eq. by destruct (tc_run t1 bs2) as [[??]|].
  - destruct (tc_feed trade b) as [[ta oa]|]; simpl in *; [|done].
    destruct (tc_run ta bs1) as [[tb ob]|] eqn:E; simpl in *; [|done].
    simplify_eq. rewrite (IH _ _ _ E).
    by destruct (tc_run t1 bs2) as [[??]|].
Qed.

Lemma tc_run_snoc trade bs b t1 o1 t2 o2 :
  tc_run trade bs = Some (t1, o1) ->
  tc_feed t1 b = Some (t2, o2) ->
  tc_run trade (bs ++ [b]) = Some (t2, o1 ++ [o2]).
Proof.
  intros H1 H2. rewrite (tc_run_app _ _ _ _ _ H1). simpl. by rewrite H2.
Qed.

Lemma preamble_count_cons b bs :
  preamble_count (b :: bs)
    = (if b =? SERIAL_PREAMBLE_BYTE then 1 else 0) + preamble_count bs.
Proof.
  unfold preamble_count. simpl.
  destruct (Z.eq_dec b SERIAL_PREAMBLE_BYTE) as [->|Hne]; [simpl; lia|].
  destruct (Z.eqb_spec b SERIAL_PREAMBLE_BYTE); [done|lia].
Qed.

Lemma preamble_count_nonneg bs : 0 <= preamble_count bs.
Proof. unfold preamble_count. lia. Qed.

Lemma preamble_count_take n bs : preamble_count (take n bs) <= preamble_count bs.
Proof.
  revert n. induction bs as [|b bs IH]; intros [|n]; simpl; try done.
  - apply preamble_count_nonneg.
  - rewrite !preamble_count_cons. specialize (IH n). lia.
Qed.

(** The init phase counts preamble bytes and lets the other bytes pass. *)
Lemma init_run bs : forall trade,
  trade_centre_state trade = TRADE_INIT ->
  0 <= counter trade ->
  counter trade + preamble_count bs < SERIAL_RNS_LENGTH ->
  exists trade' outs,
    tc_run trade bs = Some (trade', outs)
    /\ trade_centre_state trade' = TRADE_INIT
    /\ counter trade' = counter trade + preamble_count bs.
Proof.
  induction bs as [|b bs IH]; intros trade Hp Hc Hlt.
  - exists trade, []. unfold preamble_count. simpl. repeat split; auto. lia.
  - rewrite preamble_count_cons in *.
    pose proof (preamble_count_nonneg bs).
    assert (exists t1 o1, tc_feed trade b = Some (t1, o1)
              /\ trade_centre_state t1 = TRADE_INIT
              /\ counter t1 = counter trade
                   + (if b =? SERIAL_PREAMBLE_BYTE then 1 else 0))
      as (t1 & o1 & E1 & Hp1 & Hc1).
    { unfold tc_feed, getTradeCentreResponse. simpl. rewrite Hp.
      destruct (Z.eqb_spec b SERIAL_PREAMBLE_BYTE).
      - rewrite incr_int_Some by (consts; lia). simpl.
        case_tests; [consts; lia|].
        eexists _, _. split; [reflexivity|]. simpl. auto.
      - destruct (Z.land b PKMN_SEL_NUM_MASK =? PKMN_SEL_NUM_MASK); simpl;
          case_tests; try (consts; lia);
          (eexists _, _; split; [reflexivity|]; simpl; split; [done|lia]). }
    destruct (IH t1 Hp1) as (t2 & o2 & E2 & Hp2 & Hc2);
      [case_tests; lia|case_tests; lia|].
    exists t2, (o1 :: o2). simpl. rewrite E1. simpl. rewrite E2. simpl.
    repeat split; auto. case_tests; lia.
Qed.

Lemma init_last trade :
  trade_centre_state trade = TRADE_INIT ->
  counter trade = SERIAL_RNS_LENGTH - 1 ->
  exists trade',
    tc_feed trade SERIAL_PREAMBLE_BYTE = Some (trade', SERIAL_PREAMBLE_BYTE)
    /\ trade_centre_state trade' = TRADE_RANDOM
    /\ counter trade' = 0.
Proof.
  intros Hp Hc. unfold tc_feed, getTradeCentreResponse. simpl.
  rewrite Hp, Hc. simpl. eexists. split; [reflexivity|]. done.
Qed.

(** The random phase counts every byte, whatever its value. *)
Lemma random_run bs : forall trade,
  trade_centre_state trade = TRADE_RANDOM ->
  0 <= counter trade ->
  counter trade + blen bs < SERIAL_RNS_LENGTH + SERIAL_TRADE_PREAMBLE_LENGTH ->
  exists trade',
    tc_run trade bs = Some (trade', bs)
    /\ trade_centre_state trade' = TRADE_RANDOM
    /\ counter trade' = counter trade + blen bs.
Proof.
  unfold blen, SERIAL_RNS_LENGTH, SERIAL_TRADE_PREAMBLE_LENGTH.
  induction bs as [|b bs IH]; intros trade Hp Hc Hlt; simpl in *.
  - exists trade. repeat split; auto. lia.
  - unfold tc_feed, getTradeCentreResponse. simpl. rewrite Hp.
    rewrite incr_int_Some by (consts; lia). simpl.
    case_tests; [consts; lia|]. simpl.
    destruct (IH (set_counter (counter trade + 1) (set_in_data b trade)))
      as (t2 & E2 & Hp2 & Hc2); simpl; [done|lia|lia|].
    exists t2. rewrite E2. simpl in *. repeat split; auto. lia.
Qed.

Lemma random_last trade b :
  trade_centre_state trade = TRADE_RANDOM ->
  counter trade = SERIAL_RNS_LENGTH + SERIAL_TRADE_PREAMBLE_LENGTH - 1 ->
  exists trade',
    tc_feed trade b = Some (trade', b)
    /\ trade_centre_state trade' = TRADE_DATA
    /\ counter trade' = 0.
Proof.
  intros Hp Hc. unfold tc_feed, getTradeCentreResponse. simpl.
  rewrite Hp, Hc. simpl. eexists. split; [reflexivity|]. done.
Qed.

(** *** The handshake *)

(** C4: from the init phase with the counter at zero, a run of bytes holding
    nine preamble bytes among any others, a tenth preamble byte and nineteen
    bytes of any value leaves the machine in the data phase with the counter
    at zero.  The phase is init up to the tenth preamble byte, random from
    it to the eighteenth of the nineteen bytes, and data from the
    nineteenth. *)
Theorem handshake_reaches_data trade pre rest :
  trade_centre_state trade = TRADE_INIT ->
  counter trade = 0 ->
  preamble_count pre = SERIAL_RNS_LENGTH - 1 ->
  blen rest = SERIAL_RNS_LENGTH + SERIAL_TRADE_PREAMBLE_LENGTH ->
  (forall n : nat, exists t outs,
      tc_run trade (take n pre) = Some (t, outs)
      /\ trade_centre_state t = TRADE_INIT)
  /\ (forall n : nat, (n < length rest)%nat -> exists t outs,
      tc_run trade (pre ++ [SERIAL_PREAMBLE_BYTE] ++ take n rest) = Some (t, outs)
      /\ trade_centre_state t = TRADE_RANDOM
      /\ counter t = Z.of_nat n)
  /\ exists trade' outs,
      tc_run trade (pre ++ [SERIAL_PREAMBLE_BYTE] ++ rest) = Some (trade', outs)
      /\ trade_centre_state trade' = TRADE_DATA
      /\ counter trade' = 0.
Proof.
  intros Hp Hc Hpre Hrest.
  unfold SERIAL_RNS_LENGTH, SERIAL_TRADE_PREAMBLE_LENGTH in *.
  destruct (init_run pre trade) as (t1 & o1 & E1 & Hp1 & Hc1);
    [done|lia|unfold SERIAL_RNS_LENGTH; lia|].
  destruct (init_last t1) as (t2 & E2 & Hp2 & Hc2);
    [done|unfold SERIAL_RNS_LENGTH; lia|].
  pose proof (tc_run_snoc _ _ _ _ _ _ _ E1 E2) as E12.
  split; [|split].
  - intros n. pose proof (preamble_count_take n pre).
    destruct (init_run (take n pre) trade) as (t & o & E & Hpt & _);
      [done|lia|unfold SERIAL_RNS_LENGTH; lia|]. eauto.
  - intros n Hn.
    destruct (random_run (take n rest) t2) as (t3 & E3 & Hp3 & Hc3);
      [done|lia| |].
    { unfold blen in *. rewrite length_take.
      unfold SERIAL_RNS_LENGTH, SERIAL_TRADE_PREAMBLE_LENGTH. lia. }
    exists t3, ((o1 ++ [SERIAL_PREAMBLE_BYTE]) ++ take n rest).
    rewrite app_assoc, (tc_run_app _ _ _ _ _ E12), E3. simpl.
    repeat split; auto. rewrite Hc3, Hc2. unfold blen. rewrite length_take. lia.
  - assert (exists r0 x, rest = r0 ++ [x] /\ blen r0 = 18) as (r0 & x & -> & Hr0).
    { destruct rest as [|y rest'] using rev_ind; [unfold blen in Hrest; simpl in *; lia|].
      exists rest', y. split; [done|]. unfold blen in *. rewrite length_app in Hrest.
      simpl in *. lia. }
    destruct (random_run r0 t2) as (t3 & E3 & Hp3 & Hc3);
      [done|lia|unfold SERIAL_RNS_LENGTH, SERIAL_TRADE_PREAMBLE_LENGTH; lia|].
    destruct (random_last t3 x) as (t4 & E4 & Hp4 & Hc4);
      [done|unfold SERIAL_RNS_LENGTH, SERIAL_TRADE_PREAMBLE_LENGTH; lia|].
    pose proof (tc_run_snoc _ _ _ _ _ _ _ E3 E4) as E34.
    exists t4, ((o1 ++ [SERIAL_PREAMBLE_BYTE]) ++ r0 ++ [x]).
    rewrite app_assoc, (tc_run_app _ _ _ _ _ E12), E34. simpl. auto.
Qed.
(** *** The bulk exchange *)

Lemma slice_cons (m : list Z) c n x :
  0 <= c -> 0 <= n -> m !! Z.to_nat c = Some x ->
  slice m c (n + 1) = x :: slice m (c + 1) n.
Proof.
  unfold slice. intros Hc Hn Hx. rewrite (drop_S _ x) by done.
  replace (Z.to_nat (n + 1)) with (S (Z.to_nat n)) by lia.
  replace (Z.to_nat (c + 1)) with (S (Z.to_nat c)) by lia. done.
Qed.

Lemma slice_all (m : list Z) : slice m 0 (blen m) = m.
Proof. unfold slice, blen. simpl. rewrite drop_0. apply take_ge. lia. Qed.

(** One byte of the bulk exchange. *)
Lemma data_step trade b :
  trade_centre_state trade = TRADE_DATA ->
  0 <= counter trade < sizeof_TradeBlock L ->
  blen (trade_block trade) = sizeof_TradeBlock L ->
  blen (input_block trade) = sizeof_TradeBlock L ->
  sizeof_TradeBlock L < INT_MAX ->
  exists x,
    trade_block trade !! Z.to_nat (counter trade) = Some x
    /\ tc_feed trade b =
         Some (let t1 := set_input_block (<[Z.to_nat (counter trade) := b]> (input_block trade))
                           (set_in_data b trade) in
               if counter trade + 1 =? sizeof_TradeBlock L
               then set_counter 0 (set_state TRADE_PATCH_HEADER t1)
               else set_counter (counter trade + 1) t1, x).
Proof.
  intros Hp Hc Htb Hib Hmax.
  destruct (load_in_range (trade_block trade) (counter trade)) as [x Hx]; [lia|].
  exists x. split; [by rewrite load_lookup in Hx by lia|].
  unfold tc_feed, getTradeCentreResponse. simpl. rewrite Hp.
  rewrite store_in_range by lia. simpl. rewrite Hx. simpl.
  rewrite incr_int_Some by lia. simpl. by case_tests.
Qed.

Lemma data_run bs : forall trade,
  trade_centre_state trade = TRADE_DATA ->
  0 <= counter trade ->
  counter trade + blen bs < sizeof_TradeBlock L ->
  blen (trade_block trade) = sizeof_TradeBlock L ->
  blen (input_block trade) = sizeof_TradeBlock L ->
  sizeof_TradeBlock L < INT_MAX ->
  exists trade',
    tc_run trade bs
      = Some (trade', slice (trade_block trade) (counter trade) (blen bs))
    /\ trade_centre_state trade' = TRADE_DATA
    /\ counter trade' = counter trade + blen bs
    /\ trade_block trade' = trade_block trade
    /\ blen (input_block trade') = sizeof_TradeBlock L
    /\ forall j : nat,
         input_block trade' !! j =
           if decide (Z.to_nat (counter trade) <= j < Z.to_nat (counter trade + blen bs))%nat
           then bs !! (j - Z.to_nat (counter trade))%nat
           else input_block trade !! j.
Proof.
  induction bs as [|b bs IH]; intros trade Hp Hc Hlt Htb Hib Hmax.
  - exists trade. unfold blen in *. simpl. unfold slice. simpl.
    repeat split; auto; try lia.
    intros j. case_decide; [lia|done].
  - assert (Hlen : blen (b :: bs) = blen bs + 1) by (unfold blen; simpl; lia).
    assert (0 <= blen bs) by (unfold blen; lia).
    destruct (data_step trade b) as (x & Hx & E1); auto; [lia|].
    revert E1. case_tests; [lia|]. simpl. intros E1.
    match type of E1 with _ = Some (?t, _) => set (t1 := t) in * end.
    destruct (IH t1) as (t2 & E2 & Hp2 & Hc2 & Htb2 & Hib2 & Hl2); subst t1; simpl; auto;
      [lia|lia|by rewrite blen_insert|].
    simpl in *. exists t2. rewrite E1. simpl. rewrite E2. simpl.
    rewrite Hlen, (slice_cons _ _ _ x) by (done || lia).
    repeat split; auto; [lia|].
    intros j. rewrite Hl2.
    unfold blen in *.
    destruct (decide (j = Z.to_nat (counter trade))) as [->|Hne].
    + repeat case_decide; try lia.
      rewrite Nat.sub_diag. simpl. apply list_lookup_insert_eq. lia.
    + rewrite list_lookup_insert_ne by done.
      repeat case_decide; try lia; try done.
      replace (j - Z.to_nat (counter trade))%nat
        with (S (j - Z.to_nat (counter trade + 1)))%nat by lia.
      done.
Qed.

(** C5: from the start of the data phase, a run of exactly
    [sizeof(TradeBlock)] bytes of any value ends in the patch-header phase
    with the counter back at zero; the scratch block then holds the run,
    byte for byte, and the responses were the bytes of the local block, in
    order.  After any shorter run the phase is still data, the first [n]
    bytes of the scratch block are the [n] bytes received and the responses
    were the first [n] bytes of the local block. *)
Theorem bulk_exchange trade bs :
  trade_centre_state trade = TRADE_DATA ->
  counter trade = 0 ->
  0 < sizeof_TradeBlock L < INT_MAX ->
  blen (trade_block trade) = sizeof_TradeBlock L ->
  blen (input_block trade) = sizeof_TradeBlock L ->
  blen bs = sizeof_TradeBlock L ->
  (exists trade',
      tc_run trade bs = Some (trade', trade_block trade)
      /\ trade_centre_state trade' = TRADE_PATCH_HEADER
      /\ counter trade' = 0
      /\ input_block trade' = bs
      /\ trade_block trade' = trade_block trade)
  /\ (forall n : nat, (n < length bs)%nat ->
      exists t,
        tc_run trade (take n bs) = Some (t, take n (trade_block trade))
        /\ trade_centre_state t = TRADE_DATA
        /\ counter t = Z.of_nat n
        /\ take n (input_block t) = take n bs
        /\ drop n (input_block t) = drop n (input_block trade)).
Proof.
  intros Hp Hc Hsz Htb Hib Hbs.
  split.
  - assert (exists r0 x, bs = r0 ++ [x] /\ blen r0 = sizeof_TradeBlock L - 1)
      as (r0 & x & -> & Hr0).
    { destruct bs as [|y bs'] using rev_ind; [unfold blen in Hbs; simpl in *; lia|].
      exists bs', y. split; [done|]. unfold blen in *. rewrite length_app in Hbs.
      simpl in *. lia. }
    destruct (data_run r0 trade) as (t1 & E1 & Hp1 & Hc1 & Htb1 & Hib1 & Hl1);
      auto; [lia|lia|lia|].
    destruct (data_step t1 x) as (y & Hy & E2); auto; [lia|congruence|lia|].
    revert E2. case_tests; [|lia]. simpl. intros E2.
    match type of E2 with _ = Some (?t, _) => exists t end.
    split; [|split; [reflexivity|split; [reflexivity|split]]].
    + rewrite (tc_run_snoc _ _ _ _ _ _ _ E1 E2). do 2 f_equal.
      rewrite Hc. unfold slice. simpl. rewrite drop_0.
      rewrite <- (take_ge (trade_block trade) (S (Z.to_nat (blen r0)))) at 2
        by (unfold blen in *; lia).
      symmetry. apply take_S_r. rewrite <- Hy, Htb1. f_equal. lia.
    + simpl. apply list_eq. intros j. unfold blen in *.
      replace (Z.to_nat (counter t1)) with (length r0) by lia.
      destruct (decide (j = length r0)) as [->|Hne].
      * rewrite list_lookup_insert_eq by lia.
        by rewrite lookup_app_r, Nat.sub_diag by lia.
      * rewrite list_lookup_insert_ne by done. rewrite Hl1.
        case_decide.
        -- rewrite lookup_app_l by lia. f_equal. lia.
        -- rewrite !lookup_ge_None_2; [done| |]; rewrite ?length_app; simpl; lia.
    + simpl. done.
  - intros n Hn.
    destruct (data_run (take n bs) trade) as (t1 & E1 & Hp1 & Hc1 & Htb1 & Hib1 & Hl1);
      auto; try lia.
    { unfold blen in *. rewrite length_take. lia. }
    assert (Hbl : blen (take n bs) = Z.of_nat n)
      by (unfold blen; rewrite length_take; lia).
    exists t1. rewrite E1, Hc, Hbl. unfold slice. simpl. rewrite drop_0, Nat2Z.id.
    repeat split; auto; [lia| |].
    + apply list_eq. intros j. rewrite !lookup_take, Hl1, Hc, Hbl.
      repeat case_decide; try lia; try done.
      rewrite lookup_take_lt by lia. f_equal. lia.
    + apply list_eq. intros j. rewrite !lookup_drop, Hl1, Hc, Hbl.
      case_decide; [lia|done].
Qed.
(** *** The patch list

    The comments of the handler give the range of the two parts of the
    patch list: 0x00 to 0xFB and 0xFC to 0x107, the 0x108 bytes of the six
    creature records. *)

(** A write through [input_party_flat] that lands in the party region. *)
Lemma party_region_store (ib : list Z) p :
  layout_ok L ->
  blen ib = sizeof_TradeBlock L ->
  0 <= p < party_size L ->
  store ib (off_party L + p) SERIAL_NO_DATA_BYTE
    = Some (<[Z.to_nat (off_party L + p) := SERIAL_NO_DATA_BYTE]> ib)
  /\ patched_at (party_region L ib)
       (party_region L (<[Z.to_nat (off_party L + p) := SERIAL_NO_DATA_BYTE]> ib)) p.
Proof.
  intros HL Hib Hp. destruct HL. split.
  - apply store_in_range. lia.
  - unfold patched_at, party_region. split; [|split].
    + unfold blen. rewrite slice_length; lia.
    + rewrite slice_lookup. case_decide; [|lia].
      replace (Z.to_nat (off_party L) + Z.to_nat p)%nat
        with (Z.to_nat (off_party L + p)) by lia.
      apply list_lookup_insert_eq. unfold blen in *. lia.
    + intros j Hj. rewrite !slice_lookup. case_decide; [|done].
      apply list_lookup_insert_ne. lia.
Qed.

(** C2: in the patch-data phase, a zero byte leaves the scratch block and
    the part-2 flag as they are; the terminator 0xFF leaves the block as it
    is and sets the flag, which a later byte of this phase never clears; any
    other byte [m] overwrites exactly one byte of the block with 0xFE, the
    byte of the party region at position [m - 1] before the terminator and
    at position [0xFB + m] after it, as long as that position lies inside
    the party region (which [m - 1] always does). *)
Theorem patch_data_byte trade m :
  layout_ok L ->
  party_size L = 0x108 ->
  blen (input_block trade) = sizeof_TradeBlock L ->
  trade_centre_state trade = TRADE_PATCH_DATA ->
  counter trade < INT_MAX ->
  is_byte m ->
  (patch_pt_2 trade = true -> m = 0 \/ m = 0xFF \/ 0xFB + m < party_size L) ->
  exists trade' out,
    tc_feed trade m = Some (trade', out)
    /\ (m = 0 ->
        input_block trade' = input_block trade
        /\ patch_pt_2 trade' = patch_pt_2 trade)
    /\ (m = 0xFF ->
        input_block trade' = input_block trade /\ patch_pt_2 trade' = true)
    /\ (patch_pt_2 trade = true -> patch_pt_2 trade' = true)
    /\ (m <> 0 -> m <> 0xFF ->
        let p := if patch_pt_2 trade then 0xFB + m else m - 1 in
        input_block trade'
          = <[Z.to_nat (off_party L + p) := SERIAL_NO_DATA_BYTE]> (input_block trade)
        /\ patched_at (party_region L (input_block trade))
             (party_region L (input_block trade')) p
        /\ patch_pt_2 trade' = patch_pt_2 trade).
Proof.
  intros HL Hps Hib Hp Hc [Hm0 Hm1] Hpt2.
  unfold tc_feed, getTradeCentreResponse, case_TRADE_PATCH_DATA.
  simpl. rewrite Hp. rewrite incr_int_Some by done. simpl.
  destruct (Z.eqb_spec m PKMN_BLANK) as [->|Hn0].
  { simpl. eexists _, _. split; [reflexivity|].
    repeat split; try (by case_tests); try (consts; lia). }
  destruct (Z.eqb_spec m SERIAL_PATCH_LIST_PART_TERMINATOR) as [->|Hn1].
  { simpl. eexists _, _. split; [reflexivity|].
    repeat split; try (by case_tests); try (consts; lia). }
  set (p := if patch_pt_2 trade then 0xFB + m else m - 1).
  assert (Hpr : 0 <= p < party_size L).
  { subst p. consts. destruct (patch_pt_2 trade); [|lia].
    destruct Hpt2 as [?|[?|?]]; auto; lia. }
  destruct (party_region_store (input_block trade) p HL Hib Hpr) as [Hst Hpa].
  assert (Hbranch :
    (if negb (patch_pt_2 trade)
     then ib ← store (input_block trade) (off_party L + (m - 1)) SERIAL_NO_DATA_BYTE;
          Some (set_input_block ib (set_counter (counter trade + 1) (set_in_data m trade)))
     else ib ← store (input_block trade) (off_party L + (251 + m)) SERIAL_NO_DATA_BYTE;
          Some (set_input_block ib (set_counter (counter trade + 1) (set_in_data m trade))))
    = Some (set_input_block
              (<[Z.to_nat (off_party L + p) := SERIAL_NO_DATA_BYTE]> (input_block trade))
              (set_counter (counter trade + 1) (set_in_data m trade)))).
  { subst p. destruct (patch_pt_2 trade); simpl; rewrite Hst; done. }
  rewrite Hbranch. simpl.
  eexists _, _. split; [reflexivity|].
  split; [consts; lia|]. split; [consts; lia|].
  split; [by case_tests|].
  intros _ _. by case_tests.
Qed.

(** X8: once set, the part-2 flag stays set, whatever the phase and the
    byte, until the reset phase clears it. *)
Lemma patch_pt_2_stays trade b trade' out :
  trade_centre_state trade <> TRADE_RESET ->
  patch_pt_2 trade = true ->
  tc_feed trade b = Some (trade', out) ->
  patch_pt_2 trade' = true.
Proof.
  unfold tc_feed, getTradeCentreResponse, case_TRADE_PATCH_DATA, case_TRADE_PENDING,
    trade_done_copy.
  simpl. intros Hp Hpt H.
  destruct (trade_centre_state trade); try done; rewrite ?Hpt in H; simpl in H;
    step_inv; simpl; done.
Qed.

(** C6: in the patch-header phase, the preamble byte that brings the count
    to six is handled in the same step as a byte of the patch-data phase
    entered with the counter at zero: the phase is patch data afterwards,
    the counter is one, and the byte 0xFD, being neither zero nor the
    terminator, has patched position 0xFC of the party region. *)
Theorem patch_header_falls_through trade :
  layout_ok L ->
  party_size L = 0x108 ->
  blen (input_block trade) = sizeof_TradeBlock L ->
  trade_centre_state trade = TRADE_PATCH_HEADER ->
  counter trade = 5 ->
  patch_pt_2 trade = false ->
  exists trade',
    tc_feed trade SERIAL_PREAMBLE_BYTE = Some (trade', SERIAL_PREAMBLE_BYTE)
    /\ tc_feed (set_counter 0 (set_state TRADE_PATCH_DATA trade)) SERIAL_PREAMBLE_BYTE
       = Some (trade', SERIAL_PREAMBLE_BYTE)
    /\ trade_centre_state trade' = TRADE_PATCH_DATA
    /\ counter trade' = 1
    /\ patched_at (party_region L (input_block trade))
         (party_region L (input_block trade')) (SERIAL_PREAMBLE_BYTE - 1).
Proof.
  intros HL Hps Hib Hp Hc Hpt.
  destruct (party_region_store (input_block trade) (SERIAL_PREAMBLE_BYTE - 1) HL Hib)
    as [Hst Hpa]; [consts; lia|].
  unfold tc_feed, getTradeCentreResponse, case_TRADE_PATCH_DATA.
  simpl. rewrite Hp, Hc, Hpt. simpl.
  unfold SERIAL_PREAMBLE_BYTE in *. simpl in *. rewrite Hst. simpl.
  eexists. split; [reflexivity|]. split; [reflexivity|]. simpl. auto.
Qed.
(** *** The trade itself *)

Lemma slot_offset_bounds k s : 0 <= k <= 5 -> 0 < s -> 0 <= k * s <= 5 * s.
Proof. intros. nia. Qed.

Lemma memcpy_load (dst : list Z) d (src : list Z) s n r i :
  memcpy dst d src s n = Some r -> 0 <= i ->
  load r i = if decide (d <= i < d + n) then load src (s + (i - d)) else load dst i.
Proof.
  intros E Hi. rewrite (load_lookup r) by done.
  rewrite (memcpy_lookup _ _ _ _ _ _ (Z.to_nat i) E).
  unfold memcpy in E.
  destruct (Z.leb_spec 0 d), (Z.leb_spec 0 s), (Z.leb_spec 0 n); simpl in E; try done.
  clear E. repeat case_decide; try lia.
  - rewrite load_lookup by lia. f_equal. lia.
  - by rewrite load_lookup.
Qed.

Lemma insert_load (m : list Z) a v i :
  0 <= a < blen m -> 0 <= i ->
  load (<[Z.to_nat a := v]> m) i = if decide (i = a) then Some v else load m i.
Proof.
  intros Ha Hi. rewrite !load_lookup by done. unfold blen in Ha.
  case_decide as Hd.
  - subst. apply list_lookup_insert_eq. lia.
  - apply list_lookup_insert_ne. lia.
Qed.

Lemma slice_load (m : list Z) i n (j : nat) :
  0 <= i ->
  slice m i n !! j = if decide (Z.of_nat j < n) then load m (i + Z.of_nat j) else None.
Proof.
  intros Hi. rewrite slice_lookup.
  repeat case_decide; try lia; [|done].
  rewrite load_lookup by lia. f_equal. lia.
Qed.

Lemma trade_done_copy_block trade :
  layout_ok L ->
  blen (trade_block trade) = sizeof_TradeBlock L ->
  blen (input_block trade) = sizeof_TradeBlock L ->
  0 <= in_pokemon_num trade <= 5 ->
  exists trade',
    trade_done_copy trade = Some trade'
    /\ trade_centre_state trade' = TRADE_RESET
    /\ gameboy_status trade' = GAMEBOY_TRADING
    /\ input_block trade' = input_block trade
    /\ plist_pending trade' = S (plist_pending trade)
    /\ (exists sp, load (trade_block trade') (off_party_members L) = Some sp
          /\ curr_pokemon trade' = pokemon_table_get_num_from_index sp `mod` 256)
    /\ copied_block L (trade_block trade) (input_block trade) (in_pokemon_num trade)
         (trade_block trade').
Proof.
  intros HL Htb Hib Hk.
  pose proof (slot_offset_bounds _ _ Hk (lo_ps_pos L HL)).
  pose proof (slot_offset_bounds _ _ Hk (lo_nm_pos L HL)).
  destruct HL. unfold apart, party_size in *.
  set (k := in_pokemon_num trade) in *.
  set (sps := sizeof_pokemon_structure L) in *.
  set (sn := sizeof_name L) in *.
  unfold trade_done_copy. simpl. fold k sps sn.
  destruct (load_in_range (input_block trade) (off_party_members L + k)) as [sp Hsp]; [lia|].
  rewrite Hsp. simpl.
  rewrite store_in_range by lia. simpl.
  set (tb1 := <[Z.to_nat (off_party_members L) := sp]> (trade_block trade)).
  assert (Hl1 : blen tb1 = sizeof_TradeBlock L) by (subst tb1; by rewrite blen_insert).
  destruct (memcpy tb1 (off_party L) (input_block trade) (off_party L + k * sps) sps)
    as [tb2|] eqn:E2; [|by rewrite memcpy_in_range in E2 by lia].
  pose proof (memcpy_length _ _ _ _ _ _ E2) as Hl2. simpl.
  destruct (memcpy tb2 (off_nickname L) (input_block trade) (off_nickname L + k * sn) sn)
    as [tb3|] eqn:E3; [|by rewrite memcpy_in_range in E3 by lia].
  pose proof (memcpy_length _ _ _ _ _ _ E3) as Hl3. simpl.
  destruct (memcpy tb3 (off_ot_name L) (input_block trade) (off_ot_name L + k * sn) sn)
    as [tb4|] eqn:E4; [|by rewrite memcpy_in_range in E4 by lia].
  pose proof (memcpy_length _ _ _ _ _ _ E4) as Hl4. simpl.
  assert (Hcp : copied_block L (trade_block trade) (input_block trade) k tb4).
  { split; [lia|]. intros i Hi. fold sps sn.
    rewrite (memcpy_load _ _ _ _ _ _ i E4), (memcpy_load _ _ _ _ _ _ i E3),
      (memcpy_load _ _ _ _ _ _ i E2) by done.
    subst tb1. rewrite insert_load by lia.
    clear E2 E3 E4 Hl1 Hl2 Hl3 Hl4.
    repeat case_decide; try (exfalso; lia); try done; try (f_equal; lia);
      try (subst i; done). }
  destruct (load_in_range tb4 (off_party_members L)) as [sp0 Hsp0]; [lia|].
  rewrite Hsp0. simpl.
  eexists. split; [reflexivity|]. simpl.
  repeat split; eauto; apply Hcp.
Qed.

Lemma pending_select trade b :
  trade_centre_state trade = TRADE_PENDING ->
  b <> PKMN_TABLE_LEAVE ->
  Z.land b PKMN_SEL_NUM_MASK = PKMN_SEL_NUM_MASK ->
  tc_feed trade b
    = Some (set_status GAMEBOY_TRADE_PENDING (set_in_pokemon_num b (set_in_data b trade)),
            PKMN_SEL_NUM_ONE).
Proof.
  intros Hp Hb Hm.
  unfold tc_feed, getTradeCentreResponse, case_TRADE_PENDING.
  simpl. rewrite Hp, Hm. by case_tests.
Qed.

Lemma pending_blank trade :
  trade_centre_state trade = TRADE_PENDING ->
  in_pokemon_num trade <> 0 ->
  tc_feed trade PKMN_BLANK
    = Some (set_in_pokemon_num (Z.land (in_pokemon_num trade) 0x0F)
              (set_state TRADE_CONFIRMATION (set_in_data PKMN_BLANK trade)), 0).
Proof.
  intros Hp Hn.
  unfold tc_feed, getTradeCentreResponse, case_TRADE_PENDING.
  simpl. rewrite Hp. by case_tests.
Qed.

Lemma confirmation_accept trade :
  trade_centre_state trade = TRADE_CONFIRMATION ->
  tc_feed trade PKMN_TRADE_ACCEPT
    = Some (set_state TRADE_DONE (set_in_data PKMN_TRADE_ACCEPT trade), PKMN_TRADE_ACCEPT).
Proof.
  intros Hp. unfold tc_feed, getTradeCentreResponse.
  simpl. by rewrite Hp.
Qed.

Lemma confirmation_reject trade :
  trade_centre_state trade = TRADE_CONFIRMATION ->
  tc_feed trade PKMN_TRADE_REJECT
    = Some (set_status GAMEBOY_WAITING
              (set_state TRADE_SELECT (set_in_data PKMN_TRADE_REJECT trade)),
            PKMN_TRADE_REJECT).
Proof.
  intros Hp. unfold tc_feed, getTradeCentreResponse.
  simpl. by rewrite Hp.
Qed.

Lemma done_blank trade :
  trade_centre_state trade = TRADE_DONE ->
  tc_feed trade PKMN_BLANK
    = t ← trade_done_copy (set_in_data PKMN_BLANK trade); Some (t, PKMN_BLANK).
Proof.
  intros Hp. unfold tc_feed, getTradeCentreResponse.
  simpl. by rewrite Hp.
Qed.

Lemma tc_run_cons trade b bs t1 o1 :
  tc_feed trade b = Some (t1, o1) ->
  tc_run trade (b :: bs) = r ← tc_run t1 bs; Some (r.1, o1 :: r.2).
Proof. intros E. simpl. by rewrite E. Qed.

(** C1: in the pending phase, a selection byte for slot [k] (its bits 5 and
    6 set, its low nibble [k], [k] from 0 to 5), a blank, the accept byte
    0x62 and a blank are answered with 0x60, 0x00, 0x62 and 0x00 and leave
    the species byte, the creature record, the nickname and the trainer name
    of slot [k] of the scratch block in slot 0 of the local block.  The
    scratch block is as it was, and so is every byte of the local block
    outside slot 0. *)
Theorem select_accept_copies_slot trade k b :
  layout_ok L ->
  blen (trade_block trade) = sizeof_TradeBlock L ->
  blen (input_block trade) = sizeof_TradeBlock L ->
  trade_centre_state trade = TRADE_PENDING ->
  0 <= k <= 5 ->
  is_byte b ->
  Z.land b PKMN_SEL_NUM_MASK = PKMN_SEL_NUM_MASK ->
  Z.land b 0x0F = k ->
  exists trade',
    tc_run trade [b; PKMN_BLANK; PKMN_TRADE_ACCEPT; PKMN_BLANK]
      = Some (trade', [PKMN_SEL_NUM_ONE; PKMN_BLANK; PKMN_TRADE_ACCEPT; PKMN_BLANK])
    /\ trade_centre_state trade' = TRADE_RESET
    /\ gameboy_status trade' = GAMEBOY_TRADING
    /\ input_block trade' = input_block trade
    /\ slot_species L (trade_block trade') 0 = slot_species L (input_block trade) k
    /\ slot_record L (trade_block trade') 0 = slot_record L (input_block trade) k
    /\ slot_nickname L (trade_block trade') 0 = slot_nickname L (input_block trade) k
    /\ slot_ot_name L (trade_block trade') 0 = slot_ot_name L (input_block trade) k
    /\ (forall i, 0 <= i -> ~ in_slot0 L i ->
          load (trade_block trade') i = load (trade_block trade) i).
Proof.
  intros HL Htb Hib Hp Hk Hb Hm Hlow.
  assert (Hleave : b <> PKMN_TABLE_LEAVE).
  { intros ->. vm_compute in Hlow. lia. }
  assert (Hnz : b <> 0).
  { intros ->. vm_compute in Hm. done. }
  pose proof (pending_select trade b Hp Hleave Hm) as E1.
  match type of E1 with _ = Some (?t, _) => set (t1 := t) in * end.
  pose proof (pending_blank t1 Hp Hnz) as E2.
  match type of E2 with _ = Some (?t, _) => set (t2 := t) in * end.
  pose proof (confirmation_accept t2 eq_refl) as E3.
  match type of E3 with _ = Some (?t, _) => set (t3 := t) in * end.
  pose proof (done_blank t3 eq_refl) as E4.
  destruct (trade_done_copy_block (set_in_data PKMN_BLANK t3) HL)
    as (t' & E & Hp' & Hg' & Hib' & _ & _ & Hl' & Hcp); [done|done|simpl; lia|].
  rewrite E in E4. simpl in E4, Hib', Hl', Hcp. rewrite Hlow in Hcp.
  exists t'.
  rewrite (tc_run_cons _ _ _ _ _ E1), (tc_run_cons _ _ _ _ _ E2),
    (tc_run_cons _ _ _ _ _ E3), (tc_run_cons _ _ _ _ _ E4).
  clear E1 E2 E3 E4 E. clearbody t1 t2 t3.
  split; [done|]. split; [done|]. split; [done|]. split; [done|].
  pose proof (slot_offset_bounds _ _ Hk (lo_ps_pos L HL)).
  pose proof (slot_offset_bounds _ _ Hk (lo_nm_pos L HL)).
  destruct HL. unfold apart, party_size in *.
  set (sps := sizeof_pokemon_structure L) in *.
  set (sn := sizeof_name L) in *.
  split; [|split; [|split; [|split]]].
  - unfold slot_species. rewrite Z.add_0_r, Hcp by done. by case_decide.
  - unfold slot_record. fold sps. apply list_eq. intros j.
    rewrite !slice_load by lia. case_decide; [|done].
    rewrite Hcp by lia. fold sps.
    repeat case_decide; try (exfalso; lia). f_equal. lia.
  - unfold slot_nickname. fold sn. apply list_eq. intros j.
    rewrite !slice_load by lia. case_decide; [|done].
    rewrite Hcp by lia. fold sps sn.
    repeat case_decide; try (exfalso; lia). f_equal. lia.
  - unfold slot_ot_name. fold sn. apply list_eq. intros j.
    rewrite !slice_load by lia. case_decide; [|done].
    rewrite Hcp by lia. fold sps sn.
    repeat case_decide; try (exfalso; lia). f_equal. lia.
  - intros i Hi Hout. unfold in_slot0 in Hout. fold sps sn in Hout.
    rewrite Hcp by done. fold sps sn.
    repeat case_decide; try (exfalso; lia). done.
Qed.
End Properties.

(** ** The properties on the concrete session *)

Ltac gen1_ok := split; unfold apart, party_size, INT_MAX; simpl; lia.

(** The handlers on single bytes. *)

Example connect_master_answered_slave :
  getConnectResponse (set_in_data PKMN_MASTER (ex_machine TRADE_RESET GAMEBOY_CONN_FALSE 0 false))
    = (set_in_data PKMN_MASTER (ex_machine TRADE_RESET GAMEBOY_CONN_FALSE 0 false),
       PKMN_SLAVE).
Proof. reflexivity. Qed.

Example connect_connected :
  getConnectResponse
      (set_in_data PKMN_CONNECTED (ex_machine TRADE_RESET GAMEBOY_CONN_FALSE 0 false))
    = (set_status GAMEBOY_CONN_TRUE
         (set_in_data PKMN_CONNECTED (ex_machine TRADE_RESET GAMEBOY_CONN_FALSE 0 false)),
       PKMN_CONNECTED).
Proof. reflexivity. Qed.

Example menu_highlight_mirrored :
  (getMenuResponse
     (set_in_data ITEM_2_HIGHLIGHTED (ex_machine TRADE_RESET GAMEBOY_CONN_TRUE 0 false))).2
    = ITEM_2_HIGHLIGHTED.
Proof. reflexivity. Qed.

Example menu_colosseum_breaks_link :
  getMenuResponse
      (set_in_data PKMN_COLOSSEUM (ex_machine TRADE_RESET GAMEBOY_CONN_TRUE 0 false))
    = (set_status GAMEBOY_CONN_FALSE
         (set_in_data PKMN_COLOSSEUM (ex_machine TRADE_RESET GAMEBOY_CONN_TRUE 0 false)),
       PKMN_BREAK_LINK).
Proof. reflexivity. Qed.

Example init_selection_answered_leave :
  snd <$> ex_feed (ex_machine TRADE_INIT GAMEBOY_READY 0 false) 0x60
    = Some PKMN_TABLE_LEAVE.
Proof. reflexivity. Qed.

Example patch_data_sends_patch_list :
  snd <$> ex_feed (set_patch_list [0x11; 0x22; 0x33]
                     (ex_machine TRADE_PATCH_DATA GAMEBOY_WAITING 8 false)) 0
    = Some 0x22.
Proof. reflexivity. Qed.

Example done_copies_species :
  (fun r => curr_pokemon r.1) <$> ex_feed
      (set_in_pokemon_num 2 (ex_machine TRADE_DONE GAMEBOY_TRADE_PENDING 196 false)) 0
    = Some 114.
Proof. vm_compute. reflexivity. Qed.

(** A whole trade: the session above, then the accept byte and a blank. *)
Example session_trades_slot_0 :
  (fun r => (trade_centre_state r.1, gameboy_status r.1,
             slot_species gen1_layout (trade_block r.1) 0,
             slot_record gen1_layout (trade_block r.1) 0,
             slot_nickname gen1_layout (trade_block r.1) 0,
             slot_ot_name gen1_layout (trade_block r.1) 0)) <$>
    ex_run (ex_machine TRADE_RESET GAMEBOY_READY 0 false)
      (ex_session ++ [PKMN_TRADE_ACCEPT; PKMN_BLANK])
    = Some (TRADE_RESET, GAMEBOY_TRADING,
            slot_species gen1_layout (ex_block 7) 0,
            slot_record gen1_layout (ex_block 7) 0,
            slot_nickname gen1_layout (ex_block 7) 0,
            slot_ot_name gen1_layout (ex_block 7) 0).
Proof. vm_compute. reflexivity. Qed.

Example session_reaches_confirmation :
  (fun r => (trade_centre_state r.1, counter r.1, in_pokemon_num r.1)) <$>
    ex_run (ex_machine TRADE_RESET GAMEBOY_READY 0 false) ex_session
    = Some (TRADE_CONFIRMATION, 196, 0).
Proof. vm_compute. reflexivity. Qed.

Lemma select_accept_copies_slot_witness :
  exists trade',
    ex_run (ex_machine TRADE_PENDING GAMEBOY_WAITING 196 false)
      [0x63; PKMN_BLANK; PKMN_TRADE_ACCEPT; PKMN_BLANK]
      = Some (trade', [PKMN_SEL_NUM_ONE; PKMN_BLANK; PKMN_TRADE_ACCEPT; PKMN_BLANK])
    /\ trade_centre_state trade' = TRADE_RESET
    /\ input_block trade' = ex_block 100
    /\ slot_species gen1_layout (trade_block trade') 0
       = slot_species gen1_layout (ex_block 100) 3
    /\ slot_record gen1_layout (trade_block trade') 0
       = slot_record gen1_layout (ex_block 100) 3
    /\ slot_nickname gen1_layout (trade_block trade') 0
       = slot_nickname gen1_layout (ex_block 100) 3
    /\ slot_ot_name gen1_layout (trade_block trade') 0
       = slot_ot_name gen1_layout (ex_block 100) 3.
Proof.
  destruct (select_accept_copies_slot ex_plist_index_get ex_table_get_num gen1_layout
              (ex_machine TRADE_PENDING GAMEBOY_WAITING 196 false) 3 0x63)
    as (t' & E & Hp & _ & Hib & Hs & Hr & Hn & Ho & _).
  - gen1_ok.
  - vm_compute; reflexivity.
  - vm_compute; reflexivity.
  - reflexivity.
  - lia.
  - unfold is_byte; lia.
  - reflexivity.
  - reflexivity.
  - exists t'. repeat split; assumption.
Defined.

Lemma patch_data_byte_witness :
  exists trade' out,
    ex_feed (ex_machine TRADE_PATCH_DATA GAMEBOY_WAITING 20 false) 5 = Some (trade', out)
    /\ input_block trade'
       = <[Z.to_nat (off_party gen1_layout + (5 - 1)) := SERIAL_NO_DATA_BYTE]> (ex_block 100)
    /\ patched_at (party_region gen1_layout (ex_block 100))
         (party_region gen1_layout (input_block trade')) (5 - 1)
    /\ patch_pt_2 trade' = false.
Proof.
  destruct (patch_data_byte ex_plist_index_get ex_table_get_num gen1_layout
              (ex_machine TRADE_PATCH_DATA GAMEBOY_WAITING 20 false) 5)
    as (t' & out & E & _ & _ & _ & Hpatch).
  - gen1_ok.
  - reflexivity.
  - vm_compute; reflexivity.
  - reflexivity.
  - unfold INT_MAX; simpl; lia.
  - unfold is_byte; lia.
  - simpl. discriminate.
  - exists t', out. split; [exact E|]. apply Hpatch; lia.
Defined.

Lemma handshake_reaches_data_witness :
  exists trade' outs,
    ex_run (ex_machine TRADE_INIT GAMEBOY_READY 0 false)
      (([0x00; 0xFD; 0x7F] ++ replicate 8 SERIAL_PREAMBLE_BYTE)
         ++ [SERIAL_PREAMBLE_BYTE] ++ replicate 19 0x42)
      = Some (trade', outs)
    /\ trade_centre_state trade' = TRADE_DATA
    /\ counter trade' = 0.
Proof.
  apply (handshake_reaches_data ex_plist_index_get ex_table_get_num gen1_layout
           (ex_machine TRADE_INIT GAMEBOY_READY 0 false)
           ([0x00; 0xFD; 0x7F] ++ replicate 8 SERIAL_PREAMBLE_BYTE) (replicate 19 0x42));
    vm_compute; reflexivity.
Defined.

Lemma bulk_exchange_witness :
  exists trade',
    ex_run (ex_machine TRADE_DATA GAMEBOY_WAITING 0 false) (ex_block 7)
      = Some (trade', trade_block (ex_machine TRADE_DATA GAMEBOY_WAITING 0 false))
    /\ trade_centre_state trade' = TRADE_PATCH_HEADER
    /\ counter trade' = 0
    /\ input_block trade' = ex_block 7
    /\ trade_block trade' = trade_block (ex_machine TRADE_DATA GAMEBOY_WAITING 0 false).
Proof.
  refine (proj1 (bulk_exchange ex_plist_index_get ex_table_get_num gen1_layout
                   (ex_machine TRADE_DATA GAMEBOY_WAITING 0 false) (ex_block 7)
                   _ _ _ _ _ _));
    try (vm_compute; reflexivity).
  unfold INT_MAX; simpl; lia.
Defined.

Lemma patch_header_falls_through_witness :
  exists trade',
    ex_feed (ex_machine TRADE_PATCH_HEADER GAMEBOY_WAITING 5 false) SERIAL_PREAMBLE_BYTE
      = Some (trade', SERIAL_PREAMBLE_BYTE)
    /\ ex_feed (set_counter 0 (set_state TRADE_PATCH_DATA
                  (ex_machine TRADE_PATCH_HEADER GAMEBOY_WAITING 5 false)))
         SERIAL_PREAMBLE_BYTE
       = Some (trade', SERIAL_PREAMBLE_BYTE)
    /\ trade_centre_state trade' = TRADE_PATCH_DATA
    /\ counter trade' = 1
    /\ patched_at (party_region gen1_layout (ex_block 100))
         (party_region gen1_layout (input_block trade')) (SERIAL_PREAMBLE_BYTE - 1).
Proof.
  apply (patch_header_falls_through ex_plist_index_get ex_table_get_num gen1_layout
           (ex_machine TRADE_PATCH_HEADER GAMEBOY_WAITING 5 false)).
  - gen1_ok.
  - reflexivity.
  - vm_compute; reflexivity.
  - reflexivity.
  - reflexivity.
  - reflexivity.
Defined.

Lemma phase_transitions_witness :
  phase_transition TRADE_CONFIRMATION PKMN_TRADE_REJECT TRADE_SELECT
  /\ (TRADE_SELECT <> TRADE_CONFIRMATION ->
      counter_on_entry TRADE_CONFIRMATION TRADE_SELECT 196 196).
Proof.
  destruct (phase_transitions ex_plist_index_get ex_table_get_num gen1_layout
              (ex_machine TRADE_CONFIRMATION GAMEBOY_TRADE_PENDING 196 false)
              PKMN_TRADE_REJECT
              (set_status GAMEBOY_WAITING
                 (set_state TRADE_SELECT (set_in_data PKMN_TRADE_REJECT
                    (ex_machine TRADE_CONFIRMATION GAMEBOY_TRADE_PENDING 196 false))))
              PKMN_TRADE_REJECT)
    as (Hstep & Hcount & _).
  - reflexivity.
  - split; [exact Hstep|exact Hcount].
Defined.

Lemma pending_leave_table_witness :
  exists trade',
    ex_feed (ex_machine TRADE_PENDING GAMEBOY_TRADE_PENDING 196 true) PKMN_TABLE_LEAVE
      = Some (trade', PKMN_TABLE_LEAVE)
    /\ trade_centre_state trade' = TRADE_RESET
    /\ gameboy_status trade' = GAMEBOY_READY
    /\ forall b, exists trade'',
         ex_feed trade' b = Some (trade'', b)
         /\ trade_centre_state trade'' = TRADE_INIT
         /\ counter trade'' = 0
         /\ patch_pt_2 trade'' = false.
Proof.
  apply (pending_leave_table ex_plist_index_get ex_table_get_num gen1_layout
           (ex_machine TRADE_PENDING GAMEBOY_TRADE_PENDING 196 true)).
  reflexivity.
Defined.

Lemma input_clk_gameboy_idle_witness :
  input_clk_gameboy ex_plist_index_get ex_table_get_num gen1_layout ex_midbyte
      true true 100000 64
    = Some (set_time 100000 (set_shift 1 (set_in_data 1 ex_midbyte)), None)
  /\ input_clk_gameboy ex_plist_index_get ex_table_get_num gen1_layout ex_midbyte
       true true 100000 64
     = input_clk_gameboy ex_plist_index_get ex_table_get_num gen1_layout
         (set_shift 0 (set_in_data 0 ex_midbyte)) true true 100000 64.
Proof.
  apply (input_clk_gameboy_idle ex_plist_index_get ex_table_get_num gen1_layout
           ex_midbyte true 100000 64).
  vm_compute; reflexivity.
Defined.

Lemma pre_trade_frame_witness :
  exists trade' out,
    byte_response ex_plist_index_get ex_table_get_num gen1_layout
        (set_in_data ITEM_1_HIGHLIGHTED (ex_machine TRADE_RESET GAMEBOY_CONN_TRUE 0 false))
      = Some (trade', out)
    /\ trade_centre_state trade' = TRADE_RESET
    /\ counter trade' = 0
    /\ trade_block trade' = ex_block 0
    /\ input_block trade' = ex_block 100.
Proof.
  destruct (pre_trade_frame ex_plist_index_get ex_table_get_num gen1_layout
              (set_in_data ITEM_1_HIGHLIGHTED
                 (ex_machine TRADE_RESET GAMEBOY_CONN_TRUE 0 false)))
    as (t' & out & E & _ & Hp & Hc & _ & _ & Htb & Hib & _).
  - right. reflexivity.
  - exists t', out. repeat split; assumption.
Defined.

(** *** Where the code departs from the specification *)

(** After the terminator, the byte 13 addresses position 0x108 from the
    start of the party region, one past its last byte: the party region is
    left as it was and the 0xFE lands on the first byte of the trainer names
    that follow.  From 145 on, the position is past the end of the block. *)
Lemma patch_part2_outside_party :
  (exists trade' out,
      ex_feed (ex_machine TRADE_PATCH_DATA GAMEBOY_WAITING 20 true) 13 = Some (trade', out)
      /\ ~ patched_at (party_region gen1_layout (ex_block 100))
             (party_region gen1_layout (input_block trade')) (0xFB + 13)
      /\ party_region gen1_layout (input_block trade')
         = party_region gen1_layout (ex_block 100)
      /\ load (ex_block 100) (off_ot_name gen1_layout) = Some 127
      /\ load (input_block trade') (off_ot_name gen1_layout) = Some SERIAL_NO_DATA_BYTE)
  /\ ex_feed (ex_machine TRADE_PATCH_DATA GAMEBOY_WAITING 20 true) 145 = None.
Proof.
  split; [|vm_compute; reflexivity].
  eexists _, _. split; [vm_compute; reflexivity|].
  split; [|split; [vm_compute; reflexivity|split; vm_compute; reflexivity]].
  intros (Hrange & _). vm_compute in Hrange. destruct Hrange as [_ Hlt]. discriminate Hlt.
Qed.

(** A session that has reached the confirmation phase is taken back to
    the selection phase by a reject: a backward step to a phase other than
    the first, with the counter still at the 196 of the patch-data phase. *)
Lemma reject_steps_back :
  exists trade outs trade',
    ex_run (ex_machine TRADE_RESET GAMEBOY_READY 0 false) ex_session = Some (trade, outs)
    /\ reachable ex_plist_index_get ex_table_get_num gen1_layout trade
    /\ trade_centre_state trade = TRADE_CONFIRMATION
    /\ ex_feed trade PKMN_TRADE_REJECT = Some (trade', PKMN_TRADE_REJECT)
    /\ trade_centre_state trade' = TRADE_SELECT
    /\ ~ forward_or_reset (trade_centre_state trade) (trade_centre_state trade')
    /\ counter trade' = 196.
Proof.
  eexists _, _, _.
  split; [vm_compute; reflexivity|].
  split.
  { eapply (reachable_run ex_plist_index_get ex_table_get_num gen1_layout
              (ex_machine TRADE_RESET GAMEBOY_READY 0 false) ex_session).
    - apply reachable_enter; vm_compute; reflexivity.
    - apply (bool_decide_unpack _). vm_compute. exact I.
    - vm_compute; reflexivity. }
  split; [vm_compute; reflexivity|].
  split; [vm_compute; reflexivity|].
  split; [vm_compute; reflexivity|].
  split; [|vm_compute; reflexivity].
  vm_compute. intros [H|H]; [apply H; reflexivity|discriminate H].
Qed.

(** In the random-seed phase a leave-table byte is one more byte counted:
    the phase, the count and the status go on as with any other byte. *)
Lemma random_counts_leave_table :
  exists trade' outs,
    ex_run (ex_machine TRADE_RESET GAMEBOY_READY 0 false)
      ([PKMN_BLANK] ++ replicate 10 SERIAL_PREAMBLE_BYTE ++ [0; 0; 0] ++ [PKMN_TABLE_LEAVE])
      = Some (trade', outs)
    /\ trade_centre_state trade' = TRADE_RANDOM
    /\ counter trade' = 4
    /\ gameboy_status trade' = GAMEBOY_WAITING.
Proof. eexists _, _. split; [vm_compute; reflexivity|]. repeat split. Qed.

(** A rising edge after an idle gap in the middle of a byte: the input
    accumulator and the bit counter start afresh, the output accumulator
    still holds what was left of the byte being sent. *)
Lemma idle_edge_keeps_out_data :
  (64 * 500) `mod` UINT32_MOD < (100000 - time ex_midbyte) `mod` UINT32_MOD
  /\ out_data ex_midbyte = 0x80
  /\ exists trade',
       input_clk_gameboy ex_plist_index_get ex_table_get_num gen1_layout ex_midbyte
         true true 100000 64 = Some (trade', None)
       /\ in_data trade' = 1
       /\ shift trade' = 1
       /\ out_data trade' = 0x80.
Proof.
  split; [vm_compute; reflexivity|]. split; [reflexivity|].
  eexists. split; [vm_compute; reflexivity|]. repeat split.
Qed.

(** ** Further properties of the handlers *)

(** *** Role negotiation and menu *)

Section Negotiation.
Context {PL : Type}.
Variable plist_index_get : PL -> Z -> Z.
Variable plist_create : list Z -> PL.
Variable pokemon_table_get_num_from_index : Z -> Z.
Variable L : layout.
Implicit Type trade : machine PL.

Local Abbreviation tc_feed := (tc_feed plist_index_get pokemon_table_get_num_from_index L).
Local Abbreviation tc_run := (tc_run plist_index_get pokemon_table_get_num_from_index L).
Local Abbreviation byte_response :=
  (byte_response plist_index_get pokemon_table_get_num_from_index L).
Local Abbreviation recv_byte := (recv_byte plist_index_get pokemon_table_get_num_from_index L).
Local Abbreviation recv_run := (recv_run plist_index_get pokemon_table_get_num_from_index L).

Lemma same_session_refl trade : same_session trade trade.
Proof. by repeat split. Qed.

Lemma same_session_trans (t1 t2 t3 : machine PL) :
  same_session t1 t2 -> same_session t2 t3 -> same_session t1 t3.
Proof. unfold same_session. intros. intuition congruence. Qed.

Lemma recv_run_cons trade b bs t1 o1 :
  recv_byte trade b = Some (t1, o1) ->
  recv_run trade (b :: bs) = r ← recv_run t1 bs; Some (r.1, o1 :: r.2).
Proof. intros E. simpl. by rewrite E. Qed.

(** One byte of the role negotiation. *)
Lemma recv_byte_not_connected trade b :
  gameboy_status trade = GAMEBOY_CONN_FALSE ->
  b <> PKMN_CONNECTED ->
  exists trade',
    recv_byte trade b = Some (trade', connect_answer b)
    /\ gameboy_status trade' = GAMEBOY_CONN_FALSE
    /\ same_session trade trade'.
Proof.
  intros Hs Hb. unfold recv_byte, byte_response, getConnectResponse, connect_answer.
  simpl. rewrite Hs. case_tests; try done;
    (eexists; split; [reflexivity|]; split; [done|by repeat split]).
Qed.

(** X1: while the status is not-connected, a run of completed bytes none
    of which is the connected marker 0x60 is answered byte by byte (0x02 to
    the master byte 0x01, 0x00 to a blank, 0xD6 to anything else), the
    status stays not-connected and the session is untouched; the marker
    0x60 that follows is answered 0x60 and makes the status connected. *)
Theorem not_connected_until_connected_byte trade bs :
  gameboy_status trade = GAMEBOY_CONN_FALSE ->
  Forall (fun b => b <> PKMN_CONNECTED) bs ->
  exists trade',
    recv_run trade bs = Some (trade', connect_answer <$> bs)
    /\ gameboy_status trade' = GAMEBOY_CONN_FALSE
    /\ same_session trade trade'
    /\ exists trade'',
         recv_byte trade' PKMN_CONNECTED = Some (trade'', PKMN_CONNECTED)
         /\ gameboy_status trade'' = GAMEBOY_CONN_TRUE
         /\ same_session trade trade''.
Proof.
  intros Hs Hbs. revert trade Hs.
  induction Hbs as [|b bs Hb Hbs IH]; intros trade Hs.
  - exists trade. split; [done|]. split; [done|]. split; [apply same_session_refl|].
    unfold recv_byte, byte_response, getConnectResponse. simpl. rewrite Hs. simpl.
    eexists. split; [reflexivity|]. split; [done|]. by repeat split.
  - destruct (recv_byte_not_connected trade b Hs Hb) as (t1 & E1 & Hs1 & Hss1).
    destruct (IH t1 Hs1) as (t2 & E2 & Hs2 & Hss2 & t3 & E3 & Hs3 & Hss3).
    exists t2. rewrite (recv_run_cons _ _ _ _ _ E1), E2. simpl.
    split; [done|]. split; [done|].
    split; [by eapply same_session_trans|].
    exists t3. split; [done|]. split; [done|]. by eapply same_session_trans.
Qed.

Lemma recv_byte_menu_mirror trade b :
  gameboy_status trade = GAMEBOY_CONN_TRUE ->
  ~ menu_special b ->
  exists trade',
    recv_byte trade b = Some (trade', b)
    /\ gameboy_status trade' = GAMEBOY_CONN_TRUE
    /\ same_session trade trade'.
Proof.
  intros Hs Hb. unfold menu_special in Hb.
  unfold recv_byte, byte_response, getMenuResponse. simpl. rewrite Hs.
  case_tests; subst; simpl; try (exfalso; tauto);
    (eexists; split; [reflexivity|]; split; [done|by repeat split]).
Qed.

(** X2: while the status is connected, a run of completed bytes none of
    which is a trade-centre, colosseum, break-link or master byte is sent
    back byte for byte; the status stays connected and the session is
    untouched. *)
Theorem menu_run_mirrors trade bs :
  gameboy_status trade = GAMEBOY_CONN_TRUE ->
  Forall (fun b => ~ menu_special b) bs ->
  exists trade',
    recv_run trade bs = Some (trade', bs)
    /\ gameboy_status trade' = GAMEBOY_CONN_TRUE
    /\ same_session trade trade'.
Proof.
  intros Hs Hbs. revert trade Hs.
  induction Hbs as [|b bs Hb Hbs IH]; intros trade Hs.
  - exists trade. split; [done|]. split; [done|]. apply same_session_refl.
  - destruct (recv_byte_menu_mirror trade b Hs Hb) as (t1 & E1 & Hs1 & Hss1).
    destruct (IH t1 Hs1) as (t2 & E2 & Hs2 & Hss2).
    exists t2. rewrite (recv_run_cons _ _ _ _ _ E1), E2. simpl.
    split; [done|]. split; [done|]. by eapply same_session_trans.
Qed.

(** X3: while the status is connected, a colosseum, break-link or master
    byte is answered with the break-link byte 0xD6 and takes the status back
    to not-connected, where the master byte that follows is answered with
    the slave byte 0x02 by the role negotiation. *)
Theorem menu_break_returns_to_negotiation trade b :
  gameboy_status trade = GAMEBOY_CONN_TRUE ->
  b = PKMN_COLOSSEUM \/ b = PKMN_BREAK_LINK \/ b = PKMN_MASTER ->
  exists trade',
    recv_run trade [b; PKMN_MASTER] = Some (trade', [PKMN_BREAK_LINK; PKMN_SLAVE])
    /\ gameboy_status trade' = GAMEBOY_CONN_FALSE
    /\ same_session trade trade'.
Proof.
  intros Hs Hb.
  unfold recv_run, recv_byte, byte_response, getMenuResponse, getConnectResponse.
  simpl. rewrite Hs.
  destruct Hb as [-> | [-> | ->]]; simpl;
    (eexists; split; [reflexivity|]; split; [done|by repeat split]).
Qed.

(** One byte at the trade table never takes the status back to
    not-connected or connected. *)
Lemma tc_feed_status trade b trade' out :
  tc_feed trade b = Some (trade', out) ->
  gameboy_status trade' = gameboy_status trade
  \/ 2 <= status_rank (gameboy_status trade').
Proof.
  unfold tc_feed, getTradeCentreResponse, case_TRADE_PATCH_DATA, case_TRADE_PENDING,
    trade_done_copy.
  simpl. intros H.
  destruct (trade_centre_state trade); simpl in H; step_inv; simpl; auto;
    try (right; simpl; lia).
  all: destruct (patch_pt_2 trade); simpl in *; step_inv; simpl; auto.
Qed.

(** X4: once the status is ready or beyond, no run of completed bytes
    takes it back to not-connected or connected: the trade-centre handler
    only moves it among ready, waiting, pending and trading. *)
Theorem ready_stays_at_table trade bs trade' outs :
  2 <= status_rank (gameboy_status trade) ->
  recv_run trade bs = Some (trade', outs) ->
  2 <= status_rank (gameboy_status trade').
Proof.
  revert trade outs.
  induction bs as [|b bs IH]; intros trade outs Hs H; simpl in H.
  - by simplify_eq.
  - destruct (recv_byte trade b) as [[t1 o1]|] eqn:E1; simpl in H; [|done].
    destruct (recv_run t1 bs) as [[t2 o2]|] eqn:E2; simpl in H; [|done].
    simplify_eq. eapply IH; [|exact E2].
    unfold recv_byte, byte_response in E1. simpl in E1.
    destruct (gameboy_status trade) eqn:Hg; simpl in Hs; try lia;
      match type of E1 with
      | (?m ≫= _) = _ => destruct m as [[t o]|] eqn:E; simpl in E1; [|done]
      end;
      simplify_eq; simpl;
      apply tc_feed_status in E; simpl in E; rewrite Hg in E;
      destruct E as [-> | E]; simpl; lia.
Qed.
End Negotiation.


(** *** Clock periods *)

Lemma foldl_bits acc (bits : list bool) :
  foldl (fun a (b : bool) => 2 * a + Z.b2z b) acc bits
    = acc * 2 ^ Z.of_nat (length bits) + byte_of_bits bits.
Proof.
  unfold byte_of_bits. revert acc.
  induction bits as [|b bits IH]; intros acc; simpl foldl.
  - simpl. lia.
  - rewrite IH, (IH (2 * 0 + Z.b2z b)).
    replace (Z.of_nat (length (b :: bits))) with (Z.of_nat (length bits) + 1)
      by (simpl; lia).
    rewrite Z.pow_add_r by lia. lia.
Qed.

Lemma byte_of_bits_cons b bits :
  byte_of_bits (b :: bits) = Z.b2z b * 2 ^ Z.of_nat (length bits) + byte_of_bits bits.
Proof. unfold byte_of_bits at 1. simpl foldl. rewrite foldl_bits. lia. Qed.

Lemma byte_of_bits_snoc bits b :
  byte_of_bits (bits ++ [b]) = 2 * byte_of_bits bits + Z.b2z b.
Proof. unfold byte_of_bits. by rewrite foldl_app. Qed.

Lemma byte_of_bits_range bits :
  0 <= byte_of_bits bits < 2 ^ Z.of_nat (length bits).
Proof.
  induction bits as [|b bits IH] using rev_ind.
  - unfold byte_of_bits. simpl. lia.
  - rewrite byte_of_bits_snoc, length_app. simpl.
    replace (Z.of_nat (length bits + 1)) with (Z.of_nat (length bits) + 1) by lia.
    rewrite Z.pow_add_r by lia. destruct b; simpl; lia.
Qed.

(** The top bit of a byte, as the falling edge reads it. *)
Lemma top_bit (b : bool) r :
  0 <= r < 128 -> negb (Z.land (Z.b2z b * 128 + r) 0x80 =? 0) = b.
Proof.
  intros Hr. set (x := Z.b2z b * 128 + r).
  assert (Hb : Z.testbit x 7 = b).
  { pose proof (Z.testbit_spec' x 7 ltac:(lia)) as Hsp. subst x.
    change (2 ^ 7) with 128 in Hsp. rewrite Z.div_add_l in Hsp by lia.
    rewrite (Z.div_small r) in Hsp by lia.
    destruct b, (Z.testbit _ 7); simpl in Hsp; done. }
  destruct (Z.eqb_spec (Z.land x 128) 0) as [E|E]; simpl.
  - assert (Z.testbit (Z.land x 128) 7 = false) by (rewrite E; apply Z.bits_0).
    rewrite Z.land_spec, Hb in H. change 128 with (2 ^ 7) in H.
    rewrite Z.pow2_bits_true in H by lia. by destruct b.
  - destruct b; [done|]. exfalso. apply E. apply Z.bits_inj'. intros n Hn.
    rewrite Z.land_spec, Z.bits_0.
    destruct (decide (n = 7)) as [->|Hne]; [by rewrite Hb|].
    change 128 with (2 ^ 7). rewrite Z.pow2_bits_false by lia. apply andb_false_r.
Qed.

Section Clock.
Context {PL : Type}.
Variable plist_index_get : PL -> Z -> Z.
Variable pokemon_table_get_num_from_index : Z -> Z.
Variable L : layout.
Implicit Type trade : machine PL.

Local Abbreviation byte_response :=
  (byte_response plist_index_get pokemon_table_get_num_from_index L).
Local Abbreviation transferBit :=
  (transferBit plist_index_get pokemon_table_get_num_from_index L).
Local Abbreviation input_clk_gameboy :=
  (input_clk_gameboy plist_index_get pokemon_table_get_num_from_index L).
Local Abbreviation recv_byte := (recv_byte plist_index_get pokemon_table_get_num_from_index L).
Local Abbreviation clock_bit := (clock_bit plist_index_get pokemon_table_get_num_from_index L).
Local Abbreviation clock_bits := (clock_bits plist_index_get pokemon_table_get_num_from_index L).

Lemma rising_in_step trade si cyccnt ipus :
  in_step trade cyccnt ipus ->
  input_clk_gameboy trade true si cyccnt ipus
    = t ← transferBit trade si; Some (set_time cyccnt t, None).
Proof.
  intros Hst. unfold input_clk_gameboy. simpl.
  destruct (Z.ltb_spec ((ipus * 500) `mod` UINT32_MOD)
              ((cyccnt - time trade) `mod` UINT32_MOD)) as [Hgap|Hno]; [|done].
  destruct Hst as [Hle|[Hs Hi]]; [lia|].
  replace (set_shift 0 (set_in_data 0 trade)) with trade; [done|].
  destruct trade; simpl in *; by subst.
Qed.

Lemma out_shift ob rest :
  length rest = 7%nat ->
  negb (Z.land (byte_of_bits (ob :: rest)) 0x80 =? 0) = ob
  /\ Z.shiftl (byte_of_bits (ob :: rest)) 1 `mod` 256 = byte_of_bits (rest ++ [false]).
Proof.
  intros Hl. pose proof (byte_of_bits_range rest) as Hr.
  rewrite byte_of_bits_cons, byte_of_bits_snoc, Hl in *.
  change (2 ^ Z.of_nat 7) with 128 in *. split; [by apply top_bit|].
  rewrite Z.shiftl_mul_pow2 by lia. change (2 ^ 1) with 2.
  replace ((Z.b2z ob * 128 + byte_of_bits rest) * 2)
    with (2 * byte_of_bits rest + Z.b2z ob * 256) by lia.
  rewrite Z.mod_add by lia. rewrite Z.mod_small by lia. simpl. lia.
Qed.

Lemma clock_bit_falling trade si cyccnt ipus :
  clock_bit trade si cyccnt ipus
    = r ← input_clk_gameboy
            (set_out_data (Z.shiftl (out_data trade) 1 `mod` 256) trade) true si cyccnt ipus;
      Some (r.1, Some (negb (Z.land (out_data trade) 0x80 =? 0))).
Proof. reflexivity. Qed.

(** One clock period in the middle of a byte. *)
Lemma clock_bit_shift_in trade si cyccnt ipus ob rest :
  0 <= shift trade < 7 -> 0 <= in_data trade < 128 ->
  out_data trade = byte_of_bits (ob :: rest) -> length rest = 7%nat ->
  in_step trade cyccnt ipus ->
  clock_bit trade si cyccnt ipus
    = Some (set_time cyccnt
              (set_shift (shift trade + 1)
                 (set_in_data (2 * in_data trade + Z.b2z si)
                    (set_out_data (byte_of_bits (rest ++ [false])) trade))),
            Some ob).
Proof.
  intros Hs Hi Ho Hl Hst. rewrite clock_bit_falling.
  destruct (out_shift ob rest Hl) as [Htop Hsh]. rewrite Ho, Htop, Hsh.
  rewrite rising_in_step by (destruct Hst; [left|right]; simpl; done).
  rewrite transferBit_shift_in by done. simpl. done.
Qed.

(** The eighth clock period: the byte goes to the handler. *)
Lemma clock_bit_complete trade si cyccnt ipus ob rest :
  shift trade = 7 -> 0 <= in_data trade < 128 ->
  out_data trade = byte_of_bits (ob :: rest) -> length rest = 7%nat ->
  (cyccnt - time trade) `mod` UINT32_MOD <= (ipus * 500) `mod` UINT32_MOD ->
  clock_bit trade si cyccnt ipus
    = r ← byte_response
            (set_shift 0 (set_in_data (2 * in_data trade + Z.b2z si)
               (set_out_data (byte_of_bits (rest ++ [false])) trade)));
      Some (set_time cyccnt (set_in_data 0 (set_out_data r.2 r.1)), Some ob).
Proof.
  intros Hs Hi Ho Hl Hst. rewrite clock_bit_falling.
  destruct (out_shift ob rest Hl) as [Htop Hsh]. rewrite Ho, Htop, Hsh.
  rewrite rising_in_step by (left; done).
  rewrite transferBit_complete by done. simpl.
  by destruct (byte_response _) as [[??]|].
Qed.

Lemma shift_regs_absorb trade a b c d a' b' c' d' :
  set_time a (set_shift b (set_in_data c (set_out_data d
    (set_time a' (set_shift b' (set_in_data c' (set_out_data d' trade)))))))
  = set_time a (set_shift b (set_in_data c (set_out_data d trade))).
Proof. by destruct trade. Qed.

Lemma shift_regs_eq trade a b c d a' b' c' d' :
  a = a' -> b = b' -> c = c' -> d = d' ->
  set_time a (set_shift b (set_in_data c (set_out_data d trade)))
  = set_time a' (set_shift b' (set_in_data c' (set_out_data d' trade))).
Proof. by intros -> -> -> ->. Qed.

(** The first clock periods of a byte, up to the seventh. *)
Lemma clock_bits_shift_in ipus (es : list (bool * Z)) : forall trade (obits tl : list bool),
  length obits = length es ->
  (length obits + length tl = 8)%nat ->
  out_data trade = byte_of_bits (obits ++ tl) ->
  0 <= shift trade -> shift trade + Z.of_nat (length es) <= 7 ->
  0 <= in_data trade < 2 ^ shift trade ->
  match es with
  | [] => True
  | e :: es' => in_step trade e.2 ipus /\ steady ((ipus * 500) `mod` UINT32_MOD) e.2 es'.*2
  end ->
  clock_bits trade es ipus
    = Some (set_time (default (time trade) (last es.*2))
              (set_shift (shift trade + Z.of_nat (length es))
                 (set_in_data (in_data trade * 2 ^ Z.of_nat (length es) + byte_of_bits es.*1)
                    (set_out_data (byte_of_bits (tl ++ replicate (length es) false)) trade))),
            Some <$> obits).
Proof.
  induction es as [|[si c] es IH]; intros trade obits tl Hlo Hl8 Ho Hs Hse Hi Hst.
  - destruct obits; [|done]. simpl in *.
    rewrite app_nil_r, <- Ho. unfold byte_of_bits. simpl.
    do 2 f_equal. destruct trade. unfold set_time, set_shift, set_in_data, set_out_data.
    simpl. f_equal; lia.
  - destruct obits as [|ob obits]; [done|]. simpl in Hlo, Hl8, Ho, Hse, Hst.
    destruct Hst as [Hin Hsteady].
    assert (2 ^ shift trade <= 2 ^ 6) by (apply Z.pow_le_mono_r; lia).
    cbn [clock_bits fst snd].
    rewrite (clock_bit_shift_in trade si c ipus ob (obits ++ tl));
      [|lia|lia|done|rewrite length_app; lia|done].
    cbn [mbind option_bind fst snd].
    rewrite (IH _ obits (tl ++ [false]));
      cbn [shift in_data out_data time set_time set_shift set_in_data set_out_data
           length fmap list_fmap fst snd mbind option_bind].
    + f_equal. f_equal. rewrite shift_regs_absorb.
      apply shift_regs_eq.
      * rewrite last_cons. by destruct (last es.*2).
      * lia.
      * rewrite byte_of_bits_cons, length_fmap, Nat2Z.inj_succ, Z.pow_succ_r by lia. ring.
      * f_equal. rewrite <- app_assoc. done.
    + lia.
    + rewrite length_app. simpl. lia.
    + by rewrite <- app_assoc.
    + lia.
    + lia.
    + rewrite Z.pow_add_r by lia. change (2 ^ 1) with 2. destruct si; simpl; lia.
    + destruct es as [|[si' c'] es]; [done|]. simpl in *. destruct Hsteady as [Hle Hst'].
      split; [by left|done].
Qed.
(** No handler reads or writes the time of the last rising edge. *)
Lemma byte_response_time trade x :
  byte_response (set_time x trade)
    = r ← byte_response trade; Some (set_time x r.1, r.2).
Proof.
  destruct trade as [p i o sh tb ib pl g le cp pt2 c n tm pd].
  unfold byte_response, getConnectResponse, getMenuResponse, getTradeCentreResponse,
    case_TRADE_PATCH_DATA, case_TRADE_PENDING, trade_done_copy, incr_int.
  cbn [gameboy_status trade_centre_state in_data counter patch_pt_2 in_pokemon_num
       input_block trade_block patch_list plist_pending set_time set_state set_status
       set_counter set_patch_pt_2 set_in_pokemon_num set_input_block set_trade_block
       set_curr_pokemon set_plist_pending out_data shift ledon curr_pokemon time].
  destruct g; [by case_tests|by case_tests|..];
    (destruct p; cbn;
     repeat first
       [ done
       | match goal with
         | |- context [Z.eqb ?a ?b] => destruct (Z.eqb a b)
         | |- context [Z.ltb ?a ?b] => destruct (Z.ltb a b)
         | |- context [negb ?a] => destruct a
         | |- context [store ?a ?b ?c] => destruct (store a b c)
         | |- context [load ?a ?b] => destruct (load a b)
         | |- context [memcpy ?a ?b ?c ?d ?e] => destruct (memcpy a b c d e)
         end; cbn ]).
Qed.

Lemma clock_bits_snoc trade es e ipus t1 o1 :
  clock_bits trade es ipus = Some (t1, o1) ->
  clock_bits trade (es ++ [e]) ipus
    = r ← clock_bit t1 e.1 e.2 ipus; Some (r.1, o1 ++ [r.2]).
Proof.
  revert trade t1 o1. induction es as [|e' es IH]; intros trade t1 o1 H; simpl in *.
  - simplify_eq. by destruct (clock_bit _ _ _ _) as [[??]|].
  - destruct (clock_bit trade _ _ _) as [[ta oa]|]; simpl in *; [|done].
    destruct (clock_bits ta es ipus) as [[tb ob]|] eqn:E; simpl in *; [|done].
    simplify_eq. rewrite (IH _ _ _ E).
    by destruct (clock_bit _ _ _ _) as [[??]|].
Qed.

Lemma steady_snoc ticks t0 ts t :
  steady ticks t0 (ts ++ [t]) ->
  steady ticks t0 ts /\ (t - default t0 (last ts)) `mod` UINT32_MOD <= ticks.
Proof.
  revert t0. induction ts as [|t' ts IH]; intros t0; simpl.
  - tauto.
  - intros [Hle Hst]. destruct (IH _ Hst) as [Hst' Hl].
    split; [done|]. rewrite last_cons. by destruct (last ts).
Qed.

End Clock.


Section Wrap.
Context {PL : Type}.
Variable plist_index_get : PL -> Z -> Z.
Variable pokemon_table_get_num_from_index : Z -> Z.
Variable L : layout.
Implicit Type trade : machine PL.

Local Abbreviation transferBit :=
  (transferBit plist_index_get pokemon_table_get_num_from_index L).
Local Abbreviation input_clk_gameboy :=
  (input_clk_gameboy plist_index_get pokemon_table_get_num_from_index L).

(** X7: the desync test compares the cycles elapsed since the last rising
    edge, also when the 32-bit cycle counter has wrapped around in between:
    an edge [d] cycles after the recorded time resets the bit counter and
    the input accumulator exactly when [d] exceeds the threshold. *)
Theorem desync_gap_across_wrap trade si d ipus :
  0 <= time trade < UINT32_MOD ->
  0 <= d < UINT32_MOD ->
  let cyccnt := (time trade + d) `mod` UINT32_MOD in
  input_clk_gameboy trade true si cyccnt ipus
    = t ← transferBit (if (ipus * 500) `mod` UINT32_MOD <? d
                       then set_shift 0 (set_in_data 0 trade) else trade) si;
      Some (set_time cyccnt t, None).
Proof.
  intros Ht Hd cyccnt. unfold input_clk_gameboy. cbn [negb].
  assert (Hgap : (cyccnt - time trade) `mod` UINT32_MOD = d).
  { subst cyccnt. rewrite Zminus_mod_idemp_l.
    replace (time trade + d - time trade) with d by lia.
    apply Z.mod_small. done. }
  rewrite Hgap. done.
Qed.
End Wrap.


(** *** Invariants of a session *)

Section Session.
Context {PL : Type}.
Variable plist_index_get : PL -> Z -> Z.
Variable plist_create : list Z -> PL.
Variable pokemon_table_get_num_from_index : Z -> Z.
Variable L : layout.
Implicit Type trade : machine PL.

Local Abbreviation tc_feed := (tc_feed plist_index_get pokemon_table_get_num_from_index L).
Local Abbreviation tc_run := (tc_run plist_index_get pokemon_table_get_num_from_index L).
Local Abbreviation reachable := (reachable plist_index_get pokemon_table_get_num_from_index L).
Local Abbreviation trade_done_copy :=
  (trade_done_copy pokemon_table_get_num_from_index L).
Local Abbreviation getTradeCentreResponse :=
  (getTradeCentreResponse plist_index_get pokemon_table_get_num_from_index L).

Lemma store_blen (m : list Z) i v r : store m i v = Some r -> blen r = blen m.
Proof. intros H. apply store_inv in H as [_ ->]. apply blen_insert. Qed.

Lemma land_nibble x : 0 <= Z.land x 0x0F <= 15.
Proof.
  change (Z.land x 15) with (Z.land x (Z.ones 4)). rewrite Z.land_ones by lia.
  change (2 ^ 4) with 16. pose proof (Z.mod_pos_bound x 16). lia.
Qed.

Lemma trade_done_copy_blen trade trade' :
  trade_done_copy trade = Some trade' ->
  blen (trade_block trade') = blen (trade_block trade)
  /\ input_block trade' = input_block trade.
Proof.
  unfold trade_done_copy. intros H. simpl in H.
  destruct (load _ _) as [sp|]; simpl in H; [|done].
  destruct (store _ _ _) as [tb1|] eqn:E1; simpl in H; [|done].
  destruct (memcpy tb1 _ _ _ _) as [tb2|] eqn:E2; simpl in H; [|done].
  destruct (memcpy tb2 _ _ _ _) as [tb3|] eqn:E3; simpl in H; [|done].
  destruct (memcpy tb3 _ _ _ _) as [tb4|] eqn:E4; simpl in H; [|done].
  destruct (load tb4 _) as [sp0|]; simpl in H; [|done].
  injection H as <-. simpl. split; [|done].
  apply memcpy_length in E2, E3, E4. apply store_blen in E1. congruence.
Qed.

Lemma case_TRADE_PATCH_DATA_blen trade send trade' out :
  case_TRADE_PATCH_DATA plist_index_get L trade send = Some (trade', out) ->
  blen (input_block trade') = blen (input_block trade)
  /\ trade_block trade' = trade_block trade.
Proof.
  unfold case_TRADE_PATCH_DATA. intros H.
  destruct (incr_int (counter trade)) as [c|]; simpl in H; [|done].
  match type of H with
  | (?m ≫= _) = _ => destruct m as [t1|] eqn:E1; simpl in H; [|done]
  end.
  assert (blen (input_block t1) = blen (input_block trade)
          /\ trade_block t1 = trade_block trade) as [Hi Ht].
  { revert E1. case_tests; intros E1'; simplify_eq; auto.
    all: destruct (patch_pt_2 _); simpl in E1';
      match type of E1' with
      | (?m ≫= _) = _ => destruct m eqn:Es; simpl in E1'; simplify_eq
      end; simpl.
    all: split; [by eapply store_blen|done]. }
  revert H. case_tests; intros Hr; simplify_eq; simpl; auto.
Qed.

(** One byte keeps the invariant. *)
Lemma session_inv_feed trade b trade' out :
  layout_ok L ->
  session_inv L trade ->
  tc_feed trade b = Some (trade', out) ->
  session_inv L trade'.
Proof.
  intros HL (Htb & Hib & Hph) H.
  pose proof (lo_pm_pos L HL). pose proof (lo_pm_end L HL).
  unfold session_inv.
  unfold tc_feed, getTradeCentreResponse in H. simpl in H.
  destruct (trade_centre_state trade) eqn:Hp.
  - (* TRADE_RESET *)
    simplify_eq. simpl. consts. repeat split; auto; lia.
  - (* TRADE_INIT *)
    destruct Hph as [Hc Hpt]. step_inv; simpl in *; rewrite ?Hp; simpl;
      repeat split; auto; consts; lia.
  - (* TRADE_RANDOM *)
    destruct Hph as [Hc Hpt]. step_inv; simpl in *; rewrite ?Hp; simpl;
      repeat split; auto; consts; lia.
  - (* TRADE_DATA *)
    destruct Hph as [Hc Hpt].
    destruct (store _ _ _) as [ib|] eqn:Es; simpl in H; [|done].
    apply store_blen in Es.
    step_inv; simpl in *; rewrite ?Hp; simpl; repeat split; auto; try congruence; lia.
  - (* TRADE_PATCH_HEADER *)
    destruct Hph as [Hc Hpt].
    match type of H with
    | (?m ≫= _) = _ => destruct m as [c|] eqn:Ec; simpl in H; [|done]
    end.
    assert (Hc' : 0 <= c <= 6).
    { destruct (b =? SERIAL_PREAMBLE_BYTE);
        [apply incr_int_inv in Ec|injection Ec as <-]; lia. }
    destruct (Z.eqb_spec c 6) as [->|Hne].
    + pose proof (case_TRADE_PATCH_DATA_phase _ _ _ _ _ _ H) as [Hc1 Hp1].
      pose proof (case_TRADE_PATCH_DATA_blen _ _ _ _ H) as [Hi1 Ht1].
      simpl in *. destruct Hp1 as [Hp1|[_ Hp1]]; [|lia].
      rewrite Hp1. repeat split; try congruence; lia.
    + simplify_eq. simpl. rewrite Hp. repeat split; auto; lia.
  - (* TRADE_PATCH_DATA *)
    pose proof (case_TRADE_PATCH_DATA_phase _ _ _ _ _ _ H) as [Hc1 Hp1].
    pose proof (case_TRADE_PATCH_DATA_blen _ _ _ _ H) as [Hi1 Ht1].
    simpl in *.
    destruct Hp1 as [Hp1|[Hp1 Hc2]]; rewrite Hp1, ?Hp; repeat split; try congruence.
    + lia.
    + assert (counter trade' <> 196); [|lia].
      intros Hc196. revert H. unfold case_TRADE_PATCH_DATA.
      intros H. step_inv; simpl in *; try lia; try congruence.
      all: destruct (patch_pt_2 _); simpl in *; step_inv; simpl in *; congruence.
  - (* TRADE_SELECT *)
    unfold case_TRADE_PENDING in H. simpl in H.
    step_inv; simpl; rewrite ?Hp; repeat split; auto; apply land_nibble.
  - (* TRADE_PENDING *)
    unfold case_TRADE_PENDING in H. simpl in H.
    step_inv; simpl; rewrite ?Hp; repeat split; auto; apply land_nibble.
  - (* TRADE_CONFIRMATION *)
    step_inv; simpl; rewrite ?Hp; repeat split; auto; lia.
  - (* TRADE_DONE *)
    destruct (Z.eqb_spec b PKMN_BLANK).
    + destruct (trade_done_copy _) as [t|] eqn:E; simpl in H; [|done].
      simplify_eq.
      pose proof (trade_done_copy_phase _ _ _ _ E) as [_ Hp'].
      pose proof (trade_done_copy_blen _ _ E) as [Hb' Hi'].
      simpl in *. rewrite Hp'. repeat split; congruence.
    + simplify_eq. simpl. rewrite Hp. repeat split; auto; lia.
Qed.

(** X11: in every state of a session both blocks keep the size of a
    [TradeBlock], the counter stays below the length of the phase it counts
    (10, 19, the block size, 6, 196), the part-2 flag is clear up to the
    patch header, and the slot confirmed lies between 0 and 15. *)
Theorem reachable_session_inv trade :
  layout_ok L -> reachable trade -> session_inv L trade.
Proof.
  intros HL Hr. induction Hr as [trade Hp Htb Hib|trade b trade' out Hr IH Hb E].
  - unfold session_inv. rewrite Hp. auto.
  - by eapply session_inv_feed.
Qed.

Lemma patch_data_handled trade send :
  layout_ok L ->
  party_size L = 0x108 ->
  blen (input_block trade) = sizeof_TradeBlock L ->
  counter trade < INT_MAX ->
  is_byte (in_data trade) ->
  (patch_pt_2 trade = true ->
   in_data trade = PKMN_BLANK \/ in_data trade = SERIAL_PATCH_LIST_PART_TERMINATOR
   \/ 0xFB + in_data trade < 0x108) ->
  is_Some (case_TRADE_PATCH_DATA plist_index_get L trade send).
Proof.
  intros HL Hps Hib Hc [Hb0 Hb1] Hpeer.
  unfold case_TRADE_PATCH_DATA. rewrite incr_int_Some by done. simpl.
  destruct (Z.eqb_spec (in_data trade) PKMN_BLANK) as [E0|Hn0]; [simpl; by case_tests|].
  destruct (Z.eqb_spec (in_data trade) SERIAL_PATCH_LIST_PART_TERMINATOR) as [E1|Hn1];
    [simpl; by case_tests|].
  destruct (patch_pt_2 trade) eqn:Hpt; simpl.
  - destruct (party_region_store L (input_block trade) (0xFB + in_data trade) HL Hib)
      as [-> _]; [|simpl; by case_tests].
    rewrite Hps. destruct Hpeer as [?|[?|?]]; try done. lia.
  - destruct (party_region_store L (input_block trade) (in_data trade - 1) HL Hib)
      as [-> _]; [|simpl; by case_tests].
    rewrite Hps. consts. lia.
Qed.

(** One byte is handled whenever the invariant holds and the peer keeps
    within bounds. *)
Lemma session_inv_handled trade b :
  layout_ok L ->
  party_size L = 0x108 ->
  session_inv L trade ->
  is_byte b ->
  peer_in_bounds trade b ->
  is_Some (tc_feed trade b).
Proof.
  intros HL Hps (Htb & Hib & Hph) [Hb0 Hb1] Hpeer.
  pose proof (lo_pm_pos L HL). pose proof (lo_pm_end L HL).
  pose proof (lo_int L HL).
  unfold peer_in_bounds in Hpeer.
  destruct (trade_centre_state trade) eqn:Hp.
  - unfold tc_feed, getTradeCentreResponse. simpl. rewrite Hp. done.
  - unfold tc_feed, getTradeCentreResponse. simpl. rewrite Hp.
    destruct Hph as [Hc _].
    rewrite incr_int_Some by (consts; lia). repeat (case_tests; simpl); eauto.
  - unfold tc_feed, getTradeCentreResponse. simpl. rewrite Hp.
    destruct Hph as [Hc _].
    rewrite incr_int_Some by (consts; lia). repeat (case_tests; simpl); eauto.
  - unfold tc_feed, getTradeCentreResponse. simpl. rewrite Hp.
    destruct Hph as [Hc _].
    rewrite store_in_range by lia. simpl.
    destruct (load_in_range (trade_block trade) (counter trade)) as [v ->]; [lia|]. simpl.
    rewrite incr_int_Some by (consts; lia). simpl. repeat (case_tests; simpl); eauto.
  - destruct Hph as [Hc Hpt].
    unfold tc_feed, getTradeCentreResponse. simpl. rewrite Hp.
    destruct (Z.eqb_spec b SERIAL_PREAMBLE_BYTE) as [->|Hnb].
    + rewrite incr_int_Some by (consts; lia). simpl.
      destruct (Z.eqb_spec (counter trade + 1) 6); [|done].
      apply patch_data_handled; simpl;
        [done|done|done|consts; lia|done|intros; congruence].
    + simpl. destruct (Z.eqb_spec (counter trade) 6); [lia|done].
  - unfold tc_feed, getTradeCentreResponse. simpl. rewrite Hp.
    apply patch_data_handled; simpl; [done|done|done|consts; lia|done|done].
  - unfold tc_feed, getTradeCentreResponse. simpl. rewrite Hp. repeat (case_tests; simpl); eauto.
  - unfold tc_feed, getTradeCentreResponse. simpl. by rewrite Hp.
  - unfold tc_feed, getTradeCentreResponse. simpl. rewrite Hp. repeat (case_tests; simpl); eauto.
  - unfold tc_feed, getTradeCentreResponse. simpl. rewrite Hp.
    destruct (Z.eqb_spec b PKMN_BLANK) as [->|]; [|done].
    destruct (trade_done_copy_block pokemon_table_get_num_from_index L
                (set_in_data PKMN_BLANK trade) HL) as (t' & E & _); simpl; try done.
    + specialize (Hpeer eq_refl). lia.
    + by rewrite E.
Qed.

(** X12: in every state of a session every byte is handled (no access
    outside a block, no overflow of the counter), as long as the peer sends,
    after the terminator of the patch list, only markers up to 12, and
    confirms one of the slots 0 to 5. *)
Theorem session_byte_handled trade b :
  layout_ok L ->
  party_size L = 0x108 ->
  reachable trade ->
  is_byte b ->
  peer_in_bounds trade b ->
  exists trade' out,
    tc_feed trade b = Some (trade', out) /\ reachable trade'.
Proof.
  intros HL Hps Hr Hb Hpeer.
  assert (Hinv : session_inv L trade).
  { clear Hb Hpeer.
    induction Hr as [trade Hp Htb Hib|trade b' trade' out Hr IH Hb E].
    - unfold session_inv. rewrite Hp. auto.
    - by eapply session_inv_feed. }
  destruct (session_inv_handled trade b HL Hps Hinv Hb Hpeer) as [[t' o] E].
  exists t', o. split; [done|]. by eapply reachable_feed.
Qed.

(** X10: a byte handled at the trade table never changes the patch list;
    it changes the local block, the species shown and the queue of rebuilds
    only when it is the blank that completes a trade in the done phase, and
    the scratch block only in the data, patch-header and patch-data
    phases. *)
Theorem blocks_frame trade b trade' out :
  tc_feed trade b = Some (trade', out) ->
  patch_list trade' = patch_list trade
  /\ (trade_centre_state trade <> TRADE_DONE \/ b <> PKMN_BLANK ->
      trade_block trade' = trade_block trade
      /\ curr_pokemon trade' = curr_pokemon trade
      /\ plist_pending trade' = plist_pending trade)
  /\ (trade_centre_state trade <> TRADE_DATA ->
      trade_centre_state trade <> TRADE_PATCH_HEADER ->
      trade_centre_state trade <> TRADE_PATCH_DATA ->
      input_block trade' = input_block trade).
Proof.
  unfold tc_feed, getTradeCentreResponse, case_TRADE_PATCH_DATA, case_TRADE_PENDING,
    trade_done_copy.
  simpl. intros H.
  destruct (trade_centre_state trade); simpl in H.
  1-3, 7-9: step_inv; simpl; by repeat split.
  - step_inv; simpl; by repeat split.
  - step_inv; simpl; repeat split; try done.
    all: destruct (patch_pt_2 trade); simpl in *; step_inv; simpl; by repeat split.
  - step_inv; simpl; repeat split; try done.
    all: destruct (patch_pt_2 trade); simpl in *; step_inv; simpl; by repeat split.
  - destruct (Z.eqb_spec b PKMN_BLANK) as [->|Hb].
    + step_inv. simpl. split; [done|]. split; [intros [?|?]; done|done].
    + simplify_eq. simpl. by repeat split.
Qed.
End Session.


(** *** The end of a session *)

Lemma slot_offset_beyond k s : 6 <= k -> 0 < s -> 6 * s <= k * s.
Proof. intros. nia. Qed.

Lemma memcpy_inv (dst : list Z) d (src : list Z) s n r :
  memcpy dst d src s n = Some r ->
  0 <= d /\ 0 <= s /\ 0 <= n /\ d + n <= blen dst /\ s + n <= blen src.
Proof.
  unfold memcpy.
  destruct (Z.leb_spec 0 d), (Z.leb_spec 0 s), (Z.leb_spec 0 n),
    (Z.leb_spec (d + n) (blen dst)), (Z.leb_spec (s + n) (blen src));
    simpl; try discriminate. auto.
Qed.

Lemma set_in_data_last {PL} (trade : machine PL) b (bs : list Z) :
  set_in_data (default b (last bs)) (set_in_data b trade)
    = set_in_data (default (in_data trade) (last (b :: bs))) trade.
Proof. rewrite last_cons. by destruct (last bs). Qed.

Section End_of_session.
Context {PL : Type}.
Variable plist_index_get : PL -> Z -> Z.
Variable plist_create : list Z -> PL.
Variable pokemon_table_get_num_from_index : Z -> Z.
Variable L : layout.
Implicit Type trade : machine PL.

Local Abbreviation tc_feed := (tc_feed plist_index_get pokemon_table_get_num_from_index L).
Local Abbreviation tc_run := (tc_run plist_index_get pokemon_table_get_num_from_index L).
Local Abbreviation trade_done_copy :=
  (trade_done_copy pokemon_table_get_num_from_index L).
Local Abbreviation getTradeCentreResponse :=
  (getTradeCentreResponse plist_index_get pokemon_table_get_num_from_index L).
Local Abbreviation trade_enter_callback :=
  (trade_enter_callback plist_create pokemon_table_get_num_from_index L).
Local Abbreviation pokemon_plist_recreate_callback :=
  (pokemon_plist_recreate_callback plist_create).
Local Abbreviation recv_byte := (recv_byte plist_index_get pokemon_table_get_num_from_index L).

(** The copy reads past the scratch block when the slot is not one of the
    six. *)
Lemma trade_done_copy_beyond trade :
  layout_ok L ->
  closes_block L ->
  blen (trade_block trade) = sizeof_TradeBlock L ->
  blen (input_block trade) = sizeof_TradeBlock L ->
  6 <= in_pokemon_num trade ->
  trade_done_copy trade = None.
Proof.
  intros HL Hcl Htb Hib Hk.
  pose proof (slot_offset_beyond _ _ Hk (lo_ps_pos L HL)).
  pose proof (slot_offset_beyond _ _ Hk (lo_nm_pos L HL)).
  pose proof (lo_ps_pos L HL). pose proof (lo_nm_pos L HL).
  unfold closes_block, party_size in Hcl.
  unfold trade_done_copy. simpl.
  destruct (load _ _) as [sp|]; simpl; [|done].
  destruct (store _ _ _) as [tb1|] eqn:E1; simpl; [|done].
  destruct (memcpy tb1 _ _ _ _) as [tb2|] eqn:E2; simpl; [|done].
  destruct (memcpy tb2 _ _ _ _) as [tb3|] eqn:E3; simpl; [|done].
  destruct (memcpy tb3 _ _ _ _) as [tb4|] eqn:E4; simpl; [|done].
  exfalso. apply memcpy_inv in E2, E3, E4. lia.
Qed.

(** X14: the slot number of a selection is not checked against the six
    slots.  Where one of the arrays of six ends the block, a selection, a
    blank, the accept byte and a blank are handled when the low nibble of
    the selection is at most 5, and read past the end of the scratch block
    when it is 6 or more. *)
Theorem selection_beyond_party trade b :
  layout_ok L ->
  closes_block L ->
  blen (trade_block trade) = sizeof_TradeBlock L ->
  blen (input_block trade) = sizeof_TradeBlock L ->
  trade_centre_state trade = TRADE_PENDING ->
  is_selection b ->
  is_Some (tc_run trade [b; PKMN_BLANK; PKMN_TRADE_ACCEPT; PKMN_BLANK])
  <-> Z.land b 0x0F <= 5.
Proof.
  intros HL Hcl Htb Hib Hp [Hm Hleave].
  assert (Hnz : b <> 0).
  { intros ->. vm_compute in Hm. done. }
  pose proof (pending_select plist_index_get pokemon_table_get_num_from_index L
                trade b Hp Hleave Hm) as E1.
  match type of E1 with _ = Some (?t, _) => set (t1 := t) in * end.
  pose proof (pending_blank plist_index_get pokemon_table_get_num_from_index L
                t1 Hp Hnz) as E2.
  match type of E2 with _ = Some (?t, _) => set (t2 := t) in * end.
  pose proof (confirmation_accept plist_index_get pokemon_table_get_num_from_index L
                t2 eq_refl) as E3.
  match type of E3 with _ = Some (?t, _) => set (t3 := t) in * end.
  pose proof (done_blank plist_index_get pokemon_table_get_num_from_index L
                t3 eq_refl) as E4.
  assert (Hn : in_pokemon_num (set_in_data PKMN_BLANK t3) = Z.land b 0x0F) by reflexivity.
  assert (Htb3 : blen (trade_block (set_in_data PKMN_BLANK t3)) = sizeof_TradeBlock L)
    by exact Htb.
  assert (Hib3 : blen (input_block (set_in_data PKMN_BLANK t3)) = sizeof_TradeBlock L)
    by exact Hib.
  assert (Hrun : tc_run trade [b; PKMN_BLANK; PKMN_TRADE_ACCEPT; PKMN_BLANK]
                 = t ← trade_done_copy (set_in_data PKMN_BLANK t3);
                   Some (t, [PKMN_SEL_NUM_ONE; PKMN_BLANK; PKMN_TRADE_ACCEPT; PKMN_BLANK])).
  { rewrite (tc_run_cons _ _ _ _ _ _ _ _ E1).
    rewrite (tc_run_cons _ _ _ _ _ _ _ _ E2).
    rewrite (tc_run_cons _ _ _ _ _ _ _ _ E3). simpl tc_run.
    rewrite E4. by destruct (trade_done_copy _). }
  rewrite Hrun. clear E1 E2 E3 E4 Hrun. clearbody t3.
  pose proof (land_nibble b) as Hr. split.
  - intros Hs. destruct (Z.le_gt_cases (Z.land b 0x0F) 5) as [|Hgt]; [done|].
    rewrite trade_done_copy_beyond in Hs; [by destruct Hs|done|done|done|done|].
    rewrite Hn. lia.
  - intros Hle.
    destruct (trade_done_copy_block pokemon_table_get_num_from_index L
                (set_in_data PKMN_BLANK t3) HL)
      as (t' & E & _); [done|done|rewrite Hn; lia|].
    by rewrite E.
Qed.

(** *** Bytes the end of the session does not act on *)

Lemma ignored_feed trade b :
  ignored_in (trade_centre_state trade) b ->
  tc_feed trade b = Some (set_in_data b trade, b).
Proof.
  unfold tc_feed, getTradeCentreResponse, case_TRADE_PENDING. simpl.
  destruct (trade_centre_state trade); simpl; try done.
  - intros (H1 & H2 & H3). by case_tests.
  - intros (H1 & H2). by case_tests.
  - intros H1. by case_tests.
Qed.

(** X17: in the pending, confirmation and done phases a run of bytes the
    phase has no meaning for is echoed byte for byte and changes nothing but
    the record of the last byte received. *)
Theorem unexpected_bytes_ignored bs : forall trade,
  Forall (ignored_in (trade_centre_state trade)) bs ->
  tc_run trade bs = Some (set_in_data (default (in_data trade) (last bs)) trade, bs).
Proof.
  induction bs as [|b bs IH]; intros trade Hbs.
  - simpl. by destruct trade.
  - inversion Hbs as [|?? Hb Hbs']; subst.
    rewrite (tc_run_cons _ _ _ _ _ _ _ _ (ignored_feed _ _ Hb)).
    rewrite (IH (set_in_data b trade) Hbs'). simpl.
    by rewrite <- set_in_data_last.
Qed.

(** *** Selection *)

Lemma selection_nonzero b : is_selection b -> b <> 0.
Proof. intros [Hm _] ->. vm_compute in Hm. done. Qed.

(** X15: in the pending phase each selection byte is answered 0x60 and
    replaces the slot selected before; the blank after the last one is
    answered 0x00 and enters the confirmation phase with the low nibble of
    the last selection as the slot. *)
Theorem last_selection_wins sels : forall trade s,
  trade_centre_state trade = TRADE_PENDING ->
  Forall is_selection sels -> is_selection s ->
  exists trade',
    tc_run trade (sels ++ [s; PKMN_BLANK])
      = Some (trade', replicate (length sels) PKMN_SEL_NUM_ONE ++ [PKMN_SEL_NUM_ONE; 0])
    /\ trade_centre_state trade' = TRADE_CONFIRMATION
    /\ in_pokemon_num trade' = Z.land s 0x0F
    /\ gameboy_status trade' = GAMEBOY_TRADE_PENDING.
Proof.
  induction sels as [|x sels IH]; intros trade s Hp Hsels Hs.
  - destruct Hs as [Hm Hl].
    pose proof (pending_select plist_index_get pokemon_table_get_num_from_index L
                  trade s Hp Hl Hm) as E1.
    match type of E1 with _ = Some (?t, _) => set (t1 := t) in * end.
    pose proof (pending_blank plist_index_get pokemon_table_get_num_from_index L
                  t1 Hp (selection_nonzero s (conj Hm Hl))) as E2.
    simpl app. rewrite (tc_run_cons _ _ _ _ _ _ _ _ E1), (tc_run_cons _ _ _ _ _ _ _ _ E2).
    simpl. eexists. split; [reflexivity|]. done.
  - inversion Hsels as [|?? [Hm Hl] Hsels']; subst.
    pose proof (pending_select plist_index_get pokemon_table_get_num_from_index L
                  trade x Hp Hl Hm) as E1.
    match type of E1 with _ = Some (?t, _) => set (t1 := t) in * end.
    destruct (IH t1 s Hp Hsels' Hs) as (t' & E & Hp' & Hn' & Hg').
    exists t'. simpl app. rewrite (tc_run_cons _ _ _ _ _ _ _ _ E1), E. done.
Qed.

Lemma pending_blank_idle trade :
  trade_centre_state trade = TRADE_PENDING ->
  in_pokemon_num trade = 0 ->
  tc_feed trade PKMN_BLANK = Some (set_in_data PKMN_BLANK trade, PKMN_BLANK).
Proof.
  intros Hp Hn. unfold tc_feed, getTradeCentreResponse, case_TRADE_PENDING.
  simpl. by rewrite Hp, Hn.
Qed.

Lemma pending_blanks_idle n : forall trade,
  trade_centre_state trade = TRADE_PENDING ->
  in_pokemon_num trade = 0 ->
  exists trade',
    tc_run trade (replicate n PKMN_BLANK) = Some (trade', replicate n PKMN_BLANK)
    /\ trade_centre_state trade' = TRADE_PENDING
    /\ in_pokemon_num trade' = 0
    /\ gameboy_status trade' = gameboy_status trade.
Proof.
  induction n as [|n IH]; intros trade Hp Hn.
  - exists trade. done.
  - destruct (IH (set_in_data PKMN_BLANK trade) Hp Hn) as (t' & E & Hp' & Hn' & Hg').
    exists t'. simpl replicate.
    rewrite (tc_run_cons _ _ _ _ _ _ _ _ (pending_blank_idle _ Hp Hn)), E. done.
Qed.

(** X16: a reject in the confirmation phase forgets the selection: the
    blanks that follow, however many, are echoed and leave the machine in
    the pending phase with no slot selected and the status waiting. *)
Theorem reject_forgets_selection n trade :
  trade_centre_state trade = TRADE_CONFIRMATION ->
  exists trade',
    tc_run trade (PKMN_TRADE_REJECT :: replicate (S n) PKMN_BLANK)
      = Some (trade', PKMN_TRADE_REJECT :: replicate (S n) PKMN_BLANK)
    /\ trade_centre_state trade' = TRADE_PENDING
    /\ in_pokemon_num trade' = 0
    /\ gameboy_status trade' = GAMEBOY_WAITING.
Proof.
  intros Hp.
  pose proof (confirmation_reject plist_index_get pokemon_table_get_num_from_index L
                trade Hp) as E1.
  match type of E1 with _ = Some (?t, _) => set (t1 := t) in * end.
  assert (E2 : tc_feed t1 PKMN_BLANK
               = Some (set_state TRADE_PENDING
                         (set_in_pokemon_num 0 (set_in_data PKMN_BLANK t1)), PKMN_BLANK))
    by reflexivity.
  match type of E2 with _ = Some (?t, _) => set (t2 := t) in * end.
  destruct (pending_blanks_idle n t2 eq_refl eq_refl) as (t' & E & Hp' & Hn' & Hg').
  exists t'. simpl replicate.
  rewrite (tc_run_cons _ _ _ _ _ _ _ _ E1), (tc_run_cons _ _ _ _ _ _ _ _ E2), E.
  done.
Qed.

(** *** The init phase *)

Lemma init_feed trade b :
  trade_centre_state trade = TRADE_INIT ->
  counter trade <> SERIAL_RNS_LENGTH ->
  b <> SERIAL_PREAMBLE_BYTE ->
  tc_feed trade b = Some (set_in_data b trade, init_answer b).
Proof.
  intros Hp Hc Hb. unfold tc_feed, getTradeCentreResponse, init_answer. simpl.
  rewrite Hp. destruct (Z.eqb_spec b SERIAL_PREAMBLE_BYTE); [done|].
  destruct (Z.land b PKMN_SEL_NUM_MASK =? PKMN_SEL_NUM_MASK); simpl;
    by destruct (Z.eqb_spec (counter trade) SERIAL_RNS_LENGTH).
Qed.

(** X18: in the init phase a run of bytes without a preamble byte is
    not counted: a byte with bits 5 and 6 set is answered with the
    leave-table byte 0x6f, any other byte is echoed, and nothing changes but
    the record of the last byte received. *)
Theorem init_mirrors_until_preamble bs : forall trade,
  trade_centre_state trade = TRADE_INIT ->
  counter trade <> SERIAL_RNS_LENGTH ->
  Forall (fun b => b <> SERIAL_PREAMBLE_BYTE) bs ->
  tc_run trade bs
    = Some (set_in_data (default (in_data trade) (last bs)) trade, init_answer <$> bs).
Proof.
  induction bs as [|b bs IH]; intros trade Hp Hc Hbs.
  - simpl. by destruct trade.
  - inversion Hbs as [|?? Hb Hbs']; subst.
    rewrite (tc_run_cons _ _ _ _ _ _ _ _ (init_feed _ _ Hp Hc Hb)).
    rewrite (IH (set_in_data b trade) Hp Hc Hbs'). simpl.
    by rewrite <- set_in_data_last.
Qed.

(** *** Entering the view *)

(** X9: on a block of the right size [trade_enter_callback] always
    returns; it puts the phase back to reset, rebuilds the patch list from
    the local block, shows the species of slot 0, clears the shifter and the
    blink flag, keeps a status up to ready and pulls any later status back
    to ready.  The next completed byte goes to the handler the status then
    selects: from ready on, the byte is echoed and starts the init phase
    with the counter and the part-2 flag cleared; while the status is
    not-connected or connected, the negotiation or the menu answers it and
    the phase stays reset, the counter and the flag as they were. *)
Theorem enter_restarts_session trade b :
  layout_ok L ->
  blen (trade_block trade) = sizeof_TradeBlock L ->
  exists t0 sp,
    trade_enter_callback trade = Some t0
    /\ load (trade_block trade) (off_party_members L) = Some sp
    /\ curr_pokemon t0 = pokemon_table_get_num_from_index sp `mod` 256
    /\ patch_list t0 = plist_create (trade_block trade)
    /\ gameboy_status t0
       = (if status_rank GAMEBOY_READY <? status_rank (gameboy_status trade)
          then GAMEBOY_READY else gameboy_status trade)
    /\ trade_centre_state t0 = TRADE_RESET
    /\ (shift t0 = 0 /\ in_data t0 = 0 /\ out_data t0 = 0 /\ ledon t0 = false)
    /\ (status_rank GAMEBOY_READY <= status_rank (gameboy_status trade) ->
        exists t1,
          recv_byte t0 b = Some (t1, b)
          /\ gameboy_status t0 = GAMEBOY_READY
          /\ trade_centre_state t1 = TRADE_INIT
          /\ counter t1 = 0
          /\ patch_pt_2 t1 = false)
    /\ (status_rank (gameboy_status trade) < status_rank GAMEBOY_READY ->
        exists t1 out,
          recv_byte t0 b = Some (t1, out)
          /\ trade_centre_state t1 = TRADE_RESET
          /\ counter t1 = counter trade
          /\ patch_pt_2 t1 = patch_pt_2 trade).
Proof.
  intros HL Htb.
  pose proof (lo_pm_pos L HL) as Hpos. pose proof (lo_pm_end L HL) as Hend.
  destruct (load_in_range (trade_block trade) (off_party_members L)) as [sp Hsp]; [lia|].
  clear HL Htb Hpos Hend.
  destruct trade as [p i o sh tb ib pl g le cp pt2 c n tm pd].
  cbn [trade_block] in Hsp.
  unfold trade_enter_callback.
  destruct g;
    cbn [gameboy_status status_rank Z.ltb Z.compare Pos.compare Pos.compare_cont
         set_status set_state trade_block];
    rewrite Hsp; cbn;
    (eexists _, sp; split; [reflexivity|]);
    (split; [reflexivity|]); (split; [reflexivity|]); (split; [reflexivity|]);
    (split; [reflexivity|]); (split; [reflexivity|]); (split; [done|]);
    (split; intros Hr; [|]); try (exfalso; cbn in Hr; lia);
    unfold recv_byte, byte_response, getConnectResponse, getMenuResponse,
      getTradeCentreResponse; cbn.
  - case_tests; (eexists _, _; split; [reflexivity|]; done).
  - case_tests; simpl; (eexists _, _; split; [reflexivity|]; done).
  - eexists. split; [reflexivity|]. done.
  - eexists. split; [reflexivity|]. done.
  - eexists. split; [reflexivity|]. done.
  - eexists. split; [reflexivity|]. done.
Qed.

(** *** The trade and the patch list *)

(** X19: the blank that completes a trade shows the species taken from
    the selected slot of the scratch block and queues one rebuild of the
    patch list, which is left as it was; when the queued
    [pokemon_plist_recreate_callback] runs, the patch list is the one of the
    local block that now holds the creature received. *)
Theorem done_then_rebuild trade :
  layout_ok L ->
  blen (trade_block trade) = sizeof_TradeBlock L ->
  blen (input_block trade) = sizeof_TradeBlock L ->
  trade_centre_state trade = TRADE_DONE ->
  0 <= in_pokemon_num trade <= 5 ->
  exists trade' sp,
    tc_feed trade PKMN_BLANK = Some (trade', PKMN_BLANK)
    /\ slot_species L (input_block trade) (in_pokemon_num trade) = Some sp
    /\ curr_pokemon trade' = pokemon_table_get_num_from_index sp `mod` 256
    /\ patch_list trade' = patch_list trade
    /\ plist_pending trade' = S (plist_pending trade)
    /\ patch_list (pokemon_plist_recreate_callback trade')
       = plist_create (trade_block trade')
    /\ plist_pending (pokemon_plist_recreate_callback trade') = plist_pending trade
    /\ trade_block (pokemon_plist_recreate_callback trade') = trade_block trade'.
Proof.
  intros HL Htb Hib Hp Hk.
  rewrite (done_blank plist_index_get pokemon_table_get_num_from_index L trade Hp).
  destruct (trade_done_copy_block pokemon_table_get_num_from_index L
              (set_in_data PKMN_BLANK trade) HL Htb Hib Hk)
    as (t' & E & _ & _ & _ & Hpd & (sp & Hsp & Hcur) & Hl & Hcp).
  rewrite E. simpl in *.
  exists t', sp. split; [done|].
  assert (Hpl : patch_list t' = patch_list trade).
  { clear -E. unfold trade_done_copy in E. simpl in E.
    repeat match type of E with
    | (?m ≫= _) = _ => destruct m; simpl in E; [|done]
    end.
    by simplify_eq. }
  split.
  { unfold slot_species. rewrite <- Hsp, Hcp by (apply (lo_pm_pos L HL)).
    by case_decide. }
  split; [done|]. split; [done|]. split; [done|].
  unfold pokemon_plist_recreate_callback. simpl. rewrite Hpd. done.
Qed.

(** *** The patch list sent and received *)

Lemma patch_data_step trade b :
  layout_ok L ->
  party_size L = 0x108 ->
  blen (input_block trade) = sizeof_TradeBlock L ->
  trade_centre_state trade = TRADE_PATCH_DATA ->
  0 <= counter trade < 196 ->
  is_byte b ->
  (patch_pt_2 trade = true ->
   b = PKMN_BLANK \/ b = SERIAL_PATCH_LIST_PART_TERMINATOR \/ 0xFB + b < 0x108) ->
  exists trade',
    tc_feed trade b
      = Some (trade', patch_answer plist_index_get (patch_list trade) (counter trade + 1) b)
    /\ counter trade' = counter trade + 1
    /\ trade_centre_state trade'
       = (if counter trade + 1 =? 196 then TRADE_SELECT else TRADE_PATCH_DATA)
    /\ patch_pt_2 trade' = patch_pt_2 trade || (b =? SERIAL_PATCH_LIST_PART_TERMINATOR)
    /\ trade_block trade' = trade_block trade
    /\ patch_list trade' = patch_list trade
    /\ blen (input_block trade') = sizeof_TradeBlock L.
Proof.
  intros HL Hps Hib Hp Hc [Hb0 Hb1] Hpeer.
  destruct trade as [p i o sh tb ib pl g le cp pt2 c n tm pd].
  cbn in Hib, Hp, Hc, Hpeer. subst p.
  unfold tc_feed, getTradeCentreResponse, case_TRADE_PATCH_DATA, patch_answer.
  cbn [trade_centre_state in_data counter patch_pt_2 input_block patch_list trade_block
       set_in_data set_counter set_patch_pt_2 set_input_block set_state].
  rewrite incr_int_Some by (consts; lia). cbn [mbind option_bind].
  destruct (Z.eqb_spec b PKMN_BLANK) as [->|Hn0].
  { cbn. eexists. split; [reflexivity|]. cbn.
    destruct (c + 1 =? 196); cbn; rewrite ?orb_false_r; done. }
  destruct (Z.eqb_spec b SERIAL_PATCH_LIST_PART_TERMINATOR) as [->|Hn1].
  { cbn. eexists. split; [reflexivity|]. cbn.
    destruct (c + 1 =? 196); cbn; rewrite ?orb_true_r; done. }
  rewrite orb_false_r.
  destruct pt2; cbn [negb].
  - destruct (party_region_store L ib (0xFB + b) HL Hib) as [-> _].
    { rewrite Hps. destruct Hpeer as [?|[?|?]]; try done. lia. }
    cbn. eexists. split; [reflexivity|].
    destruct (c + 1 =? 196); cbn; rewrite blen_insert; done.
  - destruct (party_region_store L ib (b - 1) HL Hib) as [-> _].
    { rewrite Hps. consts. lia. }
    cbn. eexists. split; [reflexivity|].
    destruct (c + 1 =? 196); cbn; rewrite blen_insert; done.
Qed.

(** X13: in the patch-data phase a run of bytes whose markers after the
    terminator stay inside the party region is handled to its end; the byte
    that brings the counter to [c] is echoed while [c] is at most 7 and
    answered with entry [c - 8] of the local patch list after that,
    whatever its value; the local block and the patch list are unchanged,
    and the phase becomes select exactly when the counter reaches 196. *)
Theorem patch_data_answers bs : forall trade,
  layout_ok L ->
  party_size L = 0x108 ->
  blen (input_block trade) = sizeof_TradeBlock L ->
  trade_centre_state trade = TRADE_PATCH_DATA ->
  0 <= counter trade < 196 ->
  counter trade + blen bs <= 196 ->
  patch_stream_ok (patch_pt_2 trade) bs ->
  exists trade',
    tc_run trade bs
      = Some (trade',
              zip_with (patch_answer plist_index_get (patch_list trade))
                (seqZ (counter trade + 1) (blen bs)) bs)
    /\ counter trade' = counter trade + blen bs
    /\ trade_centre_state trade'
       = (if counter trade' =? 196 then TRADE_SELECT else TRADE_PATCH_DATA)
    /\ trade_block trade' = trade_block trade
    /\ patch_list trade' = patch_list trade
    /\ blen (input_block trade') = sizeof_TradeBlock L.
Proof.
  induction bs as [|b bs IH]; intros trade HL Hps Hib Hp Hc Hlen Hok.
  - exists trade. cbn. rewrite Z.add_0_r.
    destruct (Z.eqb_spec (counter trade) 196); [lia|]. done.
  - destruct Hok as (Hb & Hpeer & Hok).
    destruct (patch_data_step trade b HL Hps Hib Hp Hc Hb Hpeer)
      as (t1 & E1 & Hc1 & Hp1 & Hpt1 & Htb1 & Hpl1 & Hib1).
    assert (Hbl : blen (b :: bs) = blen bs + 1) by (unfold blen; cbn [length]; lia).
    assert (0 <= blen bs) by (unfold blen; lia).
    rewrite Hbl in *.
    rewrite (tc_run_cons _ _ _ _ _ _ _ _ E1).
    rewrite seqZ_cons by lia. cbn [zip_with].
    replace (Z.pred (blen bs + 1)) with (blen bs) by lia.
    replace (Z.succ (counter trade + 1)) with (counter t1 + 1) by lia.
    destruct bs as [|b' bs].
    + cbn. exists t1. rewrite Hc1. change (blen []) with 0. rewrite Z.add_0_l.
      split; [done|]. split; [done|]. done.
    + assert (Hc196 : counter trade + 1 <> 196).
      { unfold blen in Hlen. cbn [length] in Hlen. lia. }
      destruct (Z.eqb_spec (counter trade + 1) 196); [done|].
      destruct (IH t1 HL Hps Hib1 Hp1) as (t2 & E2 & Hc2 & Hp2 & Htb2 & Hpl2 & Hib2).
      * lia.
      * lia.
      * by rewrite Hpt1.
      * exists t2. rewrite E2, <- Hpl1. cbn [mbind option_bind fst snd].
        split; [done|]. split; [lia|].
        split; [|split; [congruence|split; [congruence|done]]].
        rewrite Hp2. replace (counter trade + (blen (b' :: bs) + 1)) with (counter t2) by lia.
        done.
Qed.
End End_of_session.


(** *** A whole session *)

Section Whole_session.
Context {PL : Type}.
Variable plist_index_get : PL -> Z -> Z.
Variable pokemon_table_get_num_from_index : Z -> Z.
Variable L : layout.
Implicit Type trade : machine PL.

Local Abbreviation tc_feed := (tc_feed plist_index_get pokemon_table_get_num_from_index L).
Local Abbreviation tc_run := (tc_run plist_index_get pokemon_table_get_num_from_index L).
Local Abbreviation getTradeCentreResponse :=
  (getTradeCentreResponse plist_index_get pokemon_table_get_num_from_index L).

Lemma same_blocks_refl trade : same_blocks trade trade.
Proof. by repeat split. Qed.

Lemma same_blocks_trans (t1 t2 t3 : machine PL) :
  same_blocks t1 t2 -> same_blocks t2 t3 -> same_blocks t1 t3.
Proof. unfold same_blocks. intuition congruence. Qed.

Lemma tc_run_chain trade bs1 bs2 t1 o1 t2 o2 :
  tc_run trade bs1 = Some (t1, o1) ->
  tc_run t1 bs2 = Some (t2, o2) ->
  tc_run trade (bs1 ++ bs2) = Some (t2, o1 ++ o2).
Proof.
  intros E1 E2. rewrite (tc_run_app _ _ _ _ _ _ _ _ E1), E2. done.
Qed.

Lemma tc_run_one trade b t1 o1 :
  tc_feed trade b = Some (t1, o1) -> tc_run trade [b] = Some (t1, [o1]).
Proof. intros E. simpl. by rewrite E. Qed.

(** **** The steps of the counted phases *)

Lemma reset_step trade b :
  trade_centre_state trade = TRADE_RESET ->
  tc_feed trade b
    = Some (set_state TRADE_INIT (set_patch_pt_2 false (set_counter 0 (set_in_data b trade))),
            b).
Proof.
  intros Hp. unfold tc_feed, getTradeCentreResponse. simpl. by rewrite Hp.
Qed.

Lemma init_step_preamble trade :
  trade_centre_state trade = TRADE_INIT ->
  0 <= counter trade < SERIAL_RNS_LENGTH ->
  tc_feed trade SERIAL_PREAMBLE_BYTE
    = Some (let t1 := set_status GAMEBOY_WAITING
                        (set_counter (counter trade + 1)
                           (set_in_data SERIAL_PREAMBLE_BYTE trade)) in
            if counter trade + 1 =? SERIAL_RNS_LENGTH
            then set_counter 0 (set_state TRADE_RANDOM t1) else t1,
            SERIAL_PREAMBLE_BYTE).
Proof.
  intros Hp Hc. unfold tc_feed, getTradeCentreResponse. simpl. rewrite Hp.
  rewrite incr_int_Some by (consts; lia). simpl.
  by destruct (counter trade + 1 =? SERIAL_RNS_LENGTH).
Qed.

Lemma random_step trade b :
  trade_centre_state trade = TRADE_RANDOM ->
  0 <= counter trade < SERIAL_RNS_LENGTH + SERIAL_TRADE_PREAMBLE_LENGTH ->
  tc_feed trade b
    = Some (if counter trade + 1 =? SERIAL_RNS_LENGTH + SERIAL_TRADE_PREAMBLE_LENGTH
            then set_counter 0 (set_state TRADE_DATA (set_in_data b trade))
            else set_counter (counter trade + 1) (set_in_data b trade), b).
Proof.
  intros Hp Hc. unfold tc_feed, getTradeCentreResponse. simpl. rewrite Hp.
  rewrite incr_int_Some by (consts; lia). simpl.
  by destruct (counter trade + 1 =? SERIAL_RNS_LENGTH + SERIAL_TRADE_PREAMBLE_LENGTH).
Qed.

Lemma header_step_other trade b :
  trade_centre_state trade = TRADE_PATCH_HEADER ->
  counter trade <> 6 ->
  b <> SERIAL_PREAMBLE_BYTE ->
  tc_feed trade b = Some (set_counter (counter trade) (set_in_data b trade), b).
Proof.
  intros Hp Hc Hb. unfold tc_feed, getTradeCentreResponse. simpl. rewrite Hp.
  destruct (Z.eqb_spec b SERIAL_PREAMBLE_BYTE); [done|]. simpl.
  by destruct (Z.eqb_spec (counter trade) 6).
Qed.

Lemma header_step_preamble trade :
  trade_centre_state trade = TRADE_PATCH_HEADER ->
  0 <= counter trade < 5 ->
  tc_feed trade SERIAL_PREAMBLE_BYTE
    = Some (set_counter (counter trade + 1) (set_in_data SERIAL_PREAMBLE_BYTE trade),
            SERIAL_PREAMBLE_BYTE).
Proof.
  intros Hp Hc. unfold tc_feed, getTradeCentreResponse. simpl. rewrite Hp.
  rewrite incr_int_Some by (consts; lia). simpl.
  by destruct (Z.eqb_spec (counter trade + 1) 6); [lia|].
Qed.

Lemma header_step_last trade :
  layout_ok L ->
  party_size L = 0x108 ->
  blen (input_block trade) = sizeof_TradeBlock L ->
  trade_centre_state trade = TRADE_PATCH_HEADER ->
  counter trade = 5 ->
  patch_pt_2 trade = false ->
  tc_feed trade SERIAL_PREAMBLE_BYTE
    = Some (set_input_block
              (<[Z.to_nat (off_party L + 0xFC) := SERIAL_NO_DATA_BYTE]> (input_block trade))
              (set_counter 1 (set_state TRADE_PATCH_DATA
                 (set_counter 0 (set_in_data SERIAL_PREAMBLE_BYTE trade)))),
            SERIAL_PREAMBLE_BYTE).
Proof.
  intros HL Hps Hib Hp Hc Hpt.
  destruct (party_region_store L (input_block trade) 0xFC HL Hib) as [Hst _]; [lia|].
  unfold tc_feed, getTradeCentreResponse, case_TRADE_PATCH_DATA.
  simpl. rewrite Hp, Hc, Hpt. simpl.
  change (off_party L + (SERIAL_PREAMBLE_BYTE - 1)) with (off_party L + 252).
  rewrite Hst. reflexivity.
Qed.

Lemma patch_blank_step trade :
  trade_centre_state trade = TRADE_PATCH_DATA ->
  0 <= counter trade < 196 ->
  tc_feed trade PKMN_BLANK
    = Some (let t1 := set_counter (counter trade + 1) (set_in_data PKMN_BLANK trade) in
            if counter trade + 1 =? 196 then set_state TRADE_SELECT t1 else t1,
            patch_answer plist_index_get (patch_list trade) (counter trade + 1) PKMN_BLANK).
Proof.
  intros Hp Hc. unfold tc_feed, getTradeCentreResponse, case_TRADE_PATCH_DATA, patch_answer.
  simpl. rewrite Hp. rewrite incr_int_Some by (consts; lia). reflexivity.
Qed.

Lemma select_blank trade :
  trade_centre_state trade = TRADE_SELECT ->
  tc_feed trade PKMN_BLANK
    = Some (set_state TRADE_PENDING
              (set_in_pokemon_num 0 (set_in_data PKMN_BLANK trade)), PKMN_BLANK).
Proof.
  intros Hp. unfold tc_feed, getTradeCentreResponse, case_TRADE_PENDING.
  simpl. by rewrite Hp.
Qed.

(** **** The runs of the counted phases *)

Lemma init_run_blocks bs : forall trade,
  trade_centre_state trade = TRADE_INIT ->
  0 <= counter trade ->
  counter trade + preamble_count bs < SERIAL_RNS_LENGTH ->
  exists trade' outs,
    tc_run trade bs = Some (trade', outs)
    /\ length outs = length bs
    /\ trade_centre_state trade' = TRADE_INIT
    /\ counter trade' = counter trade + preamble_count bs
    /\ same_blocks trade trade'.
Proof.
  induction bs as [|b bs IH]; intros trade Hp Hc Hlt.
  - exists trade, []. unfold preamble_count. simpl.
    repeat split; auto. lia.
  - rewrite preamble_count_cons in *.
    pose proof (preamble_count_nonneg bs).
    destruct (Z.eqb_spec b SERIAL_PREAMBLE_BYTE) as [->|Hb].
    + pose proof (init_step_preamble trade Hp ltac:(lia)) as E1. cbv zeta in E1.
      destruct (Z.eqb_spec (counter trade + 1) SERIAL_RNS_LENGTH); [lia|].
      match type of E1 with _ = Some (?t, _) => set (t1 := t) in * end.
      destruct (IH t1) as (t2 & o2 & E2 & Hl2 & Hp2 & Hc2 & Hb2);
        [done|simpl; lia|simpl; lia|].
      exists t2, (SERIAL_PREAMBLE_BYTE :: o2).
      rewrite (tc_run_cons _ _ _ _ _ _ _ _ E1), E2. simpl in *.
      repeat split; try (apply Hb2); auto; lia.
    + assert (Hc10 : counter trade <> SERIAL_RNS_LENGTH) by lia.
      pose proof (init_feed plist_index_get pokemon_table_get_num_from_index L
                    trade b Hp Hc10 Hb) as E1.
      destruct (IH (set_in_data b trade)) as (t2 & o2 & E2 & Hl2 & Hp2 & Hc2 & Hb2);
        [done|simpl; lia|simpl; lia|].
      exists t2, (init_answer b :: o2).
      rewrite (tc_run_cons _ _ _ _ _ _ _ _ E1), E2. simpl in *.
      repeat split; try (apply Hb2); auto; lia.
Qed.

Lemma random_run_blocks bs : forall trade,
  trade_centre_state trade = TRADE_RANDOM ->
  0 <= counter trade ->
  counter trade + blen bs < SERIAL_RNS_LENGTH + SERIAL_TRADE_PREAMBLE_LENGTH ->
  exists trade',
    tc_run trade bs = Some (trade', bs)
    /\ trade_centre_state trade' = TRADE_RANDOM
    /\ counter trade' = counter trade + blen bs
    /\ same_blocks trade trade'.
Proof.
  induction bs as [|b bs IH]; intros trade Hp Hc Hlt.
  - exists trade. unfold blen. simpl. repeat split; auto. lia.
  - assert (Hbl : blen (b :: bs) = blen bs + 1) by (unfold blen; cbn [length]; lia).
    assert (0 <= blen bs) by (unfold blen; lia).
    rewrite Hbl in *.
    pose proof (random_step trade b Hp ltac:(lia)) as E1.
    destruct (Z.eqb_spec (counter trade + 1)
                (SERIAL_RNS_LENGTH + SERIAL_TRADE_PREAMBLE_LENGTH)); [lia|].
    match type of E1 with _ = Some (?t, _) => set (t1 := t) in * end.
    destruct (IH t1) as (t2 & E2 & Hp2 & Hc2 & Hb2); [done|simpl; lia|simpl; lia|].
    exists t2. rewrite (tc_run_cons _ _ _ _ _ _ _ _ E1), E2. simpl in *.
    repeat split; try (apply Hb2); auto; lia.
Qed.

Lemma header_run_blocks bs : forall trade,
  trade_centre_state trade = TRADE_PATCH_HEADER ->
  0 <= counter trade ->
  counter trade + preamble_count bs < 6 ->
  exists trade',
    tc_run trade bs = Some (trade', bs)
    /\ trade_centre_state trade' = TRADE_PATCH_HEADER
    /\ counter trade' = counter trade + preamble_count bs
    /\ same_blocks trade trade'.
Proof.
  induction bs as [|b bs IH]; intros trade Hp Hc Hlt.
  - exists trade. unfold preamble_count. simpl. repeat split; auto. lia.
  - rewrite preamble_count_cons in *.
    pose proof (preamble_count_nonneg bs).
    destruct (Z.eqb_spec b SERIAL_PREAMBLE_BYTE) as [->|Hb].
    + pose proof (header_step_preamble trade Hp ltac:(lia)) as E1.
      match type of E1 with _ = Some (?t, _) => set (t1 := t) in * end.
      destruct (IH t1) as (t2 & E2 & Hp2 & Hc2 & Hb2); [done|simpl; lia|simpl; lia|].
      exists t2. rewrite (tc_run_cons _ _ _ _ _ _ _ _ E1), E2. simpl in *.
      repeat split; try (apply Hb2); auto; lia.
    + pose proof (header_step_other trade b Hp ltac:(lia) Hb) as E1.
      match type of E1 with _ = Some (?t, _) => set (t1 := t) in * end.
      destruct (IH t1) as (t2 & E2 & Hp2 & Hc2 & Hb2); [done|simpl; lia|simpl; lia|].
      exists t2. rewrite (tc_run_cons _ _ _ _ _ _ _ _ E1), E2. simpl in *.
      repeat split; try (apply Hb2); auto; lia.
Qed.

Lemma patch_blanks_blocks n : forall trade,
  trade_centre_state trade = TRADE_PATCH_DATA ->
  0 <= counter trade ->
  counter trade + Z.of_nat n <= 196 ->
  (0 < n)%nat ->
  exists trade',
    tc_run trade (replicate n PKMN_BLANK)
      = Some (trade',
              zip_with (patch_answer plist_index_get (patch_list trade))
                (seqZ (counter trade + 1) (Z.of_nat n)) (replicate n PKMN_BLANK))
    /\ trade_centre_state trade'
       = (if counter trade' =? 196 then TRADE_SELECT else TRADE_PATCH_DATA)
    /\ counter trade' = counter trade + Z.of_nat n
    /\ same_blocks trade trade'.
Proof.
  induction n as [|n IH]; intros trade Hp Hc Hlt Hn; [lia|].
  pose proof (patch_blank_step trade Hp ltac:(lia)) as E1. cbv zeta in E1.
  cbn [replicate]. rewrite (tc_run_cons _ _ _ _ _ _ _ _ E1).
  rewrite seqZ_cons by lia. cbn [zip_with].
  replace (Z.pred (Z.of_nat (S n))) with (Z.of_nat n) by lia.
  destruct n as [|n].
  - cbn. eexists. split; [reflexivity|].
    destruct (Z.eqb_spec (counter trade + 1) 196) as [E|E]; cbn; rewrite ?E;
      repeat split; auto.
    destruct (Z.eqb_spec (counter trade + 1) 196); [lia|done].
  - destruct (Z.eqb_spec (counter trade + 1) 196); [lia|].
    match type of E1 with _ = Some (?t, _) => set (t1 := t) in * end.
    destruct (IH t1) as (t2 & E2 & Hp2 & Hc2 & Hb2); [done|simpl; lia|simpl; lia|lia|].
    exists t2. rewrite E2. simpl in *.
    split; [done|]. split; [done|]. split; [lia|].
    repeat split; apply Hb2.
Qed.

(** No byte changes the patch list. *)
Lemma tc_feed_patch_list trade b trade' out :
  tc_feed trade b = Some (trade', out) -> patch_list trade' = patch_list trade.
Proof.
  unfold tc_feed, getTradeCentreResponse, case_TRADE_PATCH_DATA, case_TRADE_PENDING,
    trade_done_copy.
  simpl. intros H.
  destruct (trade_centre_state trade); simpl in H; step_inv; simpl; try done.
  all: destruct (patch_pt_2 trade); simpl in *; step_inv; simpl; done.
Qed.

Lemma tc_run_patch_list bs : forall trade trade' outs,
  tc_run trade bs = Some (trade', outs) -> patch_list trade' = patch_list trade.
Proof.
  induction bs as [|b bs IH]; intros trade trade' outs H; simpl in H.
  - by simplify_eq.
  - destruct (tc_feed trade b) as [[t1 o1]|] eqn:E1; simpl in H; [|done].
    destruct (tc_run t1 bs) as [[t2 o2]|] eqn:E2; simpl in H; [|done].
    simplify_eq. rewrite (IH _ _ _ E2). by eapply tc_feed_patch_list.
Qed.

Lemma session_inv_run bs : forall trade trade' outs,
  layout_ok L ->
  session_inv L trade ->
  tc_run trade bs = Some (trade', outs) ->
  session_inv L trade'.
Proof.
  induction bs as [|b bs IH]; intros trade trade' outs HL Hinv H; simpl in H.
  - by simplify_eq.
  - destruct (tc_feed trade b) as [[t1 o1]|] eqn:E1; simpl in H; [|done].
    destruct (tc_run t1 bs) as [[t2 o2]|] eqn:E2; simpl in H; [|done].
    simplify_eq. eapply IH; [done| |exact E2].
    by eapply (session_inv_feed plist_index_get pokemon_table_get_num_from_index L).
Qed.

(** The whole of the data phase. *)
Lemma data_stage trade pb :
  layout_ok L ->
  trade_centre_state trade = TRADE_DATA ->
  counter trade = 0 ->
  patch_pt_2 trade = false ->
  blen (trade_block trade) = sizeof_TradeBlock L ->
  blen (input_block trade) = sizeof_TradeBlock L ->
  blen pb = sizeof_TradeBlock L ->
  exists trade',
    tc_run trade pb = Some (trade', trade_block trade)
    /\ trade_centre_state trade' = TRADE_PATCH_HEADER
    /\ counter trade' = 0
    /\ patch_pt_2 trade' = false
    /\ input_block trade' = pb
    /\ trade_block trade' = trade_block trade.
Proof.
  intros HL Hp Hc Hpt Htb Hib Hbs.
  pose proof (lo_pm_pos L HL). pose proof (lo_pm_end L HL). pose proof (lo_int L HL).
  assert (exists r0 x, pb = r0 ++ [x] /\ blen r0 = sizeof_TradeBlock L - 1)
    as (r0 & x & -> & Hr0).
  { destruct pb as [|y bs'] using rev_ind; [unfold blen in Hbs; simpl in *; lia|].
    exists bs', y. split; [done|]. unfold blen in *. rewrite length_app in Hbs.
    simpl in *. lia. }
  destruct (data_run plist_index_get pokemon_table_get_num_from_index L r0 trade)
    as (t1 & E1 & Hp1 & Hc1 & Htb1 & Hib1 & Hl1); auto; [lia|lia|].
  destruct (data_step plist_index_get pokemon_table_get_num_from_index L t1 x)
    as (y & Hy & E2); auto; [lia|congruence|].
  revert E2. case_tests; [|lia]. simpl. intros E2.
  match type of E2 with _ = Some (?t, _) => set (t2 := t) in * end.
  assert (Erun : tc_run trade (r0 ++ [x]) = Some (t2, trade_block trade)).
  { rewrite (tc_run_snoc _ _ _ _ _ _ _ _ _ _ E1 E2). do 2 f_equal.
    rewrite Hc. unfold slice. simpl. rewrite drop_0.
    rewrite <- (take_ge (trade_block trade) (S (Z.to_nat (blen r0)))) at 2
      by (unfold blen in *; lia).
    symmetry. apply take_S_r. rewrite <- Hy, Htb1. f_equal. lia. }
  assert (Hinv : session_inv L t2).
  { eapply session_inv_run; [done| |exact Erun].
    unfold session_inv. rewrite Hp. repeat split; auto; lia. }
  exists t2. split; [done|]. split; [done|]. split; [done|].
  split; [apply Hinv|]. split; [|done].
  subst t2. simpl. apply list_eq. intros j. unfold blen in *.
  replace (Z.to_nat (counter t1)) with (length r0) by lia.
  destruct (decide (j = length r0)) as [->|Hne].
  - rewrite list_lookup_insert_eq by lia.
    by rewrite lookup_app_r, Nat.sub_diag by lia.
  - rewrite list_lookup_insert_ne by done. rewrite Hl1.
    case_decide.
    + rewrite lookup_app_l by lia. f_equal. lia.
    + rewrite !lookup_ge_None_2; [done| |]; rewrite ?length_app; simpl; lia.
Qed.

(** X23: a whole session from the reset phase is handled to the end: a
    first byte, a run holding nine preamble bytes, the tenth preamble byte,
    nineteen bytes, the peer's block, a run holding five preamble bytes, the
    sixth preamble byte, 195 blanks for an empty patch list, a blank, the
    selection of a slot up to 5, a blank, the accept byte and a blank.  The
    machine then is back in the reset phase with the status trading.  It
    has sent its block byte for byte, echoed the patch header, sent six
    blanks and the 189 first entries of its patch list, and answered the
    selection.  The scratch block is the peer's block but for the byte at
    position 0xFC of the party region, which the sixth preamble byte has
    overwritten with 0xFE, and slot 0 of the local block holds the selected
    slot of the scratch block. *)
Theorem whole_session trade b0 pre seeds pb hdr sel :
  layout_ok L ->
  party_size L = 0x108 ->
  blen (trade_block trade) = sizeof_TradeBlock L ->
  blen (input_block trade) = sizeof_TradeBlock L ->
  trade_centre_state trade = TRADE_RESET ->
  preamble_count pre = SERIAL_RNS_LENGTH - 1 ->
  blen seeds = SERIAL_RNS_LENGTH + SERIAL_TRADE_PREAMBLE_LENGTH ->
  blen pb = sizeof_TradeBlock L ->
  preamble_count hdr = 5 ->
  is_selection sel ->
  Z.land sel 0x0F <= 5 ->
  exists trade' o1,
    tc_run trade
      ([b0] ++ pre ++ [SERIAL_PREAMBLE_BYTE] ++ seeds ++ pb ++ hdr
         ++ [SERIAL_PREAMBLE_BYTE] ++ replicate 195 PKMN_BLANK
         ++ [PKMN_BLANK; sel; PKMN_BLANK; PKMN_TRADE_ACCEPT; PKMN_BLANK])
      = Some (trade',
              o1 ++ trade_block trade ++ hdr ++ [SERIAL_PREAMBLE_BYTE]
                ++ replicate 6 PKMN_BLANK
                ++ ((fun i => plist_index_get (patch_list trade) i `mod` 256)
                      <$> seqZ 0 189)
                ++ [PKMN_BLANK; PKMN_SEL_NUM_ONE; PKMN_BLANK; PKMN_TRADE_ACCEPT;
                    PKMN_BLANK])
    /\ length o1 = (1 + length pre + 1 + length seeds)%nat
    /\ trade_centre_state trade' = TRADE_RESET
    /\ gameboy_status trade' = GAMEBOY_TRADING
    /\ input_block trade'
       = <[Z.to_nat (off_party L + 0xFC) := SERIAL_NO_DATA_BYTE]> pb
    /\ copied_block L (trade_block trade) (input_block trade') (Z.land sel 0x0F)
         (trade_block trade').
Proof.
  intros HL Hps Htb Hib Hp Hpre Hseeds Hpb Hhdr [Hm Hleave] Hk.
  (* reset *)
  pose proof (reset_step trade b0 Hp) as E0.
  match type of E0 with _ = Some (?t, _) => set (t0 := t) in * end.
  apply tc_run_one in E0.
  (* init *)
  destruct (init_run_blocks pre t0) as (t1 & op & E1 & Hlp & Hp1 & Hc1 & Hb1);
    [done|simpl; lia|simpl; consts; lia|].
  pose proof (init_step_preamble t1 Hp1) as E1'. cbv zeta in E1'.
  rewrite Hc1, Hpre in E1'. simpl in E1'. specialize (E1' ltac:(consts; lia)).
  match type of E1' with _ = Some (?t, _) => set (t1' := t) in * end.
  apply tc_run_one in E1'.
  (* random *)
  assert (exists s0 x, seeds = s0 ++ [x] /\ blen s0 = 18) as (s0 & x & -> & Hs0).
  { destruct seeds as [|y s'] using rev_ind; [unfold blen in Hseeds; simpl in *; consts; lia|].
    exists s', y. split; [done|]. unfold blen in *. rewrite length_app in Hseeds.
    simpl in *. consts. lia. }
  destruct (random_run_blocks s0 t1') as (t2 & E2 & Hp2 & Hc2 & Hb2);
    [done|simpl; lia|simpl; consts; lia|].
  pose proof (random_step t2 x Hp2) as E2'.
  rewrite Hc2, Hs0 in E2'. simpl in E2'. specialize (E2' ltac:(consts; lia)).
  match type of E2' with _ = Some (?t, _) => set (t2' := t) in * end.
  apply tc_run_one in E2'.
  assert (Hb02 : same_blocks t0 t2).
  { eapply same_blocks_trans; [exact Hb1|].
    eapply same_blocks_trans; [|exact Hb2]. by repeat split. }
  destruct Hb02 as (Htb2 & Hib2 & Hpt2 & Hpl2). simpl in Htb2, Hib2, Hpt2, Hpl2.
  (* data *)
  destruct (data_stage t2' pb HL) as (t3 & E3 & Hp3 & Hc3 & Hpt3 & Hib3 & Htb3);
    [done|done|exact Hpt2|simpl; congruence|simpl; congruence|done|].
  simpl in E3, Htb3. rewrite Htb2 in E3, Htb3.
  (* patch header *)
  destruct (header_run_blocks hdr t3) as (t4 & E4 & Hp4 & Hc4 & Htb4 & Hib4 & Hpt4 & Hpl4);
    [done|lia|lia|].
  pose proof (header_step_last t4 HL Hps) as E4'.
  rewrite Hib4, Hib3 in E4'.
  specialize (E4' Hpb Hp4 ltac:(lia) ltac:(congruence)).
  match type of E4' with _ = Some (?t, _) => set (t4' := t) in * end.
  apply tc_run_one in E4'.
  (* patch data *)
  destruct (patch_blanks_blocks 195 t4') as (t5 & E5 & Hp5 & Hc5 & Htb5 & Hib5 & _);
    [done|simpl; lia|simpl; lia|lia|].
  simpl in Hc5, Htb5, Hib5. rewrite Hc5 in Hp5. simpl in Hp5.
  assert (Hpl : patch_list t4' = patch_list trade).
  { simpl. rewrite Hpl4, (tc_run_patch_list _ _ _ _ E3). simpl. exact Hpl2. }
  rewrite Hpl in E5.
  change (zip_with _ _ _) with
    (replicate 6 PKMN_BLANK
       ++ ((fun i => plist_index_get (patch_list trade) i `mod` 256) <$> seqZ 0 189))
    in E5.
  (* selection and trade *)
  pose proof (select_blank t5 Hp5) as E6.
  match type of E6 with _ = Some (?t, _) => set (t6 := t) in * end.
  pose proof (selection_nonzero sel (conj Hm Hleave)) as Hnz.
  pose proof (pending_select plist_index_get pokemon_table_get_num_from_index L
                t6 sel eq_refl Hleave Hm) as E7.
  match type of E7 with _ = Some (?t, _) => set (t7 := t) in * end.
  pose proof (pending_blank plist_index_get pokemon_table_get_num_from_index L
                t7 eq_refl Hnz) as E8.
  match type of E8 with _ = Some (?t, _) => set (t8 := t) in * end.
  pose proof (confirmation_accept plist_index_get pokemon_table_get_num_from_index L
                t8 eq_refl) as E9.
  match type of E9 with _ = Some (?t, _) => set (t9 := t) in * end.
  pose proof (done_blank plist_index_get pokemon_table_get_num_from_index L
                t9 eq_refl) as E10.
  pose proof (land_nibble sel) as Hnib.
  destruct (trade_done_copy_block pokemon_table_get_num_from_index L
              (set_in_data PKMN_BLANK t9) HL)
    as (t' & E & Hp' & Hg' & Hib' & _ & _ & Hcp).
  { simpl. rewrite Htb5, Htb4, Htb3. done. }
  { simpl. rewrite Hib5. simpl. rewrite blen_insert. done. }
  { simpl. lia. }
  rewrite E in E10. simpl in E10, Hib', Hcp.
  rewrite Hib5 in Hib'. simpl in Hib'.
  rewrite Htb5, Htb4, Htb3, Hib5 in Hcp. simpl in Hcp.
  assert (Etail : tc_run t5 [PKMN_BLANK; sel; PKMN_BLANK; PKMN_TRADE_ACCEPT; PKMN_BLANK]
                  = Some (t', [PKMN_BLANK; PKMN_SEL_NUM_ONE; 0; PKMN_TRADE_ACCEPT;
                               PKMN_BLANK])).
  { rewrite (tc_run_cons _ _ _ _ _ _ _ _ E6), (tc_run_cons _ _ _ _ _ _ _ _ E7),
      (tc_run_cons _ _ _ _ _ _ _ _ E8), (tc_run_cons _ _ _ _ _ _ _ _ E9),
      (tc_run_cons _ _ _ _ _ _ _ _ E10). done. }
  clear E6 E7 E8 E9 E10 E.
  pose proof (tc_run_chain _ _ _ _ _ _ _ E5 Etail) as R5.
  pose proof (tc_run_chain _ _ _ _ _ _ _ E4' R5) as R4'.
  pose proof (tc_run_chain _ _ _ _ _ _ _ E4 R4') as R4.
  pose proof (tc_run_chain _ _ _ _ _ _ _ E3 R4) as R3.
  pose proof (tc_run_chain _ _ _ _ _ _ _ E2' R3) as R2'.
  pose proof (tc_run_chain _ _ _ _ _ _ _ E2 R2') as R2.
  pose proof (tc_run_chain _ _ _ _ _ _ _ E1' R2) as R1'.
  pose proof (tc_run_chain _ _ _ _ _ _ _ E1 R1') as R1.
  pose proof (tc_run_chain _ _ _ _ _ _ _ E0 R1) as R0.
  exists t', ([b0] ++ op ++ [SERIAL_PREAMBLE_BYTE] ++ s0 ++ [x]).
  split.
  { rewrite <- !app_assoc. exact R0. }
  split.
  { rewrite !length_app. simpl. lia. }
  split; [done|]. split; [done|]. rewrite Hib'. split; [done|]. exact Hcp.
Qed.
End Whole_session.

(** *** The display *)

Section Display.
Context {PL : Type}.
Variable pokemon_table_icon : Z -> Icon.
Implicit Type model : machine PL.

Local Abbreviation trade_draw_callback := (trade_draw_callback pokemon_table_icon).

(** X20: whatever the icons of the species table, what
    [trade_draw_callback] draws on the canvas tells the six statuses apart,
    and the two frames of the trading animation. *)
Theorem frame_shows_status model model' :
  canvas_calls (trade_draw_callback model) = canvas_calls (trade_draw_callback model') ->
  gameboy_status model' = gameboy_status model
  /\ (gameboy_status model = GAMEBOY_TRADING -> ledon model' = ledon model).
Proof.
  unfold trade_draw_callback.
  destruct (gameboy_status model), (gameboy_status model');
    try (destruct (ledon model)); try (destruct (ledon model'));
    cbn; intros H; try discriminate H; (split; [done|]; intros Hr; congruence).
Qed.

(** X21: after a frame the green light is lit exactly when the status is
    connected; at the trade table the red light is not touched and the blue
    light is lit exactly while trading with the blink flag set; before the
    trade table the blue light is not touched and the red light is lit
    exactly when the status is not-connected. *)
Theorem lights_follow_status model l :
  let l' := lights_after l (trade_draw_callback model) in
  green l' = match gameboy_status model with GAMEBOY_CONN_TRUE => 0xff | _ => 0x00 end
  /\ (2 <= status_rank (gameboy_status model) ->
      red l' = red l
      /\ blue l' = match gameboy_status model with
                   | GAMEBOY_TRADING => if ledon model then 0xff else 0x00
                   | _ => 0x00
                   end)
  /\ (status_rank (gameboy_status model) < 2 ->
      blue l' = blue l
      /\ red l' = match gameboy_status model with GAMEBOY_CONN_FALSE => 0xff | _ => 0x00 end).
Proof.
  unfold trade_draw_callback, lights_after.
  destruct (gameboy_status model); try (destruct (ledon model)); cbn;
    (split; [done|]); (split; intros Hr; try lia); done.
Qed.

(** X22: while trading, a tick of the draw timer changes the frame and
    swaps the blue light between lit and dark; two ticks give the frame
    back. *)
Theorem trading_frames_alternate model l :
  gameboy_status model = GAMEBOY_TRADING ->
  let tick := trade_draw_timer_callback in
  trade_draw_callback (tick model) <> trade_draw_callback model
  /\ trade_draw_callback (tick (tick model)) = trade_draw_callback model
  /\ blue (lights_after l (trade_draw_callback (tick model)))
     = 0xff - blue (lights_after l (trade_draw_callback model)).
Proof.
  intros Hg. unfold trade_draw_callback, trade_draw_timer_callback, lights_after.
  cbn. rewrite Hg. destruct (ledon model); cbn; repeat split; done.
Qed.
End Display.

(** ** The further properties on the concrete session *)

Lemma not_connected_until_connected_byte_witness :
  exists trade',
    recv_run ex_plist_index_get ex_table_get_num gen1_layout
      (ex_machine TRADE_RESET GAMEBOY_CONN_FALSE 0 false) [PKMN_MASTER; PKMN_BLANK; 0x7F]
      = Some (trade', [PKMN_SLAVE; PKMN_BLANK; PKMN_BREAK_LINK])
    /\ gameboy_status trade' = GAMEBOY_CONN_FALSE
    /\ exists trade'',
         recv_byte ex_plist_index_get ex_table_get_num gen1_layout trade' PKMN_CONNECTED
           = Some (trade'', PKMN_CONNECTED)
         /\ gameboy_status trade'' = GAMEBOY_CONN_TRUE.
Proof.
  destruct (not_connected_until_connected_byte ex_plist_index_get ex_table_get_num
              gen1_layout (ex_machine TRADE_RESET GAMEBOY_CONN_FALSE 0 false)
              [PKMN_MASTER; PKMN_BLANK; 0x7F])
    as (t' & E & Hs & _ & t'' & E' & Hs' & _).
  - reflexivity.
  - repeat constructor; vm_compute; discriminate.
  - exists t'. split; [exact E|]. split; [exact Hs|].
    exists t''. split; [exact E'|exact Hs'].
Defined.

Lemma menu_run_mirrors_witness :
  exists trade',
    recv_run ex_plist_index_get ex_table_get_num gen1_layout
      (ex_machine TRADE_RESET GAMEBOY_CONN_TRUE 0 false)
      [ITEM_1_HIGHLIGHTED; ITEM_2_HIGHLIGHTED; PKMN_BLANK]
      = Some (trade', [ITEM_1_HIGHLIGHTED; ITEM_2_HIGHLIGHTED; PKMN_BLANK])
    /\ gameboy_status trade' = GAMEBOY_CONN_TRUE.
Proof.
  destruct (menu_run_mirrors ex_plist_index_get ex_table_get_num gen1_layout
              (ex_machine TRADE_RESET GAMEBOY_CONN_TRUE 0 false)
              [ITEM_1_HIGHLIGHTED; ITEM_2_HIGHLIGHTED; PKMN_BLANK])
    as (t' & E & Hs & _).
  - reflexivity.
  - repeat constructor; intros [H|[H|[H|H]]]; vm_compute in H; discriminate H.
  - exists t'. split; [exact E|exact Hs].
Defined.

Lemma menu_break_returns_to_negotiation_witness :
  exists trade',
    recv_run ex_plist_index_get ex_table_get_num gen1_layout
      (ex_machine TRADE_RESET GAMEBOY_CONN_TRUE 0 false) [PKMN_COLOSSEUM; PKMN_MASTER]
      = Some (trade', [PKMN_BREAK_LINK; PKMN_SLAVE])
    /\ gameboy_status trade' = GAMEBOY_CONN_FALSE.
Proof.
  destruct (menu_break_returns_to_negotiation ex_plist_index_get ex_table_get_num
              gen1_layout (ex_machine TRADE_RESET GAMEBOY_CONN_TRUE 0 false) PKMN_COLOSSEUM)
    as (t' & E & Hs & _).
  - reflexivity.
  - left. reflexivity.
  - exists t'. split; [exact E|exact Hs].
Defined.

Lemma ready_stays_at_table_witness :
  exists trade' outs,
    recv_run ex_plist_index_get ex_table_get_num gen1_layout
      (ex_machine TRADE_RESET GAMEBOY_READY 0 false)
      ([PKMN_BLANK] ++ replicate 10 SERIAL_PREAMBLE_BYTE ++ [PKMN_BREAK_LINK; PKMN_MASTER])
      = Some (trade', outs)
    /\ 2 <= status_rank (gameboy_status trade').
Proof.
  eexists _, _. split; [vm_compute; reflexivity|].
  eapply (ready_stays_at_table ex_plist_index_get ex_table_get_num gen1_layout
           (ex_machine TRADE_RESET GAMEBOY_READY 0 false)
           ([PKMN_BLANK] ++ replicate 10 SERIAL_PREAMBLE_BYTE
              ++ [PKMN_BREAK_LINK; PKMN_MASTER])).
  - simpl. lia.
  - vm_compute; reflexivity.
Defined.

Lemma eight_rising_edges_witness :
  rising_edges ex_plist_index_get ex_table_get_num gen1_layout
      (ex_machine TRADE_INIT GAMEBOY_WAITING 0 false)
      [true; true; true; true; true; true; false; true]
    = r ← byte_response ex_plist_index_get ex_table_get_num gen1_layout
            (set_in_data (byte_of_bits [true; true; true; true; true; true; false; true])
               (ex_machine TRADE_INIT GAMEBOY_WAITING 0 false));
      Some (set_in_data 0 (set_out_data r.2 r.1)).
Proof.
  apply (eight_rising_edges ex_plist_index_get ex_table_get_num gen1_layout
           (ex_machine TRADE_INIT GAMEBOY_WAITING 0 false)); reflexivity.
Defined.


Lemma desync_gap_across_wrap_witness :
  input_clk_gameboy ex_plist_index_get ex_table_get_num gen1_layout
      (set_time 4294967000 ex_midbyte) true true
      ((time (set_time 4294967000 ex_midbyte) + 1000) `mod` UINT32_MOD) 64
    = t ← transferBit ex_plist_index_get ex_table_get_num gen1_layout
            (if (64 * 500) `mod` UINT32_MOD <? 1000
             then set_shift 0 (set_in_data 0 (set_time 4294967000 ex_midbyte))
             else set_time 4294967000 ex_midbyte) true;
      Some (set_time ((time (set_time 4294967000 ex_midbyte) + 1000) `mod` UINT32_MOD) t,
            None).
Proof.
  apply (desync_gap_across_wrap ex_plist_index_get ex_table_get_num gen1_layout
           (set_time 4294967000 ex_midbyte) true 1000 64).
  - unfold UINT32_MOD. simpl. lia.
  - unfold UINT32_MOD. lia.
Defined.

Lemma patch_pt_2_stays_witness :
  exists trade' out,
    ex_feed (ex_machine TRADE_PATCH_DATA GAMEBOY_WAITING 20 true) 5 = Some (trade', out)
    /\ patch_pt_2 trade' = true.
Proof.
  eexists _, _. split; [vm_compute; reflexivity|].
  eapply (patch_pt_2_stays ex_plist_index_get ex_table_get_num gen1_layout
           (ex_machine TRADE_PATCH_DATA GAMEBOY_WAITING 20 true) 5).
  - discriminate.
  - reflexivity.
  - vm_compute; reflexivity.
Defined.

Lemma enter_restarts_session_witness :
  exists t0 t1,
    trade_enter_callback ex_plist_create ex_table_get_num gen1_layout
      (ex_machine TRADE_DONE GAMEBOY_TRADING 7 true) = Some t0
    /\ curr_pokemon t0 = 12
    /\ patch_list t0 = ex_plist_create (ex_block 0)
    /\ gameboy_status t0 = GAMEBOY_READY
    /\ recv_byte ex_plist_index_get ex_table_get_num gen1_layout t0 0x42 = Some (t1, 0x42)
    /\ trade_centre_state t1 = TRADE_INIT
    /\ counter t1 = 0
    /\ patch_pt_2 t1 = false.
Proof.
  destruct (enter_restarts_session ex_plist_index_get ex_plist_create ex_table_get_num
              gen1_layout (ex_machine TRADE_DONE GAMEBOY_TRADING 7 true) 0x42)
    as (t0 & sp & E & Hsp & Hcur & Hpl & Hg & _ & _ & Hat & _).
  - gen1_ok.
  - vm_compute; reflexivity.
  - destruct Hat as (t1 & E1 & _ & Hp & Hc & Hpt); [simpl; lia|].
    exists t0, t1. split; [exact E|].
    split; [|split; [exact Hpl|split; [exact Hg|split; [exact E1|auto]]]].
    rewrite Hcur. vm_compute in Hsp. injection Hsp as <-. reflexivity.
Defined.

Lemma blocks_frame_witness :
  exists trade' out,
    ex_feed (ex_machine TRADE_CONFIRMATION GAMEBOY_TRADE_PENDING 196 false) PKMN_TRADE_ACCEPT
      = Some (trade', out)
    /\ patch_list trade' = replicate 200 0
    /\ trade_block trade' = ex_block 0
    /\ input_block trade' = ex_block 100.
Proof.
  eexists _, _. split; [vm_compute; reflexivity|].
  destruct (blocks_frame ex_plist_index_get ex_table_get_num gen1_layout
              (ex_machine TRADE_CONFIRMATION GAMEBOY_TRADE_PENDING 196 false)
              PKMN_TRADE_ACCEPT
              (set_state TRADE_DONE (set_in_data PKMN_TRADE_ACCEPT
                 (ex_machine TRADE_CONFIRMATION GAMEBOY_TRADE_PENDING 196 false)))
              PKMN_TRADE_ACCEPT)
    as (Hpl & Htb & Hib).
  - reflexivity.
  - split; [exact Hpl|]. split.
    + apply Htb. left. discriminate.
    + apply Hib; discriminate.
Defined.

Lemma reachable_session_inv_witness :
  (exists trade outs,
      ex_run (ex_machine TRADE_RESET GAMEBOY_READY 0 false) ex_patch_part2
        = Some (trade, outs)
      /\ trade_centre_state trade = TRADE_PATCH_DATA
      /\ patch_pt_2 trade = true
      /\ counter trade = 4
      /\ session_inv gen1_layout trade)
  /\ (exists trade outs,
        ex_run (ex_machine TRADE_RESET GAMEBOY_READY 0 false) ex_accepted
          = Some (trade, outs)
        /\ trade_centre_state trade = TRADE_DONE
        /\ in_pokemon_num trade = 4
        /\ session_inv gen1_layout trade).
Proof.
  split.
  - eexists _, _. split; [vm_compute; reflexivity|].
    split; [reflexivity|]. split; [reflexivity|]. split; [reflexivity|].
    apply (reachable_session_inv ex_plist_index_get ex_table_get_num gen1_layout).
    + gen1_ok.
    + eapply (reachable_run ex_plist_index_get ex_table_get_num gen1_layout
                (ex_machine TRADE_RESET GAMEBOY_READY 0 false) ex_patch_part2).
      * apply reachable_enter; vm_compute; reflexivity.
      * apply (bool_decide_unpack _). vm_compute. exact I.
      * vm_compute; reflexivity.
  - eexists _, _. split; [vm_compute; reflexivity|].
    split; [reflexivity|]. split; [reflexivity|].
    apply (reachable_session_inv ex_plist_index_get ex_table_get_num gen1_layout).
    + gen1_ok.
    + eapply (reachable_run ex_plist_index_get ex_table_get_num gen1_layout
                (ex_machine TRADE_RESET GAMEBOY_READY 0 false) ex_accepted).
      * apply reachable_enter; vm_compute; reflexivity.
      * apply (bool_decide_unpack _). vm_compute. exact I.
      * vm_compute; reflexivity.
Defined.

Lemma session_byte_handled_witness :
  (exists trade outs,
      ex_run (ex_machine TRADE_RESET GAMEBOY_READY 0 false) ex_patch_part2
        = Some (trade, outs)
      /\ trade_centre_state trade = TRADE_PATCH_DATA
      /\ patch_pt_2 trade = true
      /\ exists trade' out,
           ex_feed trade 12 = Some (trade', out)
           /\ reachable ex_plist_index_get ex_table_get_num gen1_layout trade')
  /\ (exists trade outs,
        ex_run (ex_machine TRADE_RESET GAMEBOY_READY 0 false) ex_accepted
          = Some (trade, outs)
        /\ trade_centre_state trade = TRADE_DONE
        /\ in_pokemon_num trade = 4
        /\ exists trade' out,
             ex_feed trade PKMN_BLANK = Some (trade', out)
             /\ reachable ex_plist_index_get ex_table_get_num gen1_layout trade').
Proof.
  split.
  - eexists _, _. split; [vm_compute; reflexivity|].
    split; [reflexivity|]. split; [reflexivity|].
    apply (session_byte_handled ex_plist_index_get ex_table_get_num gen1_layout).
    + gen1_ok.
    + reflexivity.
    + eapply (reachable_run ex_plist_index_get ex_table_get_num gen1_layout
                (ex_machine TRADE_RESET GAMEBOY_READY 0 false) ex_patch_part2).
      * apply reachable_enter; vm_compute; reflexivity.
      * apply (bool_decide_unpack _). vm_compute. exact I.
      * vm_compute; reflexivity.
    + unfold is_byte. lia.
    + intros _. right. right. reflexivity.
  - eexists _, _. split; [vm_compute; reflexivity|].
    split; [reflexivity|]. split; [reflexivity|].
    apply (session_byte_handled ex_plist_index_get ex_table_get_num gen1_layout).
    + gen1_ok.
    + reflexivity.
    + eapply (reachable_run ex_plist_index_get ex_table_get_num gen1_layout
                (ex_machine TRADE_RESET GAMEBOY_READY 0 false) ex_accepted).
      * apply reachable_enter; vm_compute; reflexivity.
      * apply (bool_decide_unpack _). vm_compute. exact I.
      * vm_compute; reflexivity.
    + unfold is_byte, PKMN_BLANK. lia.
    + intros _. vm_compute. discriminate.
Defined.

Lemma patch_data_answers_witness :
  exists trade',
    ex_run (set_patch_list [0x11; 0x22; 0x33]
              (ex_machine TRADE_PATCH_DATA GAMEBOY_WAITING 6 false))
      [0; 5; SERIAL_PATCH_LIST_PART_TERMINATOR; 3]
      = Some (trade', [0; 0x11; 0x22; 0x33])
    /\ counter trade' = 10
    /\ trade_centre_state trade' = TRADE_PATCH_DATA.
Proof.
  destruct (patch_data_answers ex_plist_index_get ex_table_get_num gen1_layout
              [0; 5; SERIAL_PATCH_LIST_PART_TERMINATOR; 3]
              (set_patch_list [0x11; 0x22; 0x33]
                 (ex_machine TRADE_PATCH_DATA GAMEBOY_WAITING 6 false)))
    as (t' & E & Hc & Hp & _).
  - gen1_ok.
  - reflexivity.
  - vm_compute; reflexivity.
  - reflexivity.
  - cbn. lia.
  - unfold blen. cbn. lia.
  - unfold is_byte. cbn. repeat split; try lia; try discriminate.
  - exists t'. split; [exact E|]. split; [exact Hc|]. rewrite Hc in Hp. exact Hp.
Defined.

Lemma selection_beyond_party_witness :
  is_Some (ex_run (ex_machine TRADE_PENDING GAMEBOY_WAITING 196 false)
             [0x66; PKMN_BLANK; PKMN_TRADE_ACCEPT; PKMN_BLANK])
  <-> Z.land 0x66 0x0F <= 5.
Proof.
  apply (selection_beyond_party ex_plist_index_get ex_table_get_num gen1_layout
           (ex_machine TRADE_PENDING GAMEBOY_WAITING 196 false) 0x66).
  - gen1_ok.
  - right. left. reflexivity.
  - vm_compute; reflexivity.
  - vm_compute; reflexivity.
  - reflexivity.
  - split; [reflexivity|discriminate].
Defined.

Lemma last_selection_wins_witness :
  exists trade',
    ex_run (ex_machine TRADE_PENDING GAMEBOY_WAITING 196 false)
      ([0x61; 0x64] ++ [0x62; PKMN_BLANK])
      = Some (trade', replicate 2 PKMN_SEL_NUM_ONE ++ [PKMN_SEL_NUM_ONE; 0])
    /\ trade_centre_state trade' = TRADE_CONFIRMATION
    /\ in_pokemon_num trade' = 2
    /\ gameboy_status trade' = GAMEBOY_TRADE_PENDING.
Proof.
  apply (last_selection_wins ex_plist_index_get ex_table_get_num gen1_layout
           [0x61; 0x64] (ex_machine TRADE_PENDING GAMEBOY_WAITING 196 false) 0x62).
  - reflexivity.
  - repeat constructor; discriminate.
  - split; [reflexivity|discriminate].
Defined.

Lemma reject_forgets_selection_witness :
  exists trade',
    ex_run (ex_machine TRADE_CONFIRMATION GAMEBOY_TRADE_PENDING 196 false)
      (PKMN_TRADE_REJECT :: replicate 4 PKMN_BLANK)
      = Some (trade', PKMN_TRADE_REJECT :: replicate 4 PKMN_BLANK)
    /\ trade_centre_state trade' = TRADE_PENDING
    /\ in_pokemon_num trade' = 0
    /\ gameboy_status trade' = GAMEBOY_WAITING.
Proof.
  apply (reject_forgets_selection ex_plist_index_get ex_table_get_num gen1_layout 3
           (ex_machine TRADE_CONFIRMATION GAMEBOY_TRADE_PENDING 196 false)).
  reflexivity.
Defined.

Lemma unexpected_bytes_ignored_witness :
  ex_run (ex_machine TRADE_CONFIRMATION GAMEBOY_TRADE_PENDING 196 false) [0x00; 0x7F]
    = Some (set_in_data 0x7F (ex_machine TRADE_CONFIRMATION GAMEBOY_TRADE_PENDING 196 false),
            [0x00; 0x7F]).
Proof.
  apply (unexpected_bytes_ignored ex_plist_index_get ex_table_get_num gen1_layout
           [0x00; 0x7F] (ex_machine TRADE_CONFIRMATION GAMEBOY_TRADE_PENDING 196 false)).
  repeat constructor; discriminate.
Defined.

Lemma init_mirrors_until_preamble_witness :
  ex_run (ex_machine TRADE_INIT GAMEBOY_READY 3 false) [0x00; 0x62; 0x7F]
    = Some (set_in_data 0x7F (ex_machine TRADE_INIT GAMEBOY_READY 3 false),
            [0x00; PKMN_TABLE_LEAVE; PKMN_TABLE_LEAVE]).
Proof.
  apply (init_mirrors_until_preamble ex_plist_index_get ex_table_get_num gen1_layout
           [0x00; 0x62; 0x7F] (ex_machine TRADE_INIT GAMEBOY_READY 3 false)).
  - reflexivity.
  - discriminate.
  - repeat constructor; discriminate.
Defined.

Lemma done_then_rebuild_witness :
  exists trade' sp,
    ex_feed (set_in_pokemon_num 2 (ex_machine TRADE_DONE GAMEBOY_TRADE_PENDING 196 false))
      PKMN_BLANK = Some (trade', PKMN_BLANK)
    /\ slot_species gen1_layout (ex_block 100) 2 = Some sp
    /\ curr_pokemon trade' = ex_table_get_num sp `mod` 256
    /\ patch_list trade' = replicate 200 0
    /\ patch_list (pokemon_plist_recreate_callback ex_plist_create trade')
       = ex_plist_create (trade_block trade')
    /\ plist_pending (pokemon_plist_recreate_callback ex_plist_create trade') = 0%nat.
Proof.
  destruct (done_then_rebuild ex_plist_index_get ex_plist_create ex_table_get_num
              gen1_layout
              (set_in_pokemon_num 2 (ex_machine TRADE_DONE GAMEBOY_TRADE_PENDING 196 false)))
    as (t' & sp & E & Hsp & Hcur & Hpl & _ & Hpl' & Hpd' & _).
  - gen1_ok.
  - vm_compute; reflexivity.
  - vm_compute; reflexivity.
  - reflexivity.
  - simpl. lia.
  - exists t', sp. repeat split; assumption.
Defined.

Lemma frame_shows_status_witness :
  gameboy_status (set_curr_pokemon 5 (ex_machine TRADE_INIT GAMEBOY_WAITING 0 false))
  = gameboy_status (set_curr_pokemon 4 (ex_machine TRADE_RESET GAMEBOY_WAITING 5 true)).
Proof.
  destruct (frame_shows_status ex_pokemon_table_icon
              (set_curr_pokemon 4 (ex_machine TRADE_RESET GAMEBOY_WAITING 5 true))
              (set_curr_pokemon 5 (ex_machine TRADE_INIT GAMEBOY_WAITING 0 false)))
    as (Hg & _).
  - reflexivity.
  - exact Hg.
Defined.

Lemma trading_frames_alternate_witness :
  blue (lights_after (Lights 0 0 0)
          (trade_draw_callback ex_pokemon_table_icon
             (trade_draw_timer_callback (ex_machine TRADE_RESET GAMEBOY_TRADING 0 false))))
    = 0xff - blue (lights_after (Lights 0 0 0)
                     (trade_draw_callback ex_pokemon_table_icon
                        (ex_machine TRADE_RESET GAMEBOY_TRADING 0 false))).
Proof.
  apply (trading_frames_alternate ex_pokemon_table_icon
           (ex_machine TRADE_RESET GAMEBOY_TRADING 0 false) (Lights 0 0 0)).
  reflexivity.
Defined.

Lemma whole_session_witness :
  exists trade' o1,
    ex_run (ex_machine TRADE_RESET GAMEBOY_READY 0 false)
      ([PKMN_BLANK] ++ replicate 9 SERIAL_PREAMBLE_BYTE ++ [SERIAL_PREAMBLE_BYTE]
         ++ replicate 19 0 ++ ex_block 7 ++ replicate 5 SERIAL_PREAMBLE_BYTE
         ++ [SERIAL_PREAMBLE_BYTE] ++ replicate 195 PKMN_BLANK
         ++ [PKMN_BLANK; 0x63; PKMN_BLANK; PKMN_TRADE_ACCEPT; PKMN_BLANK])
      = Some (trade',
              o1 ++ ex_block 0 ++ replicate 5 SERIAL_PREAMBLE_BYTE ++ [SERIAL_PREAMBLE_BYTE]
                ++ replicate 6 PKMN_BLANK
                ++ ((fun i => ex_plist_index_get (replicate 200 0) i `mod` 256)
                      <$> seqZ 0 189)
                ++ [PKMN_BLANK; PKMN_SEL_NUM_ONE; PKMN_BLANK; PKMN_TRADE_ACCEPT;
                    PKMN_BLANK])
    /\ trade_centre_state trade' = TRADE_RESET
    /\ gameboy_status trade' = GAMEBOY_TRADING
    /\ input_block trade'
       = <[Z.to_nat (off_party gen1_layout + 0xFC) := SERIAL_NO_DATA_BYTE]> (ex_block 7)
    /\ copied_block gen1_layout (ex_block 0) (input_block trade') 3 (trade_block trade').
Proof.
  destruct (whole_session ex_plist_index_get ex_table_get_num gen1_layout
              (ex_machine TRADE_RESET GAMEBOY_READY 0 false) PKMN_BLANK
              (replicate 9 SERIAL_PREAMBLE_BYTE) (replicate 19 0) (ex_block 7)
              (replicate 5 SERIAL_PREAMBLE_BYTE) 0x63)
    as (t' & o1 & E & _ & Hp & Hg & Hib & Hcp).
  - gen1_ok.
  - reflexivity.
  - vm_compute; reflexivity.
  - vm_compute; reflexivity.
  - reflexivity.
  - vm_compute; reflexivity.
  - vm_compute; reflexivity.
  - vm_compute; reflexivity.
  - vm_compute; reflexivity.
  - split; [reflexivity|discriminate].
  - vm_compute; discriminate.
  - exists t', o1. split; [exact E|]. split; [exact Hp|]. split; [exact Hg|].
    split; [exact Hib|exact Hcp].
Defined.
